(** * rsqlite: a database/sql driver for rqlite clusters

    A shallow embedding of the Go sources

      - driver.go      (connection strings: [ParseDSN])
      - leader.go      (the cluster manager: discovery, node selection)
      - connection.go  (connect / reconnect and the retry loops)
      - statement.go   (prepared statements)
      - result.go      (the row cursor and [convertValue])

    Go strings are byte strings ([string]), slices are lists, [int64] and
    [time.Duration] are [Z] with the wrap-around or saturation written out,
    a Go [error] is a value of the inductive [error], and an interface value is
    a [GoValue] tagged with its dynamic type.  Everything that leaves the
    process (HTTP status requests, the gorqlite client, the clock, the order
    in which a Go map is ranged over) is an operation of the class [Remote];
    the driver's functions thread the state of that environment and keep a
    log of the remote calls they make.  The two [sync.RWMutex] fields are part
    of the state: they are not re-entrant, and a goroutine that locks one it
    already holds never returns.

    [ExecContext], [QueryContext] and [Ping] call [reconnect] with [c.mu]
    held, and [connect], which [reconnect] ends with, takes [c.mu] itself:
    a failed first call is where these operations stay.  The retry loop,
    which [ExecContext] and [QueryContext] share word for word, is written
    once ([retry], [with_client]), with the method that stands at the place
    of [c.reconnect()] as an argument; [ExecContext] and [QueryContext] are
    its instances at [reconnect]. *)

From Stdlib Require Import ZArith String Ascii List Lia Bool.
From stdpp Require Import base gmap sets list strings.

Set Warnings "-clear-no-such-hyp".

Local Open Scope Z_scope.

(** ** Go's [strings] package, as far as the driver uses it *)

Module strings.

Fixpoint HasPrefix (s prefix : string) : bool :=
  match prefix, s with
  | EmptyString, _ => true
  | String _ _, EmptyString => false
  | String a p, String b s' => if Ascii.eqb a b then HasPrefix s' p else false
  end.

Fixpoint drop (n : nat) (s : string) : string :=
  match n, s with
  | O, _ => s
  | S _, EmptyString => EmptyString
  | S n', String _ s' => drop n' s'
  end.

Definition TrimPrefix (s prefix : string) : string :=
  if HasPrefix s prefix then drop (String.length prefix) s else s.

Fixpoint Contains (s substr : string) : bool :=
  HasPrefix s substr ||
  match s with
  | EmptyString => false
  | String _ s' => Contains s' substr
  end.

Definition byte (c : ascii) : N := N_of_ascii c.

Definition between (lo hi : N) (c : ascii) : bool :=
  ((lo <=? byte c) && (byte c <=? hi))%N.

(** Width of the UTF-8 sequence at the head of [s], as
    [utf8.DecodeRuneInString] reports it: 1 for ASCII and for every invalid
    or truncated sequence. *)
Definition rune_width (s : string) : nat :=
  match s with
  | EmptyString => 0
  | String c0 rest =>
      let b := byte c0 in
      let '(size, lo, hi) :=
        (if b <? 194 then (1%nat, 128, 191)
         else if b <=? 223 then (2%nat, 128, 191)
         else if b =? 224 then (3%nat, 160, 191)
         else if b =? 237 then (3%nat, 128, 159)
         else if b <=? 239 then (3%nat, 128, 191)
         else if b =? 240 then (4%nat, 144, 191)
         else if b <=? 243 then (4%nat, 128, 191)
         else if b =? 244 then (4%nat, 128, 143)
         else (1%nat, 128, 191))%N in
      match size, rest with
      | 2%nat, String c1 _ => if between lo hi c1 then 2%nat else 1%nat
      | 3%nat, String c1 (String c2 _) =>
          if between lo hi c1 && between 128 191 c2 then 3%nat else 1%nat
      | 4%nat, String c1 (String c2 (String c3 _)) =>
          if between lo hi c1 && between 128 191 c2 && between 128 191 c3
          then 4%nat else 1%nat
      | _, _ => 1%nat
      end
  end.

(** [explode]: one string per UTF-8 sequence ([more] bytes of the current
    sequence are still to be taken). *)
Fixpoint explode (more : nat) (cur : string) (s : string) : list string :=
  match s with
  | EmptyString => []
  | String c s' =>
      match more with
      | O =>
          match rune_width s with
          | S (S k) => explode (S k) (String c EmptyString) s'
          | _ => String c EmptyString :: explode O EmptyString s'
          end
      | S O => (cur +:+ String c EmptyString) :: explode O EmptyString s'
      | S k => explode k (cur +:+ String c EmptyString) s'
      end
  end.

(** The scan of [Split] for a non-empty separator: [skip] bytes of a
    separator just matched are still to be passed over, [cur] is the piece
    being collected. *)
Fixpoint split_scan (sep : string) (skip : nat) (cur : string) (s : string)
  : list string :=
  match s with
  | EmptyString => [cur]
  | String c s' =>
      match skip with
      | S k => split_scan sep k cur s'
      | O =>
          if HasPrefix s sep
          then cur :: split_scan sep (String.length sep - 1) EmptyString s'
          else split_scan sep O (cur +:+ String c EmptyString) s'
      end
  end.

Definition Split (s sep : string) : list string :=
  match sep with
  | EmptyString => explode O EmptyString s
  | _ => split_scan sep O EmptyString s
  end.

Definition bytes (l : list N) : string :=
  string_of_list_ascii (map ascii_of_N l).

(** The UTF-8 encodings of the runes for which [unicode.IsSpace] holds:
    tab, LF, VT, FF, CR, space, U+0085, U+00A0, U+1680, U+2000..U+200A,
    U+2028, U+2029, U+202F, U+205F, U+3000. *)
Definition space_runes : list string :=
  map bytes
    ([[9]; [10]; [11]; [12]; [13]; [32]; [194; 133]; [194; 160];
      [225; 154; 128]] ++
     map (fun k => [226; 128; k])
       [128; 129; 130; 131; 132; 133; 134; 135; 136; 137; 138; 168; 169; 175] ++
     [[226; 129; 159]; [227; 128; 128]])%N.

Fixpoint strip_one (pats : list string) (s : string) : option string :=
  match pats with
  | [] => None
  | p :: pats' =>
      if HasPrefix s p then Some (drop (String.length p) s)
      else strip_one pats' s
  end.

Fixpoint trim_left (pats : list string) (fuel : nat) (s : string) : string :=
  match fuel with
  | O => s
  | S fuel' =>
      match strip_one pats s with
      | Some s' => trim_left pats fuel' s'
      | None => s
      end
  end.

Definition TrimLeftSpace (s : string) : string :=
  trim_left space_runes (String.length s) s.

Definition TrimRightSpace (s : string) : string :=
  String.rev (trim_left (map String.rev space_runes) (String.length s)
                (String.rev s)).

Definition TrimSpace (s : string) : string :=
  TrimRightSpace (TrimLeftSpace s).

End strings.

(** ** Go's [time] package *)

Module time.

(** A [Duration] is an [int64] count of nanoseconds; a [Time] is read here
    as the nanoseconds elapsed since the zero [Time] (January 1 of year 1),
    so that [time.Time{}] is [0]. *)
Definition Duration := Z.
Definition Time := Z.

Definition Nanosecond : Duration := 1.
Definition Microsecond : Duration := 1000 * Nanosecond.
Definition Millisecond : Duration := 1000 * Microsecond.
Definition Second : Duration := 1000 * Millisecond.
Definition Minute : Duration := 60 * Second.
Definition Hour : Duration := 60 * Minute.

Definition minDuration : Duration := - 2 ^ 63.
Definition maxDuration : Duration := 2 ^ 63 - 1.

Definition zeroTime : Time := 0.

(** [t.Sub(u)]: the difference, saturated to the range of [Duration]. *)
Definition Sub (t u : Time) : Duration :=
  Z.max minDuration (Z.min maxDuration (t - u)).

(** [time.ParseDuration], the part that reads one or more groups of
    decimal digits followed by a unit ([300ms], [1h30m], [-45s]); this is
    the instance at which the parametric statements about [ParseDSN] are
    exercised.  Fractional groups ([1.5h]) are not read by it. *)
Definition unitMap (u : string) : option Z :=
  if String.eqb u "ns" then Some Nanosecond
  else if String.eqb u "us" then Some Microsecond
  else if String.eqb u (strings.bytes [194; 181; 115]%N) then Some Microsecond
  else if String.eqb u (strings.bytes [206; 188; 115]%N) then Some Microsecond
  else if String.eqb u "ms" then Some Millisecond
  else if String.eqb u "s" then Some Second
  else if String.eqb u "m" then Some Minute
  else if String.eqb u "h" then Some Hour
  else None.

Definition is_digit (c : ascii) : bool := strings.between 48 57 c.

(** [leadingInt]: the digits at the head of [s] as a number ([None] past
    [1<<63]), and what follows them. *)
Fixpoint leadingInt (x : Z) (s : string) : option (Z * string) :=
  match s with
  | String c s' =>
      if is_digit c then
        if 2 ^ 63 / 10 <? x then None
        else
          let x' := x * 10 + (Z.of_N (strings.byte c) - 48) in
          if 2 ^ 63 <? x' then None else leadingInt x' s'
      else Some (x, s)
  | EmptyString => Some (x, s)
  end.

Fixpoint unit_len (s : string) : nat :=
  match s with
  | String c s' =>
      if Ascii.eqb c "." || is_digit c then O else S (unit_len s')
  | EmptyString => O
  end.

Fixpoint take (n : nat) (s : string) : string :=
  match n, s with
  | S n', String c s' => String c (take n' s')
  | _, _ => EmptyString
  end.

Fixpoint groups (fuel : nat) (d : Z) (s : string) : option Z :=
  match fuel with
  | O => None
  | S fuel' =>
      match s with
      | EmptyString => Some d
      | String c _ =>
          if negb (is_digit c) then None
          else
            match leadingInt 0 s with
            | None => None
            | Some (v, rest) =>
                let i := unit_len rest in
                match i with
                | O => None
                | _ =>
                    match unitMap (take i rest) with
                    | None => None
                    | Some unit =>
                        if 2 ^ 63 / unit <? v then None
                        else
                          let d' := d + v * unit in
                          if 2 ^ 63 <? d' then None
                          else groups fuel' d' (strings.drop i rest)
                    end
                end
            end
      end
  end.

Definition ParseDuration_whole (s : string) : option Duration :=
  let '(neg, s1) :=
    match s with
    | String c s' =>
        if Ascii.eqb c "-" then (true, s')
        else if Ascii.eqb c "+" then (false, s')
        else (false, s)
    | EmptyString => (false, s)
    end in
  if String.eqb s1 "0" then Some 0
  else if String.eqb s1 "" then None
  else
    match groups (S (String.length s1)) 0 s1 with
    | None => None
    | Some d =>
        if neg then Some (- d)
        else if 2 ^ 63 - 1 <? d then None
        else Some d
    end.

End time.

(** ** Errors

    A Go [error] value: made by [errors.New], by [fmt.Errorf] around a
    wrapped error ([%w]) or around a number ([%d]), or handed over by
    net/http, encoding/json or gorqlite. *)

Inductive error : Type :=
| errors_New (msg : string)
| wrapError (format : string) (cause : error)
| fmt_Errorf_d (format : string) (n : Z)
| foreign (descr : string).

(** [fmt.Errorf(format, err)] with one [%w] verb at the end of [format]
    (given here without the verb).  A nil operand is not an error value:
    the verb prints as [%!w(<nil>)] and nothing is wrapped. *)
Definition fmt_Errorf_w (format : string) (err : option error) : error :=
  match err with
  | Some e => wrapError format e
  | None => errors_New (format +:+ "%!w(<nil>)")
  end.

(** [errors.Unwrap] *)
Definition Unwrap (e : error) : option error :=
  match e with
  | wrapError _ cause => Some cause
  | _ => None
  end.

(** ** driver.go *)

Record Config : Type := mkConfig {
  Nodes : list string;
  Username : string;
  Password : string;
  Timeout : time.Duration;
  ConsistencyLevel : string
}.

Section ParseDSN.

(** [time.ParseDuration] of the Go standard library. *)
Variable ParseDuration : string -> option time.Duration.

(** The body of the loop over [strings.Split(params, "&")]. *)
Definition parseParam (cfg : Config) (param : string) : Config :=
  match strings.Split param "=" with
  | [key; value] =>
      if String.eqb key "consistency" then
        mkConfig (Nodes cfg) (Username cfg) (Password cfg) (Timeout cfg) value
      else if String.eqb key "timeout" then
        match ParseDuration value with
        | Some timeout =>
            mkConfig (Nodes cfg) (Username cfg) (Password cfg) timeout
                     (ConsistencyLevel cfg)
        | None => cfg
        end
      else cfg
  | _ => cfg
  end.

Definition parseParams (cfg : Config) (params : list string) : Config :=
  fold_left parseParam params cfg.

(** The body of the loop over [strings.Split(dsn, ",")]. *)
Definition parseNode (nodes : list string) (node : string) : list string :=
  let node := strings.TrimSpace node in
  if negb (String.eqb node "") then
    let node :=
      if negb (strings.HasPrefix node "http://") &&
         negb (strings.HasPrefix node "https://")
      then ("http://" +:+ node)%string else node in
    nodes ++ [node]
  else nodes.

(** The last section of [ParseDSN]: the nodes, from what is left of the
    connection string. *)
Definition nodes_section (cfg : Config) (dsn : string) : error + Config :=
  if String.eqb dsn "" then inl (errors_New "no nodes specified")
  else
    let nodes := fold_left parseNode (strings.Split dsn ",") (Nodes cfg) in
    if (List.length nodes =? 0)%nat
    then inl (errors_New "no valid nodes found")
    else inr (mkConfig nodes (Username cfg) (Password cfg)
                (Timeout cfg) (ConsistencyLevel cfg)).

Definition ParseDSN (dsn : string) : error + Config :=
  let cfg := mkConfig [] "" "" (30 * time.Second) "weak" in
  if String.eqb dsn "" then inl (errors_New "dsn cannot be empty")
  else
    let dsn := strings.TrimPrefix dsn "sqlite://" in
    let dsn := strings.TrimPrefix dsn "rqlite://" in
    (* authentication *)
    let auth : error + (Config * string) :=
      if strings.Contains dsn "@" then
        match strings.Split dsn "@" with
        | [authPart; dsn'] =>
            if strings.Contains authPart ":" then
              let authParts := strings.Split authPart ":" in
              inr (mkConfig (Nodes cfg) (nth 0 authParts "")
                     (nth 1 authParts "") (Timeout cfg)
                     (ConsistencyLevel cfg), dsn')
            else
              inr (mkConfig (Nodes cfg) authPart (Password cfg)
                     (Timeout cfg) (ConsistencyLevel cfg), dsn')
        | _ => inl (errors_New "invalid dsn format")
        end
      else inr (cfg, dsn) in
    match auth with
    | inl e => inl e
    | inr (cfg, dsn) =>
        (* parameters *)
        let params : error + (Config * string) :=
          if strings.Contains dsn "?" then
            match strings.Split dsn "?" with
            | [dsn'; params] =>
                inr (parseParams cfg (strings.Split params "&"), dsn')
            | _ => inl (errors_New "invalid dsn format")
            end
          else inr (cfg, dsn) in
        match params with
        | inl e => inl e
        | inr (cfg, dsn) => nodes_section cfg dsn
        end
    end.

End ParseDSN.

(** ** Interface values

    A Go [interface{}] value with its dynamic type.  Integers carry their
    mathematical value ([int] and [uint] are 64 bits wide); a [float32] or
    [float64] carries its IEEE 754 bit pattern.  [VOther] stands for a value of
    any further type, seen through [reflect]: the name of its type and, by
    kind, what [reflect.Value] reads from it (the float kinds are left out of
    [reflected]: Go leaves the conversion of a float that does not fit to a
    rune to the implementation). *)

Inductive reflected : Type :=
| KString (s : string)
| KInt (n : Z)
| KUint (n : Z)
| KBool (b : bool)
| KOther.

Inductive GoValue : Type :=
| VNil
| VBool (b : bool)
| VInt (n : Z)
| VInt8 (n : Z)
| VInt16 (n : Z)
| VInt32 (n : Z)
| VInt64 (n : Z)
| VUint (n : Z)
| VUint8 (n : Z)
| VUint16 (n : Z)
| VUint32 (n : Z)
| VUint64 (n : Z)
| VFloat32 (bits : Z)
| VFloat64 (bits : Z)
| VString (s : string)
| VBytes (b : string)
| VTime (t : time.Time)
| VOther (type_name : string) (v : reflected).

(** The value range of each integer type. *)
Definition in_range (v : GoValue) : bool :=
  match v with
  | VInt n | VInt64 n => (- 2 ^ 63 <=? n) && (n <? 2 ^ 63)
  | VInt8 n => (- 2 ^ 7 <=? n) && (n <? 2 ^ 7)
  | VInt16 n => (- 2 ^ 15 <=? n) && (n <? 2 ^ 15)
  | VInt32 n => (- 2 ^ 31 <=? n) && (n <? 2 ^ 31)
  | VUint n | VUint64 n => (0 <=? n) && (n <? 2 ^ 64)
  | VUint8 n => (0 <=? n) && (n <? 2 ^ 8)
  | VUint16 n => (0 <=? n) && (n <? 2 ^ 16)
  | VUint32 n => (0 <=? n) && (n <? 2 ^ 32)
  | VFloat32 b => (0 <=? b) && (b <? 2 ^ 32)
  | VFloat64 b => (0 <=? b) && (b <? 2 ^ 64)
  | _ => true
  end.

(** The conversion [int64(v)] of an integer [v]: the low 64 bits, read as a
    two's complement number. *)
Definition int64 (n : Z) : Z := (n + 2 ^ 63) mod 2 ^ 64 - 2 ^ 63.

(** The conversion [rune(v)], that is [int32(v)]. *)
Definition int32 (n : Z) : Z := (n + 2 ^ 31) mod 2 ^ 32 - 2 ^ 31.

(** The conversion [float64(v)] of a [float32], on bit patterns.  It is
    exact: a subnormal [float32] becomes a normal [float64], a NaN keeps its
    payload and is quiet. *)
Definition float64_of_float32 (bits : Z) : Z :=
  let sign := Z.shiftl (Z.land (Z.shiftr bits 31) 1) 63 in
  let e := Z.land (Z.shiftr bits 23) 255 in
  let m := Z.land bits (2 ^ 23 - 1) in
  if e =? 255 then
    Z.lor sign
      (Z.lor (Z.shiftl 2047 52)
         (if m =? 0 then 0 else Z.lor (Z.shiftl m 29) (2 ^ 51)))
  else if e =? 0 then
    if m =? 0 then sign
    else
      let k := Z.log2 m in
      Z.lor sign
        (Z.lor (Z.shiftl (k - 149 + 1023) 52) (Z.shiftl (m - 2 ^ k) (52 - k)))
  else Z.lor sign (Z.lor (Z.shiftl (e - 127 + 1023) 52) (Z.shiftl m 29)).

(** [string(r)] for a rune [r]: its UTF-8 encoding, that of U+FFFD when [r]
    is not a valid code point. *)
Definition string_of_rune (r : Z) : string :=
  let b (z : Z) := Z.to_N z in
  if (0 <=? r) && (r <? 128) then strings.bytes [b r]
  else if (128 <=? r) && (r <? 2048) then
    strings.bytes [b (Z.lor 192 (Z.shiftr r 6)); b (Z.lor 128 (Z.land r 63))]
  else if ((2048 <=? r) && (r <? 55296)) || ((57344 <=? r) && (r <? 65536)) then
    strings.bytes [b (Z.lor 224 (Z.shiftr r 12));
                   b (Z.lor 128 (Z.land (Z.shiftr r 6) 63));
                   b (Z.lor 128 (Z.land r 63))]
  else if (65536 <=? r) && (r <=? 1114111) then
    strings.bytes [b (Z.lor 240 (Z.shiftr r 18));
                   b (Z.lor 128 (Z.land (Z.shiftr r 12) 63));
                   b (Z.lor 128 (Z.land (Z.shiftr r 6) 63));
                   b (Z.lor 128 (Z.land r 63))]
  else strings.bytes [239; 191; 189]%N.

(** ** result.go *)

(** [convertToString], on the values that reach it: those of a type outside
    the switch of [convertValue], by their [reflect.Kind]. *)
Definition convertToString (type_name : string) (v : reflected) : string :=
  match v with
  | KString s => s
  | KInt n => string_of_rune (int32 n)
  | KUint n => string_of_rune (int32 n)
  | KBool b => if b then "true" else "false"
  | KOther => "<" +:+ type_name +:+ " Value>"
  end.

(** [convertValue] *)
Definition convertValue (val : GoValue) : GoValue :=
  match val with
  | VNil => VNil
  | VBool v => VBool v
  | VInt v => VInt64 (int64 v)
  | VInt8 v => VInt64 (int64 v)
  | VInt16 v => VInt64 (int64 v)
  | VInt32 v => VInt64 (int64 v)
  | VInt64 v => VInt64 v
  | VUint v => VInt64 (int64 v)
  | VUint8 v => VInt64 (int64 v)
  | VUint16 v => VInt64 (int64 v)
  | VUint32 v => VInt64 (int64 v)
  | VUint64 v => VInt64 (int64 v)
  | VFloat32 v => VFloat64 (float64_of_float32 v)
  | VFloat64 v => VFloat64 v
  | VString v => VString v
  | VBytes v => VBytes v
  | VTime v => VTime v
  | VOther t v => VString (convertToString t v)
  end.

(** The dynamic types a [driver.Value] may have (database/sql/driver). *)
Definition is_driver_Value (v : GoValue) : bool :=
  match v with
  | VNil | VBool _ | VInt64 _ | VFloat64 _ | VString _ | VBytes _ | VTime _ =>
      true
  | _ => false
  end.

Section Rows.

(** [gorqlite.QueryResult] with its cursor: [Next] advances it, [Scan]
    is handed the slice [values] and leaves it as it returns it. *)
Variable QueryResult : Type.
Variable qr_Next : QueryResult -> bool * QueryResult.
Variable qr_Scan : QueryResult -> list GoValue -> error + list GoValue.

Record Rows : Type := mkRows {
  result : option QueryResult;
  closed : bool
}.

Definition io_EOF : error := errors_New "EOF".

(** [Rows.Next]: the error returned (if any), the cursor and [dest]
    afterwards. *)
Definition Rows_Next (r : Rows) (dest : list GoValue)
  : option error * Rows * list GoValue :=
  match result r with
  | None => (Some io_EOF, r, dest)
  | Some qr =>
      if closed r then (Some io_EOF, r, dest)
      else
        let '(more, qr') := qr_Next qr in
        let r' := mkRows (Some qr') (closed r) in
        if negb more then (Some io_EOF, r', dest)
        else
          let values := replicate (length dest) VNil in
          match qr_Scan qr' values with
          | inl err => (Some err, r', dest)
          | inr values' =>
              let values' := resize (length dest) VNil values' in
              (None, r', map convertValue values')
          end
  end.

Definition Rows_Close (r : Rows) : option error * Rows :=
  (None, mkRows (result r) true).

End Rows.

(** ** The environment *)

(** A decoded JSON document, as encoding/json stores it in an
    [interface{}]; an object is the list of its members. *)
#[warnings="-register-all"]
Inductive json : Type :=
| JNull
| JBool (b : bool)
| JNumber (literal : string)
| JString (s : string)
| JArray (items : list json)
| JObject (members : list (string * json)).

(** [m[key]] on a decoded object. *)
Fixpoint member (key : string) (m : list (string * json)) : option json :=
  match m with
  | [] => None
  | (k, v) :: m' => if String.eqb k key then Some v else member key m'
  end.

(** An HTTP response: the status code, and what decoding the body into a
    [map[string]interface{}] gives. *)
Record http_Response : Type := mkResponse {
  StatusCode : Z;
  Body : error + list (string * json)
}.

Record http_Client : Type := mkClient { client_Timeout : time.Duration }.

Inductive Context : Type :=
| context_Background
| context_WithTimeout (timeout : time.Duration).

(** gorqlite *)
Inductive consistencyLevel : Type :=
| ConsistencyLevelNone
| ConsistencyLevelWeak
| ConsistencyLevelStrong.

Record Connection : Type := mkConnection {
  conn_url : string;
  conn_level : consistencyLevel
}.

Definition SetConsistencyLevel (c : Connection) (l : consistencyLevel)
  : Connection :=
  mkConnection (conn_url c) l.

Record ParameterizedStatement : Type := mkStatement {
  Query : string;
  Arguments : list GoValue
}.

Record WriteResult : Type := mkWriteResult {
  LastInsertID : Z;
  RowsAffected : Z
}.

(** The remote calls the driver makes. *)
Inductive event : Type :=
| StatusRequest (url : string)
| Open (node : string)
| Select1 (c : Connection)
| WriteOne (c : Connection) (stmt : ParameterizedStatement)
| QueryOne (c : Connection) (stmt : ParameterizedStatement)
| CloseConnection (c : Connection).

(** What answers those calls.  [W] is the state of everything outside the
    driver (the cluster, the network, the clock); [QR] is
    [gorqlite.QueryResult].  [http_Do] is the whole exchange of one GET
    request: building it, sending it, decoding the body and closing it.
    [map_range] is the order in which a [for ... range] statement visits the
    keys of a map, which Go leaves open. *)
Class Remote (W QR : Type) : Type := {
  time_Now : W -> time.Time * W;
  http_Do : http_Client -> Context -> string -> W
            -> (error + http_Response) * W;
  gorqlite_Open : string -> W -> (error + Connection) * W;
  QueryOneContext : Connection -> Context -> string -> W -> option error * W;
  WriteOneParameterized : Connection -> ParameterizedStatement -> W
                          -> (error + WriteResult) * W;
  QueryOneParameterized : Connection -> ParameterizedStatement -> W
                          -> (error + QR) * W;
  Connection_Close : Connection -> W -> W;
  map_range : gset string -> W -> list string * W;
  map_range_perm : forall keys w, (map_range keys w).1 ≡ₚ elements keys
}.

(** ** sync.RWMutex

    Within one goroutine: [Lock] on a mutex that is held, and [RLock] on one
    that is held for writing, block, and nothing releases the mutex any more;
    unlocking a mutex that is not held is a fatal error. *)

Record RWMutex : Type := mkRWMutex { writer : bool; readers : nat }.

Definition unlocked : RWMutex := mkRWMutex false 0.

Inductive halt : Type :=
| Blocked
| Fatal (msg : string)
| Panic (msg : string).

Definition RWMutex_Lock (m : RWMutex) : halt + RWMutex :=
  if writer m || negb (readers m =? 0)%nat then inl Blocked
  else inr (mkRWMutex true (readers m)).

Definition RWMutex_Unlock (m : RWMutex) : halt + RWMutex :=
  if writer m then inr (mkRWMutex false (readers m))
  else inl (Fatal "sync: Unlock of unlocked RWMutex").

Definition RWMutex_RLock (m : RWMutex) : halt + RWMutex :=
  if writer m then inl Blocked
  else inr (mkRWMutex false (S (readers m))).

Definition RWMutex_RUnlock (m : RWMutex) : halt + RWMutex :=
  match readers m with
  | O => inl (Fatal "sync: RUnlock of unlocked RWMutex")
  | S n => inr (mkRWMutex (writer m) n)
  end.

(** ** Computations

    A method of an object of type [X] runs on the object, the environment
    and the log; it returns ([Done]) or it never does ([Stuck]). *)

Record Sys (W X : Type) : Type := mkSys {
  this : X;
  world : W;
  log : list event
}.
Arguments mkSys {W X}.
Arguments this {W X}.
Arguments world {W X}.
Arguments log {W X}.

Inductive outcome (S A : Type) : Type :=
| Done (a : A) (s : S)
| Stuck (h : halt) (s : S).
Arguments Done {S A}.
Arguments Stuck {S A}.

Definition M (W X A : Type) : Type := Sys W X -> outcome (Sys W X) A.

Definition ret {W X A} (a : A) : M W X A := fun s => Done a s.

Definition bind {W X A B} (m : M W X A) (k : A -> M W X B) : M W X B :=
  fun s =>
    match m s with
    | Done a s' => k a s'
    | Stuck h s' => Stuck h s'
    end.

Declare Scope go_scope.
Delimit Scope go_scope with go.
Notation "x <- m ;; k" := (bind m (fun x => k))
  (at level 100, m at next level, right associativity) : go_scope.
Notation "m ;;; k" := (bind m (fun _ => k))
  (at level 100, right associativity) : go_scope.

Definition get {W X} : M W X X := fun s => Done (this s) s.

Definition modify {W X} (f : X -> X) : M W X unit :=
  fun s => Done tt (mkSys (f (this s)) (world s) (log s)).

(** A call into the environment, entered in the log. *)
Definition call {W X A} (ev : event) (f : W -> A * W) : M W X A :=
  fun s =>
    let '(a, w) := f (world s) in
    Done a (mkSys (this s) w (log s ++ [ev])).

(** A step of the environment that is no remote call (the clock, the order
    of a map). *)
Definition ask {W X A} (f : W -> A * W) : M W X A :=
  fun s => let '(a, w) := f (world s) in Done a (mkSys (this s) w (log s)).

Definition halt_with {W X A} (h : halt) : M W X A := fun s => Stuck h s.

(** An operation on a mutex field of the object. *)
Definition on_mutex {W X} (proj : X -> RWMutex) (upd : RWMutex -> X -> X)
    (op : RWMutex -> halt + RWMutex) : M W X unit :=
  fun s =>
    match op (proj (this s)) with
    | inl h => Stuck h s
    | inr m => Done tt (mkSys (upd m (this s)) (world s) (log s))
    end.

(** A method of a field, run on the object that holds it. *)
Definition on_field {W X Y A} (proj : X -> Y) (upd : Y -> X -> X)
    (m : M W Y A) : M W X A :=
  fun s =>
    match m (mkSys (proj (this s)) (world s) (log s)) with
    | Done a s' => Done a (mkSys (upd (this s') (this s)) (world s') (log s'))
    | Stuck h s' => Stuck h (mkSys (upd (this s') (this s)) (world s') (log s'))
    end.

(** What is left of a computation, whichever way it ended. *)
Definition final {S A} (o : outcome S A) : S :=
  match o with
  | Done _ s => s
  | Stuck _ s => s
  end.

(** ** leader.go *)

Module ClusterManager.
Record t : Type := mk {
  nodes : list string;
  leader : string;
  peers : list string;
  mu : RWMutex;
  lastUpdate : time.Time;
  updateInterval : time.Duration;
  client : http_Client
}.

Definition set_mu (m : RWMutex) (cm : t) : t :=
  mk (nodes cm) (leader cm) (peers cm) m (lastUpdate cm) (updateInterval cm)
     (client cm).

Definition set_lastUpdate (u : time.Time) (cm : t) : t :=
  mk (nodes cm) (leader cm) (peers cm) (mu cm) u (updateInterval cm)
     (client cm).

(** The three assignments at the end of a successful probe. *)
Definition set_view (l : string) (p : list string) (u : time.Time) (cm : t)
  : t :=
  mk (nodes cm) l p (mu cm) u (updateInterval cm) (client cm).
End ClusterManager.

(** [NewClusterManager] *)
Definition NewClusterManager (nodes : list string) : ClusterManager.t :=
  ClusterManager.mk nodes "" [] unlocked time.zeroTime (30 * time.Second)
    (mkClient (10 * time.Second)).

(** The strings among the items of a decoded array. *)
Fixpoint string_items (items : list json) : list string :=
  match items with
  | [] => []
  | JString s :: items' => s :: string_items items'
  | _ :: items' => string_items items'
  end.

(** What [queryNodeStatus] makes of the answer to its request. *)
Definition read_status (answer : error + http_Response)
  : error + (string * list string) :=
  match answer with
  | inl err => inl err
  | inr resp =>
      if negb (StatusCode resp =? 200) then
        inl (fmt_Errorf_d "status request failed: " (StatusCode resp))
      else
        match Body resp with
        | inl err => inl err
        | inr status =>
            match member "cluster" status with
            | Some (JObject cluster) =>
                let leader :=
                  match member "leader" cluster with
                  | Some (JString l) => l
                  | _ => ""
                  end in
                if String.eqb leader "" then inl (errors_New "no leader found")
                else
                  let peers :=
                    match member "peers" cluster with
                    | Some (JArray peerList) => string_items peerList
                    | _ => []
                    end in
                  inr (leader, peers)
            | _ => inl (errors_New "invalid cluster info in status")
            end
        end
  end.

Section Leader.

Context {W QR : Type} {R : Remote W QR}.

Local Open Scope go_scope.

Definition CM : Type -> Type := M W ClusterManager.t.

Definition cm_mu (op : RWMutex -> halt + RWMutex) : CM unit :=
  on_mutex ClusterManager.mu ClusterManager.set_mu op.

(** [queryNodeStatus] *)
Definition queryNodeStatus (ctx : Context) (node : string)
  : CM (error + (string * list string)) :=
  let statusURL := (node +:+ "/status")%string in
  cm <- get ;;
  answer <- call (StatusRequest statusURL)
              (http_Do (ClusterManager.client cm) ctx statusURL) ;;
  ret (read_status answer).

(** The loop of [DiscoverLeader] over [cm.nodes]. *)
Fixpoint discover (ctx : Context) (nodes : list string)
    (lastErr : option error) : CM (option error) :=
  match nodes with
  | [] =>
      ret (Some (fmt_Errorf_w "failed to discover leader from any node: "
                   lastErr))
  | node :: nodes' =>
      r <- queryNodeStatus ctx node ;;
      match r with
      | inl err => discover ctx nodes' (Some err)
      | inr (leader, peers) =>
          now <- ask time_Now ;;
          modify (ClusterManager.set_view leader peers now) ;;;
          ret None
      end
  end.

(** [DiscoverLeader]; the deferred [Unlock] runs at each return. *)
Definition DiscoverLeader (ctx : Context) : CM (option error) :=
  cm_mu RWMutex_Lock ;;;
  now <- ask time_Now ;;
  cm <- get ;;
  r <- (if time.Sub now (ClusterManager.lastUpdate cm)
           <? ClusterManager.updateInterval cm
        then ret None
        else discover ctx (ClusterManager.nodes cm) None) ;;
  cm_mu RWMutex_Unlock ;;;
  ret r.

(** [GetLeader] *)
Definition GetLeader : CM string :=
  cm_mu RWMutex_RLock ;;;
  cm <- get ;;
  cm_mu RWMutex_RUnlock ;;;
  ret (ClusterManager.leader cm).

(** [GetPeers] *)
Definition GetPeers : CM (list string) :=
  cm_mu RWMutex_RLock ;;;
  cm <- get ;;
  cm_mu RWMutex_RUnlock ;;;
  ret (ClusterManager.peers cm).

(** The map that [GetAllNodes] fills; its keys are a set of addresses. *)
Definition known_nodes (cm : ClusterManager.t) : gset string :=
  let nodes : gset string :=
    if negb (String.eqb (ClusterManager.leader cm) "")
    then {[ ClusterManager.leader cm ]} else ∅ in
  fold_left (fun nodes peer => {[ peer ]} ∪ nodes) (ClusterManager.peers cm)
    nodes.

(** [GetAllNodes] *)
Definition GetAllNodes : CM (list string) :=
  cm_mu RWMutex_RLock ;;;
  cm <- get ;;
  result <- ask (map_range (known_nodes cm)) ;;
  cm_mu RWMutex_RUnlock ;;;
  ret result.

(** [SelectBestNode] *)
Definition SelectBestNode (consistencyLevel : string) : CM string :=
  cm_mu RWMutex_RLock ;;;
  cm <- get ;;
  let r :=
    if String.eqb consistencyLevel "strong" &&
       negb (String.eqb (ClusterManager.leader cm) "")
    then ClusterManager.leader cm
    else if negb (String.eqb (ClusterManager.leader cm) "")
    then ClusterManager.leader cm
    else
      match ClusterManager.peers cm with
      | peer :: _ => peer
      | [] =>
          match ClusterManager.nodes cm with
          | node :: _ => node
          | [] => ""
          end
      end in
  cm_mu RWMutex_RUnlock ;;;
  ret r.

(** [ForceRefresh] *)
Definition ForceRefresh (ctx : Context) : CM (option error) :=
  cm_mu RWMutex_Lock ;;;
  modify (ClusterManager.set_lastUpdate time.zeroTime) ;;;
  cm_mu RWMutex_Unlock ;;;
  DiscoverLeader ctx.

End Leader.

(** ** connection.go *)

Module Conn.
Record t : Type := mk {
  cfg : Config;
  client : option Connection;
  mu : RWMutex;
  closed : bool;
  clusterManager : ClusterManager.t
}.

Definition set_mu (m : RWMutex) (c : t) : t :=
  mk (cfg c) (client c) m (closed c) (clusterManager c).

Definition set_client (cl : option Connection) (c : t) : t :=
  mk (cfg c) cl (mu c) (closed c) (clusterManager c).

Definition set_closed (b : bool) (c : t) : t :=
  mk (cfg c) (client c) (mu c) b (clusterManager c).

Definition set_clusterManager (cm : ClusterManager.t) (c : t) : t :=
  mk (cfg c) (client c) (mu c) (closed c) cm.
End Conn.

(** [driver.NamedValue] *)
Record NamedValue : Type := mkNamedValue {
  Name : string;
  Ordinal : Z;
  Value : GoValue
}.

(** [Result] of result.go *)
Record Result : Type := mkResult {
  lastInsertID : Z;
  rowsAffected : Z
}.

Section Connection.

Context {W QR : Type} {R : Remote W QR}.

Local Open Scope go_scope.

Definition C : Type -> Type := M W Conn.t.

Definition c_mu (op : RWMutex -> halt + RWMutex) : C unit :=
  on_mutex Conn.mu Conn.set_mu op.

(** A method of [c.clusterManager]. *)
Definition manager {A} (m : CM A) : C A :=
  on_field Conn.clusterManager Conn.set_clusterManager m.

(** [createClient] *)
Definition createClient (node : string) : C (error + Connection) :=
  opened <- call (Open node) (gorqlite_Open node) ;;
  match opened with
  | inl err => ret (inl err)
  | inr client =>
      c <- get ;;
      let level := ConsistencyLevel (Conn.cfg c) in
      let client :=
        if String.eqb level "strong"
        then SetConsistencyLevel client ConsistencyLevelStrong
        else if String.eqb level "weak"
        then SetConsistencyLevel client ConsistencyLevelWeak
        else if String.eqb level "none"
        then SetConsistencyLevel client ConsistencyLevelNone
        else client in
      let ctx := context_WithTimeout (Timeout (Conn.cfg c)) in
      err <- call (Select1 client) (QueryOneContext client ctx "SELECT 1") ;;
      match err with
      | Some err =>
          call (CloseConnection client)
            (fun w => (tt, Connection_Close client w)) ;;;
          ret (inl err)
      | None => ret (inr client)
      end
  end.

(** The loop of [connectToAnyNode] over [nodes]. *)
Fixpoint connectToAny (nodes : list string) (lastErr : option error)
  : C (option error) :=
  match nodes with
  | [] =>
      match lastErr with
      | Some e => ret (Some (fmt_Errorf_w "failed to connect to any node: "
                               (Some e)))
      | None => ret (Some (errors_New "no nodes available"))
      end
  | node :: nodes' =>
      r <- createClient node ;;
      match r with
      | inl err => connectToAny nodes' (Some err)
      | inr client => modify (Conn.set_client (Some client)) ;;; ret None
      end
  end.

(** [connectToAnyNode] *)
Definition connectToAnyNode : C (option error) :=
  nodes <- manager GetAllNodes ;;
  c <- get ;;
  let nodes :=
    if (length nodes =? 0)%nat then Nodes (Conn.cfg c) else nodes in
  connectToAny nodes None.

(** [connect]; the deferred [Unlock] runs at each return. *)
Definition connect : C (option error) :=
  c_mu RWMutex_Lock ;;;
  c <- get ;;
  r <- (if Conn.closed c then ret (Some (errors_New "connection is closed"))
        else
          let ctx := context_Background in
          err <- manager (DiscoverLeader ctx) ;;
          match err with
          | Some _ => connectToAnyNode
          | None =>
              leader <- manager
                          (SelectBestNode (ConsistencyLevel (Conn.cfg c))) ;;
              if negb (String.eqb leader "") then
                r <- createClient leader ;;
                match r with
                | inr client =>
                    modify (Conn.set_client (Some client)) ;;; ret None
                | inl _ => connectToAnyNode
                end
              else connectToAnyNode
          end) ;;
  c_mu RWMutex_Unlock ;;;
  ret r.

(** [reconnect] *)
Definition reconnect : C (option error) :=
  c <- get ;;
  match Conn.client c with
  | Some client =>
      call (CloseConnection client)
        (fun w => (tt, Connection_Close client w)) ;;;
      modify (Conn.set_client None)
  | None => ret tt
  end ;;;
  connect.

(** [NewConn]: the new object, and the [connect] it starts with. *)
Definition new_Conn (cfg : Config) : Conn.t :=
  Conn.mk cfg None unlocked false (NewClusterManager (Nodes cfg)).

Definition NewConn (cfg : Config) (w : W) (l : list event)
  : outcome (Sys W Conn.t) (option error) :=
  connect (mkSys (new_Conn cfg) w l).

(** The retry loop shared, word for word, by [ExecContext] and
    [QueryContext]: [attempt] is the remote call on the current client,
    [rc] the method called between two attempts, [fuel] the
    iterations left of [for attempts := 0; attempts < 3; attempts++]. *)
Fixpoint retry {A} (rc : C (option error))
    (attempt : Connection -> C (error + A))
    (fuel : nat) (attempts : Z) (client : option Connection)
  : C (error + A) :=
  match fuel with
  | O => ret (inl (errors_New "max retry attempts exceeded"))
  | S fuel' =>
      match client with
      | None => halt_with (Panic "nil pointer dereference")
      | Some cl =>
          r <- attempt cl ;;
          match r with
          | inl err =>
              if attempts <? 2 then
                c_mu RWMutex_Lock ;;;
                reconnectErr <- rc ;;
                c <- get ;;
                c_mu RWMutex_Unlock ;;;
                match reconnectErr with
                | Some e => ret (inl e)
                | None =>
                    retry rc attempt fuel' (attempts + 1)
                      (Conn.client c)
                end
              else ret (inl err)
          | inr result => ret (inr result)
          end
      end
  end.

(** The common frame of both methods: read [c.client] under the read lock,
    fail without one, build the statement, enter the loop. *)
Definition with_client {A} (rc : C (option error))
    (attempt : ParameterizedStatement -> Connection -> C (error + A))
    (query : string) (args : list NamedValue) : C (error + A) :=
  c_mu RWMutex_RLock ;;;
  c <- get ;;
  c_mu RWMutex_RUnlock ;;;
  match Conn.client c with
  | None => ret (inl (errors_New "connection is closed"))
  | Some _ =>
      let values := map Value args in
      retry rc (attempt (mkStatement query values)) 3 0
        (Conn.client c)
  end.

Definition write_attempt (stmt : ParameterizedStatement) (cl : Connection)
  : C (error + Result) :=
  r <- call (WriteOne cl stmt) (WriteOneParameterized cl stmt) ;;
  match r with
  | inl err => ret (inl err)
  | inr wr => ret (inr (mkResult (LastInsertID wr) (RowsAffected wr)))
  end.

Definition query_attempt (stmt : ParameterizedStatement) (cl : Connection)
  : C (error + Rows QR) :=
  r <- call (QueryOne cl stmt) (QueryOneParameterized cl stmt) ;;
  match r with
  | inl err => ret (inl err)
  | inr qr => ret (inr (mkRows QR (Some qr) false))
  end.

(** [ExecContext] and [QueryContext], for the method [rc] that
    [c.reconnect()] names. *)
Definition ExecContext_with (rc : C (option error)) (ctx : Context)
    (query : string) (args : list NamedValue) : C (error + Result) :=
  with_client rc write_attempt query args.

Definition QueryContext_with (rc : C (option error)) (ctx : Context)
    (query : string) (args : list NamedValue) : C (error + Rows QR) :=
  with_client rc query_attempt query args.

(** [ExecContext] *)
Definition ExecContext : Context -> string -> list NamedValue
                         -> C (error + Result) :=
  ExecContext_with reconnect.

(** [QueryContext] *)
Definition QueryContext : Context -> string -> list NamedValue
                          -> C (error + Rows QR) :=
  QueryContext_with reconnect.

End Connection.

(** ** connection.go: the rest of the surface; statement.go; driver.go *)

Module Stmt.
Record t : Type := mk { query : string }.
End Stmt.

(** [convertToNamedValues]: the values from index [i] on. *)
Fixpoint named_from (i : Z) (values : list GoValue) : list NamedValue :=
  match values with
  | [] => []
  | v :: values' => mkNamedValue EmptyString (i + 1) v :: named_from (i + 1) values'
  end.

(** [convertToNamedValues] *)
Definition convertToNamedValues (values : list GoValue) : list NamedValue :=
  named_from 0 values.

(** [Result.LastInsertId] and [Result.RowsAffected] *)
Definition Result_LastInsertId (r : Result) : Z * option error :=
  (lastInsertID r, None).

Definition Result_RowsAffected (r : Result) : Z * option error :=
  (rowsAffected r, None).

(** [Tx] of connection.go *)
Inductive Tx : Type := mkTx.

(** The level that [createClient] sets for a configured level. *)
Definition gorqlite_level (level : string) : option consistencyLevel :=
  if String.eqb level "strong" then Some ConsistencyLevelStrong
  else if String.eqb level "weak" then Some ConsistencyLevelWeak
  else if String.eqb level "none" then Some ConsistencyLevelNone
  else None.

Section Surface.

Context {W QR : Type} {R : Remote W QR}.

Local Open Scope go_scope.

(** [IsLeaderHealthy]; the deferred [Close] runs at both returns that
    follow the opening. *)
Definition IsLeaderHealthy (ctx : Context) : M W ClusterManager.t bool :=
  leader <- GetLeader ;;
  if String.eqb leader "" then ret false
  else
    opened <- call (Open leader) (gorqlite_Open leader) ;;
    match opened with
    | inl _ => ret false
    | inr client =>
        err <- call (Select1 client) (QueryOneContext client ctx "SELECT 1") ;;
        call (CloseConnection client)
          (fun w => (tt, Connection_Close client w)) ;;;
        ret (match err with None => true | Some _ => false end)
    end.

(** [PrepareContext] and [Prepare] *)
Definition PrepareContext (ctx : Context) (query : string)
  : M W Conn.t (error + Stmt.t) :=
  c_mu RWMutex_RLock ;;;
  c <- get ;;
  c_mu RWMutex_RUnlock ;;;
  if Conn.closed c then ret (inl (errors_New "connection is closed"))
  else ret (inr (Stmt.mk query)).

Definition Prepare (query : string) : M W Conn.t (error + Stmt.t) :=
  PrepareContext context_Background query.

(** [Close] *)
Definition Close : M W Conn.t (option error) :=
  c_mu RWMutex_Lock ;;;
  c <- get ;;
  (if Conn.closed c then ret tt
   else
     modify (Conn.set_closed true) ;;;
     match Conn.client c with
     | Some client =>
         call (CloseConnection client)
           (fun w => (tt, Connection_Close client w)) ;;;
         modify (Conn.set_client None)
     | None => ret tt
     end) ;;;
  c_mu RWMutex_Unlock ;;;
  ret None.

(** [Ping] *)
Definition Ping (ctx : Context) : M W Conn.t (option error) :=
  c_mu RWMutex_RLock ;;;
  c <- get ;;
  c_mu RWMutex_RUnlock ;;;
  match Conn.client c with
  | None => ret (Some (errors_New "connection is closed"))
  | Some client =>
      err <- call (Select1 client) (QueryOneContext client ctx "SELECT 1") ;;
      match err with
      | Some _ =>
          c_mu RWMutex_Lock ;;;
          reconnectErr <- reconnect ;;
          c_mu RWMutex_Unlock ;;;
          ret reconnectErr
      | None => ret None
      end
  end.

(** The methods of [Stmt], on the connection the statement was prepared
    on. *)
Definition Stmt_Close (s : Stmt.t) : option error := None.

Definition Stmt_NumInput (s : Stmt.t) : Z := -1.

Definition Stmt_ExecContext (s : Stmt.t) (ctx : Context)
    (args : list NamedValue) : M W Conn.t (error + Result) :=
  ExecContext ctx (Stmt.query s) args.

Definition Stmt_Exec (s : Stmt.t) (args : list GoValue) : M W Conn.t (error + Result) :=
  Stmt_ExecContext s context_Background (convertToNamedValues args).

Definition Stmt_QueryContext (s : Stmt.t) (ctx : Context)
    (args : list NamedValue) : M W Conn.t (error + Rows QR) :=
  QueryContext ctx (Stmt.query s) args.

Definition Stmt_Query (s : Stmt.t) (args : list GoValue)
  : M W Conn.t (error + Rows QR) :=
  Stmt_QueryContext s context_Background (convertToNamedValues args).

(** [BeginTx] and [Begin]; a [Tx] holds the connection it was begun
    on. *)
Definition BeginTx (ctx : Context) : M W Conn.t (error + Tx) :=
  ret (inr mkTx).

Definition Begin : M W Conn.t (error + Tx) := BeginTx context_Background.

(** [Tx.Commit] and [Tx.Rollback] *)
Definition Tx_Commit (tx : Tx) : M W Conn.t (option error) := ret None.

Definition Tx_Rollback (tx : Tx) : M W Conn.t (option error) := ret None.

(** [Open] of driver.go, with [NewConn]: the connection, or the error of
    [ParseDSN] or of [connect]; the environment is not touched before the
    connection string has parsed. *)
Definition driver_Open (ParseDuration : string -> option time.Duration)
    (dsn : string) (w : W) (l : list event)
  : outcome (W * list event) (error + Conn.t) :=
  match ParseDSN ParseDuration dsn with
  | inl err => Done (inl err) (w, l)
  | inr cfg =>
      match NewConn cfg w l with
      | Done None s => Done (inr (this s)) (world s, log s)
      | Done (Some err) s => Done (inl err) (world s, log s)
      | Stuck h s => Stuck h (world s, log s)
      end
  end.

End Surface.

(** ** Vocabulary of the statements *)

(** The mutex as [Lock] leaves it. *)
Definition held : RWMutex := mkRWMutex true 0.

(** The state after a remote call [ev] that left the environment in [w]. *)
Definition after {W X} (s : Sys W X) (ev : event) (w : W) : Sys W X :=
  mkSys (this s) w (log s ++ [ev]).

(** A connection with [c.mu] taken, and given back. *)
Definition locked {W} (s : Sys W Conn.t) : Sys W Conn.t :=
  mkSys (Conn.set_mu held (this s)) (world s) (log s).

Definition released {W} (s : Sys W Conn.t) : Sys W Conn.t :=
  mkSys (Conn.set_mu unlocked (this s)) (world s) (log s).

Definition is_StatusRequest (ev : event) : bool :=
  match ev with StatusRequest _ => true | _ => false end.

(** The attempts of an execute operation: its write and query calls. *)
Definition is_attempt (ev : event) : bool :=
  match ev with WriteOne _ _ | QueryOne _ _ => true | _ => false end.

Definition status_requests (l : list event) : list event :=
  List.filter is_StatusRequest l.

Definition attempts (l : list event) : nat :=
  length (List.filter is_attempt l).

(** The requests [DiscoverLeader] sends when it probes [nodes] in turn. *)
Definition probes (nodes : list string) : list event :=
  map (fun node => StatusRequest (node +:+ "/status")%string) nodes.

Section Probing.

Context {W QR : Type} {R : Remote W QR}.

(** One probe: what [queryNodeStatus] returns for [node] in the environment
    [w], and the environment afterwards. *)
Definition probe (cl : http_Client) (ctx : Context) (node : string) (w : W)
  : (error + (string * list string)) * W :=
  let '(answer, w') := http_Do cl ctx (node +:+ "/status")%string w in
  (read_status answer, w').

(** Probing [nodes] in turn from [w], every probe fails; the environment
    is [w'] afterwards and [last] is the last error, [first] if there was
    no probe. *)
Fixpoint all_fail (cl : http_Client) (ctx : Context) (nodes : list string)
    (w : W) (first : option error) (w' : W) (last : option error) : Prop :=
  match nodes with
  | [] => w' = w /\ last = first
  | node :: nodes' =>
      exists e, (probe cl ctx node w).1 = inl e /\
        all_fail cl ctx nodes' (probe cl ctx node w).2 (Some e) w' last
  end.

(** Running [m] once in each environment of [ws], the object and the log
    carried over from one call to the next: the results, and what the object
    and the log are at the end ([None] when a call does not return). *)
Fixpoint run_each {X A} (m : M W X A) (ws : list W) (x : X) (l : list event)
  : option (list A * X * list event) :=
  match ws with
  | [] => Some ([], x, l)
  | w :: ws' =>
      match m (mkSys x w l) with
      | Done a s' =>
          match run_each m ws' (this s') (log s') with
          | Some (rs, x', l') => Some (a :: rs, x', l')
          | None => None
          end
      | Stuck _ _ => None
      end
  end.

End Probing.

(** [strings.Join], to write connection strings with. *)
Fixpoint Join (elems : list string) (sep : string) : string :=
  match elems with
  | [] => EmptyString
  | [x] => x
  | x :: rest => x +:+ sep +:+ Join rest sep
  end.

(** [l] with [v] appended to its last element. *)
Fixpoint app_last (l : list string) (v : string) : list string :=
  match l with
  | [] => []
  | [x] => [x +:+ v]
  | x :: l' => x :: app_last l' v
  end.

(** A piece of a connection string with none of [@], [?] and [&] in it. *)
Definition plain (s : string) : Prop :=
  strings.Contains s "@" = false /\ strings.Contains s "?" = false /\
  strings.Contains s "&" = false.

(** A node address carries a scheme. *)
Definition has_scheme (node : string) : bool :=
  strings.HasPrefix node "http://" || strings.HasPrefix node "https://".

(** The errors of [ParseDSN]. *)
Definition parse_errors : list error :=
  [errors_New "dsn cannot be empty"; errors_New "invalid dsn format";
   errors_New "no nodes specified"; errors_New "no valid nodes found"].

(** The connection [c] with other credentials in its configuration. *)
Definition set_credentials (username password : string) (c : Conn.t)
  : Conn.t :=
  Conn.mk
    (mkConfig (Nodes (Conn.cfg c)) username password (Timeout (Conn.cfg c))
       (ConsistencyLevel (Conn.cfg c)))
    (Conn.client c) (Conn.mu c) (Conn.closed c) (Conn.clusterManager c).

(** [f] applied to the object of a state, and to the state an outcome
    holds. *)
Definition on_this {W X} (f : X -> X) (s : Sys W X) : Sys W X :=
  mkSys (f (this s)) (world s) (log s).

Definition outcome_map {S A} (f : S -> S) (o : outcome S A) : outcome S A :=
  match o with
  | Done a s => Done a (f s)
  | Stuck h s => Stuck h (f s)
  end.

(** [m] does the same whether or not [f] has been applied to the object
    first. *)
Definition commutes {W X A} (f : X -> X) (m : M W X A) : Prop :=
  forall s, m (on_this f s) = outcome_map (on_this f) (m s).

(** The first of [peers], else the first of [nodes], else the empty
    string. *)
Definition first_of (peers nodes : list string) : string :=
  match peers, nodes with
  | peer :: _, _ => peer
  | [], node :: _ => node
  | [], [] => EmptyString
  end.

(** What an IEEE 754 bit pattern of [ebits] exponent bits and [mbits]
    fraction bits stands for: the number
    [(-1)^negative * significand * 2^exponent], an infinity, or no number. *)
Inductive ieee_number : Type :=
| IeeeFinite (negative : bool) (significand exponent : Z)
| IeeeInfinite (negative : bool)
| IeeeNaN.

Definition ieee_decode (ebits mbits : Z) (bits : Z) : ieee_number :=
  let negative := Z.land (Z.shiftr bits (ebits + mbits)) 1 =? 1 in
  let e := Z.land (Z.shiftr bits mbits) (2 ^ ebits - 1) in
  let m := Z.land bits (2 ^ mbits - 1) in
  let bias := 2 ^ (ebits - 1) - 1 in
  if e =? 2 ^ ebits - 1 then (if m =? 0 then IeeeInfinite negative else IeeeNaN)
  else if e =? 0 then IeeeFinite negative m (1 - bias - mbits)
  else IeeeFinite negative (2 ^ mbits + m) (e - bias - mbits).

Definition is_Select1 (ev : event) : bool :=
  match ev with Select1 _ => true | _ => false end.

Definition is_Close (ev : event) : bool :=
  match ev with CloseConnection _ => true | _ => false end.

(** How many events of the kind [P] a log holds. *)
Definition count (P : event -> bool) (l : list event) : nat :=
  length (List.filter P l).

Section ConnectVocabulary.

Context {W : Type}.

(** What [connect] and its parts keep of a connection [s] on the way to
    [s']: the configuration, the closed flag and [c.mu]; the manager's mutex
    is free; and of the clients that passed through a liveness query, all
    but [kept] have been closed. *)
Definition connect_frame (s s' : Sys W Conn.t) (kept : nat) : Prop :=
  Conn.cfg (this s') = Conn.cfg (this s) /\
  Conn.closed (this s') = Conn.closed (this s) /\
  Conn.mu (this s') = Conn.mu (this s) /\
  ClusterManager.mu (Conn.clusterManager (this s')) = unlocked /\
  (count is_Select1 (log s') + count is_Close (log s)
   = count is_Select1 (log s) + count is_Close (log s') + kept)%nat.

(** The client of [s'] is the one whose liveness query is the last remote
    call, and it runs at the configured level when that is one of [strong],
    [weak] and [none]. *)
Definition bound (s' : Sys W Conn.t) : Prop :=
  exists client,
    Conn.client (this s') = Some client /\
    last (log s') = Some (Select1 client) /\
    forall level,
      gorqlite_level (ConsistencyLevel (Conn.cfg (this s'))) = Some level ->
      conn_level client = level.

(** The two ways [connect] ends: nil with a client bound, or an error with
    the client it started with. *)
Definition connected (s : Sys W Conn.t) (r : option error)
    (s' : Sys W Conn.t) : Prop :=
  match r with
  | None => connect_frame s s' 1 /\ bound s'
  | Some _ =>
      connect_frame s s' 0 /\ Conn.client (this s') = Conn.client (this s)
  end.

End ConnectVocabulary.

(** [m] adds no event of the kind [P] to the log, however it ends. *)
Definition keeps {W X A} (P : event -> bool) (m : M W X A) : Prop :=
  forall s, List.filter P (log (final (m s))) = List.filter P (log s).

(** ** A scripted environment

    The clock reads [clock] and moves one nanosecond at each reading; a
    status request is answered from [statuses], and refused for any other
    address; every node opens, and answers [SELECT 1] when it is in [up];
    writes and queries are answered from the queues [writes] and [queries]. *)

Record Scripted : Type := mkScripted {
  clock : time.Time;
  statuses : list (string * http_Response);
  up : list string;
  writes : list (error + WriteResult);
  queries : list (error + unit)
}.

Fixpoint lookup_status (url : string) (l : list (string * http_Response))
  : option http_Response :=
  match l with
  | [] => None
  | (u, r) :: l' => if String.eqb u url then Some r else lookup_status url l'
  end.

Definition refused : error := foreign "connection refused".

#[export] Instance Scripted_Remote : Remote Scripted unit := {|
  time_Now w :=
    (clock w, mkScripted (clock w + 1) (statuses w) (up w) (writes w)
                (queries w));
  http_Do _ _ url w :=
    (match lookup_status url (statuses w) with
     | Some r => inr r
     | None => inl refused
     end, w);
  gorqlite_Open node w := (inr (mkConnection node ConsistencyLevelWeak), w);
  QueryOneContext c _ _ w :=
    (if existsb (String.eqb (conn_url c)) (up w) then None else Some refused,
     w);
  WriteOneParameterized _ _ w :=
    match writes w with
    | r :: rest =>
        (r, mkScripted (clock w) (statuses w) (up w) rest (queries w))
    | [] => (inl refused, w)
    end;
  QueryOneParameterized _ _ w :=
    match queries w with
    | r :: rest =>
        (r, mkScripted (clock w) (statuses w) (up w) (writes w) rest)
    | [] => (inl refused, w)
    end;
  Connection_Close _ w := w;
  map_range keys w := (elements keys, w);
  map_range_perm keys w := Permutation_refl (elements keys)
|}.

(** The status document of a node that reports [leader] and [peers]. *)
Definition status_document (leader : string) (peers : list string)
  : http_Response :=
  mkResponse 200
    (inr [("cluster",
           JObject [("leader", JString leader);
                    ("peers", JArray (map JString peers))])]).

(** The number an integer value holds. *)
Definition integer_value (v : GoValue) : option Z :=
  match v with
  | VInt n | VInt8 n | VInt16 n | VInt32 n | VInt64 n
  | VUint n | VUint8 n | VUint16 n | VUint32 n | VUint64 n => Some n
  | _ => None
  end.

(** ** Sample states *)

(** A reading of the clock in the year 2026. *)
Definition t2026 : time.Time := 63900000000000000000.

Definition node_a : string := "http://a:4001".
Definition node_b : string := "http://b:4001".
Definition node_c : string := "http://c:4001".

(** A manager seeded with [a] and [b] that learned at [t2026], from one
    response, that [b] leads and that [a] and [c] are peers. *)
Definition cm_known : ClusterManager.t :=
  ClusterManager.mk [node_a; node_b] node_b [node_a; node_c] unlocked t2026
    (30 * time.Second) (mkClient (10 * time.Second)).

(** A manager that knows no leader, but a peer. *)
Definition cm_leaderless : ClusterManager.t :=
  ClusterManager.mk [node_a] EmptyString [node_c] unlocked t2026
    (30 * time.Second) (mkClient (10 * time.Second)).

(** An environment in which no node answers anything. *)
Definition silent (now : time.Time) : Scripted := mkScripted now [] [] [] [].

(** An environment in which the nodes of [answering] report that [b] leads
    with peers [a] and [c], every node is up, and writes and queries are
    answered from [ws] and [qs]. *)
Definition cluster (now : time.Time) (answering : list string)
    (ws : list (error + WriteResult)) (qs : list (error + unit)) : Scripted :=
  mkScripted now
    (map (fun node => ((node +:+ "/status")%string,
                       status_document node_b [node_a; node_c])) answering)
    [node_a; node_b; node_c] ws qs.

Definition cfg_ab : Config :=
  mkConfig [node_a; node_b] EmptyString EmptyString (30 * time.Second) "weak".

(** The errors of three attempts, and the result of a write. *)
Definition err1 : error := foreign "not the leader (1)".
Definition err2 : error := foreign "not the leader (2)".
Definition err3 : error := foreign "not the leader (3)".
Definition one_row : WriteResult := mkWriteResult 7 1.

Definition failures {A : Type} : list (error + A) :=
  [inl err1; inl err2; inl err3].

(** A connection opened at [t2026] on the cluster, whose writes and queries
    will be answered from [ws] and [qs]: it learned from [a] that [b] leads
    and is bound to [b]. *)
Definition live (ws : list (error + WriteResult)) (qs : list (error + unit))
  : Sys Scripted Conn.t :=
  final (NewConn cfg_ab (cluster t2026 [node_a; node_b] ws qs) []).

(** The same connection, ten seconds later, with every node gone. *)
Definition orphaned : Sys Scripted Conn.t :=
  mkSys (this (live [] [])) (silent (t2026 + 10 * time.Second))
    (log (live [] [])).

Definition client_b : Connection := mkConnection node_b ConsistencyLevelWeak.

Definition insert : ParameterizedStatement :=
  mkStatement "INSERT INTO t(x) VALUES (1)" [].

(** * Properties *)

Example ParseDSN_single :
  ParseDSN time.ParseDuration_whole "localhost:4001"
  = inr (mkConfig ["http://localhost:4001"] "" "" (30 * time.Second) "weak").
Proof. vm_compute. reflexivity. Qed.

Example ParseDSN_with_auth :
  ParseDSN time.ParseDuration_whole
    "user:pass@host1:4001,host2:4002?consistency=strong&timeout=60s"
  = inr (mkConfig ["http://host1:4001"; "http://host2:4002"] "user" "pass"
           (60 * time.Second) "strong").
Proof. vm_compute. reflexivity. Qed.

Example ParseDSN_empty :
  ParseDSN time.ParseDuration_whole "" = inl (errors_New "dsn cannot be empty").
Proof. reflexivity. Qed.

(** ** The cluster manager *)

Section LeaderFacts.

Context {W QR : Type} {R : Remote W QR}.

Implicit Types (s : Sys W ClusterManager.t) (cm : ClusterManager.t).

Lemma set_mu_same cm : ClusterManager.set_mu (ClusterManager.mu cm) cm = cm.
Proof. destruct cm; reflexivity. Qed.

Lemma sys_eta {X} (s : Sys W X) : mkSys (this s) (world s) (log s) = s.
Proof. destruct s; reflexivity. Qed.

(** Taking a free mutex and giving it back leaves the manager as it was. *)
Lemma cm_Lock_free s :
  ClusterManager.mu (this s) = unlocked ->
  cm_mu RWMutex_Lock s
  = Done tt (mkSys (ClusterManager.set_mu held (this s)) (world s) (log s)).
Proof.
  intros H. unfold cm_mu, on_mutex, RWMutex_Lock. rewrite H. reflexivity.
Qed.

Lemma queryNodeStatus_probe ctx node s :
  queryNodeStatus ctx node s
  = Done (probe (ClusterManager.client (this s)) ctx node (world s)).1
      (after s (StatusRequest (node +:+ "/status")%string)
         (probe (ClusterManager.client (this s)) ctx node (world s)).2).
Proof.
  unfold queryNodeStatus, probe, bind, get, call, ret, after. simpl.
  destruct (http_Do _ _ _ _) as [answer w']. reflexivity.
Qed.

(** The loop, when every probe fails: all nodes are asked, in order, and the
    manager is as before. *)
Lemma discover_all_fail ctx nodes : forall s first w' last,
  all_fail (ClusterManager.client (this s)) ctx nodes (world s) first w' last ->
  discover ctx nodes first s
  = Done (Some (fmt_Errorf_w "failed to discover leader from any node: " last))
      (mkSys (this s) w' (log s ++ probes nodes)).
Proof.
  induction nodes as [|node nodes IH]; intros s first w' last H; simpl in *.
  - destruct H as [-> ->]. unfold ret. rewrite app_nil_r, sys_eta. reflexivity.
  - destruct H as (e & He & Hrest).
    unfold bind. rewrite queryNodeStatus_probe, He.
    rewrite (IH (after s _ _) (Some e) w' last Hrest). simpl.
    rewrite <- app_assoc. reflexivity.
Qed.

(** The loop, when the probes of [pre] fail and the next one succeeds. *)
Lemma discover_first_success ctx pre node post : forall s first w2 last l p,
  all_fail (ClusterManager.client (this s)) ctx pre (world s) first w2 last ->
  (probe (ClusterManager.client (this s)) ctx node w2).1 = inr (l, p) ->
  let w3 := (probe (ClusterManager.client (this s)) ctx node w2).2 in
  discover ctx (pre ++ node :: post) first s
  = Done None
      (mkSys (ClusterManager.set_view l p (time_Now w3).1 (this s))
         (time_Now w3).2 (log s ++ probes (pre ++ [node]))).
Proof.
  induction pre as [|n pre IH]; intros s first w2 last l p H Hok; simpl in *.
  - destruct H as [-> _]. unfold bind. rewrite queryNodeStatus_probe, Hok.
    unfold ask, modify, ret, after. simpl.
    destruct (time_Now _) as [now w4]. reflexivity.
  - destruct H as (e & He & Hrest).
    unfold bind. rewrite queryNodeStatus_probe, He.
    rewrite (IH (after s _ _) (Some e) w2 last l p Hrest Hok). simpl.
    rewrite <- app_assoc. reflexivity.
Qed.

Lemma DiscoverLeader_unfold ctx s :
  ClusterManager.mu (this s) = unlocked ->
  DiscoverLeader ctx s
  = let cm := this s in
    let '(now, w1) := time_Now (world s) in
    match
      (if time.Sub now (ClusterManager.lastUpdate cm)
          <? ClusterManager.updateInterval cm
       then ret None
       else discover ctx (ClusterManager.nodes cm) None)
        (mkSys (ClusterManager.set_mu held cm) w1 (log s))
    with
    | Done r s' =>
        match RWMutex_Unlock (ClusterManager.mu (this s')) with
        | inr m =>
            Done r (mkSys (ClusterManager.set_mu m (this s')) (world s') (log s'))
        | inl h => Stuck h s'
        end
    | Stuck h s' => Stuck h s'
    end.
Proof.
  intros H. unfold DiscoverLeader. unfold bind at 1. rewrite (cm_Lock_free s H).
  unfold bind, ask, get, cm_mu, on_mutex, ret. simpl.
  destruct (time_Now (world s)) as [now w1]. simpl.
  destruct (time.Sub now _ <? _); simpl.
  - reflexivity.
  - destruct (discover _ _ _ _) as [r s'|h s']; [|reflexivity].
    destruct (RWMutex_Unlock _); reflexivity.
Qed.

Lemma DiscoverLeader_throttled ctx s :
  ClusterManager.mu (this s) = unlocked ->
  time.Sub (time_Now (world s)).1 (ClusterManager.lastUpdate (this s))
    < ClusterManager.updateInterval (this s) ->
  DiscoverLeader ctx s
  = Done None (mkSys (this s) (time_Now (world s)).2 (log s)).
Proof.
  intros Hmu Hfresh. rewrite (DiscoverLeader_unfold ctx s Hmu). simpl.
  destruct (time_Now (world s)) as [now w1]. simpl in *.
  apply Z.ltb_lt in Hfresh. rewrite Hfresh. unfold ret. simpl.
  destruct (this s); simpl in *; subst; reflexivity.
Qed.

End LeaderFacts.

Section TrackerClaims.

Context {W QR : Type} {R : Remote W QR}.

Implicit Types (s : Sys W ClusterManager.t) (cm : ClusterManager.t).

(** C4 (throttle).  A sequence of [DiscoverLeader] calls, each made while the
    clock reads less than [updateInterval] past [lastUpdate] (the time of the
    last successful refresh), whatever the environment has become in between:
    every call returns nil, the manager (leader, peers, lastUpdate and all
    the rest) is at the end what it was at the start, and the log is
    unchanged, so no status request was sent. *)
Theorem refresh_throttled_sequence ctx cm (ws : list W) (l : list event) :
  ClusterManager.mu cm = unlocked ->
  (forall w, w ∈ ws ->
     time.Sub (time_Now w).1 (ClusterManager.lastUpdate cm)
       < ClusterManager.updateInterval cm) ->
  run_each (DiscoverLeader ctx) ws cm l
  = Some (replicate (length ws) None, cm, l).
Proof.
  intros Hmu Hfresh. induction ws as [|w ws IH]; simpl; [reflexivity|].
  rewrite (DiscoverLeader_throttled ctx (mkSys cm w l)); simpl; auto.
  - rewrite IH; [reflexivity|].
    intros w0 Hw0. apply Hfresh. now apply list_elem_of_further.
  - apply Hfresh. apply list_elem_of_here.
Qed.

(** C5 (failed refresh), as amended.  When the refresh is not throttled and
    every probe of the seed list fails, [DiscoverLeader] returns the error
    that wraps the last probe error and leaves the whole manager as it was;
    [ForceRefresh] returns the same error and leaves leader and peers as they
    were, with [lastUpdate] at the zero time to which it had reset it. *)
Theorem failed_refresh_keeps_view ctx s now w1 w' last :
  ClusterManager.mu (this s) = unlocked ->
  time_Now (world s) = (now, w1) ->
  all_fail (ClusterManager.client (this s)) ctx (ClusterManager.nodes (this s))
    w1 None w' last ->
  let failure :=
    Some (fmt_Errorf_w "failed to discover leader from any node: " last) in
  (ClusterManager.updateInterval (this s)
     <= time.Sub now (ClusterManager.lastUpdate (this s)) ->
   DiscoverLeader ctx s
   = Done failure
       (mkSys (this s) w' (log s ++ probes (ClusterManager.nodes (this s)))))
  /\
  (ClusterManager.updateInterval (this s) <= time.Sub now time.zeroTime ->
   ForceRefresh ctx s
   = Done failure
       (mkSys (ClusterManager.set_lastUpdate time.zeroTime (this s)) w'
          (log s ++ probes (ClusterManager.nodes (this s))))).
Proof.
  intros Hmu Hnow Hfail failure. split; intros Hstale.
  - rewrite (DiscoverLeader_unfold ctx s Hmu). simpl. rewrite Hnow.
    apply Z.ltb_ge in Hstale. rewrite Hstale.
    rewrite (discover_all_fail ctx _ (mkSys _ w1 (log s)) None w' last);
      [|exact Hfail].
    simpl. destruct (this s); simpl in *; subst; reflexivity.
  - unfold ForceRefresh. unfold bind at 1. rewrite (cm_Lock_free s Hmu).
    unfold bind, modify, cm_mu, on_mutex. simpl.
    rewrite DiscoverLeader_unfold; [|reflexivity]. simpl. rewrite Hnow.
    apply Z.ltb_ge in Hstale. rewrite Hstale.
    rewrite (discover_all_fail ctx _ (mkSys _ w1 (log s)) None w' last);
      [|exact Hfail].
    simpl. destruct (this s); simpl in *; subst; reflexivity.
Qed.

(** C6 (probe order), as amended.  A refresh that is not throttled probes
    the configured seed list in order, whether or not a leader is known; it
    stops at the first node whose probe succeeds ([pre] are the nodes that
    failed before it, [post] is not asked), and the leader and peers of that
    one response are installed together with the clock's reading after it. *)
Theorem refresh_probes_seed_list ctx s now w1 pre node post w2 last l p :
  ClusterManager.mu (this s) = unlocked ->
  time_Now (world s) = (now, w1) ->
  ClusterManager.updateInterval (this s)
    <= time.Sub now (ClusterManager.lastUpdate (this s)) ->
  ClusterManager.nodes (this s) = pre ++ node :: post ->
  all_fail (ClusterManager.client (this s)) ctx pre w1 None w2 last ->
  (probe (ClusterManager.client (this s)) ctx node w2).1 = inr (l, p) ->
  let w3 := (probe (ClusterManager.client (this s)) ctx node w2).2 in
  DiscoverLeader ctx s
  = Done None
      (mkSys (ClusterManager.set_view l p (time_Now w3).1 (this s))
         (time_Now w3).2 (log s ++ probes (pre ++ [node]))).
Proof.
  intros Hmu Hnow Hstale Hnodes Hfail Hok w3.
  rewrite (DiscoverLeader_unfold ctx s Hmu). simpl. rewrite Hnow.
  apply Z.ltb_ge in Hstale. rewrite Hstale, Hnodes.
  rewrite (discover_first_success ctx pre node post (mkSys _ w1 (log s))
             None w2 last l p); [|exact Hfail|exact Hok].
  simpl. fold w3. destruct (this s); simpl in *; subst; reflexivity.
Qed.

Lemma elem_of_known_nodes cm x :
  x ∈ known_nodes cm <->
  (x = ClusterManager.leader cm /\ ClusterManager.leader cm <> EmptyString)
  \/ x ∈ ClusterManager.peers cm.
Proof.
  unfold known_nodes.
  set (start := if negb (String.eqb (ClusterManager.leader cm) "")
                then {[ClusterManager.leader cm]} else (∅ : gset string)).
  assert (Hstart : x ∈ start <->
            x = ClusterManager.leader cm
            /\ ClusterManager.leader cm <> EmptyString).
  { subst start. destruct (String.eqb_spec (ClusterManager.leader cm) "");
      simpl; set_solver. }
  rewrite <- Hstart. clear Hstart. generalize start.
  induction (ClusterManager.peers cm) as [|peer peers IH]; intros acc; simpl.
  - set_solver.
  - rewrite IH. set_solver.
Qed.

Lemma GetAllNodes_range s :
  writer (ClusterManager.mu (this s)) = false ->
  GetAllNodes s
  = Done (map_range (known_nodes (this s)) (world s)).1
      (mkSys (this s) (map_range (known_nodes (this s)) (world s)).2 (log s)).
Proof.
  intros Hw. unfold GetAllNodes, bind, cm_mu, on_mutex, RWMutex_RLock, get, ask,
    ret. rewrite Hw. simpl.
  destruct (map_range _ _) as [result w']. simpl.
  destruct (this s) as [? ? ? [wr rd] ? ? ?]; simpl in *; subst; reflexivity.
Qed.

End TrackerClaims.

(** C1 (strong routing): the code at an input where the claim fails.  With no
    leader known and a peer known, [SelectBestNode("strong")] leaves the branch
    for strong consistency without returning and answers with the first peer;
    with no peer either, it answers with the first seed node. *)
Theorem SelectBestNode_strong_without_leader
    {W QR : Type} {R : Remote W QR} (w : W) (l : list event) :
  SelectBestNode "strong" (mkSys cm_leaderless w l)
  = Done node_c (mkSys cm_leaderless w l)
  /\ SelectBestNode "strong" (mkSys (NewClusterManager [node_a; node_b]) w l)
     = Done node_a (mkSys (NewClusterManager [node_a; node_b]) w l).
Proof. split; reflexivity. Qed.

(** The level makes no difference to [SelectBestNode]. *)
Lemma SelectBestNode_any_level {W QR : Type} {R : Remote W QR}
    (level : string) (s : Sys W ClusterManager.t) :
  SelectBestNode level s = SelectBestNode "weak" s.
Proof.
  unfold SelectBestNode, bind, get, ret, cm_mu, on_mutex.
  destruct (RWMutex_RLock _); [reflexivity|]. simpl.
  destruct (String.eqb level "strong"); simpl; [|reflexivity].
  destruct (negb _); reflexivity.
Qed.

(** C7 (known nodes), as amended.  [GetAllNodes] returns, without sending
    anything, a list without duplicates whose elements are the leader, when
    one is known, and the peers; it is empty when nothing is known.  The seed
    list comes in one level up: [connectToAnyNode] goes through the
    configured nodes when [GetAllNodes] gave it nothing. *)
Theorem GetAllNodes_union_without_seeds {W QR : Type} {R : Remote W QR} :
  (forall s : Sys W ClusterManager.t,
     writer (ClusterManager.mu (this s)) = false ->
     exists result w',
       GetAllNodes s = Done result (mkSys (this s) w' (log s)) /\
       NoDup result /\
       (forall x, x ∈ result <->
          (x = ClusterManager.leader (this s)
           /\ ClusterManager.leader (this s) <> EmptyString)
          \/ x ∈ ClusterManager.peers (this s)) /\
       (ClusterManager.leader (this s) = EmptyString ->
        ClusterManager.peers (this s) = [] -> result = []))
  /\
  (forall c : Sys W Conn.t,
     writer (ClusterManager.mu (Conn.clusterManager (this c))) = false ->
     ClusterManager.leader (Conn.clusterManager (this c)) = EmptyString ->
     ClusterManager.peers (Conn.clusterManager (this c)) = [] ->
     exists w',
       connectToAnyNode c
       = connectToAny (Nodes (Conn.cfg (this c))) None
           (mkSys (this c) w' (log c))).
Proof.
  split.
  - intros s Hw. eexists _, _. split; [apply (GetAllNodes_range s Hw)|].
    pose proof (map_range_perm (known_nodes (this s)) (world s)) as Hperm.
    split; [|split].
    + rewrite Hperm. apply NoDup_elements.
    + intros x. rewrite Hperm, elem_of_elements. apply elem_of_known_nodes.
    + intros Hl Hp. apply Permutation_nil_r. rewrite Hperm.
      unfold known_nodes. rewrite Hl, Hp. simpl. now rewrite elements_empty.
  - intros c Hw Hl Hp.
    pose proof (map_range_perm (known_nodes (Conn.clusterManager (this c)))
                  (world c)) as Hperm.
    assert (Hnil : (map_range (known_nodes (Conn.clusterManager (this c)))
                      (world c)).1 = []).
    { apply Permutation_nil_r. rewrite Hperm.
      unfold known_nodes. rewrite Hl, Hp. simpl. now rewrite elements_empty. }
    eexists. unfold connectToAnyNode, bind, manager, on_field.
    rewrite GetAllNodes_range by exact Hw. simpl. rewrite Hnil. simpl.
    unfold get. simpl.
    replace (Conn.set_clusterManager (Conn.clusterManager (this c)) (this c))
      with (this c) by (destruct (this c); reflexivity).
    reflexivity.
Qed.

(** *** The tracker at the sample states *)

(** C4 at two calls made one and twenty-nine seconds after the refresh. *)
Lemma refresh_throttled_sequence_witness :
  run_each (DiscoverLeader context_Background)
    [silent (t2026 + 1 * time.Second); silent (t2026 + 29 * time.Second)]
    cm_known []
  = Some ([None; None], cm_known, []).
Proof.
  apply (refresh_throttled_sequence context_Background cm_known
           [silent (t2026 + 1 * time.Second);
            silent (t2026 + 29 * time.Second)] []).
  - reflexivity.
  - intros w Hw. apply elem_of_cons in Hw as [->|Hw];
      [|apply elem_of_cons in Hw as [->|Hw]; [|inversion Hw]];
      vm_compute; reflexivity.
Defined.

(** C5 as stated fails on a forced refresh: a minute after the refresh at
    [t2026] every probe is refused, and [lastUpdate] is no longer [t2026]. *)
Lemma forced_refresh_resets_lastUpdate :
  exists e s',
    ForceRefresh context_Background
      (mkSys cm_known (silent (t2026 + 60 * time.Second)) [])
    = Done (Some e) s' /\
    log s' = probes [node_a; node_b] /\
    ClusterManager.lastUpdate cm_known = t2026 /\
    ClusterManager.lastUpdate (this s') = time.zeroTime /\
    ClusterManager.lastUpdate (this s') <> ClusterManager.lastUpdate cm_known.
Proof.
  eexists _, _. split; [vm_compute; reflexivity|].
  repeat split; vm_compute; discriminate.
Qed.

(** C5, amended, at the same state. *)
Lemma failed_refresh_keeps_view_witness :
  let s := mkSys cm_known (silent (t2026 + 60 * time.Second)) [] in
  let w' := silent (t2026 + 60 * time.Second + 1) in
  let failure :=
    Some (fmt_Errorf_w "failed to discover leader from any node: "
            (Some refused)) in
  DiscoverLeader context_Background s
  = Done failure (mkSys cm_known w' (probes [node_a; node_b]))
  /\ ForceRefresh context_Background s
     = Done failure
         (mkSys (ClusterManager.set_lastUpdate time.zeroTime cm_known) w'
            (probes [node_a; node_b])).
Proof.
  intros s w' failure.
  destruct (failed_refresh_keeps_view context_Background s
              (t2026 + 60 * time.Second) w' w' (Some refused)) as [H1 H2].
  - reflexivity.
  - reflexivity.
  - simpl. eexists. split; [reflexivity|].
    eexists. split; [reflexivity|]. split; reflexivity.
  - split; [apply H1|apply H2]; vm_compute; discriminate.
Defined.

(** C6 as stated fails when a leader is known: a minute after the refresh
    that named [b] the leader, the first and only node asked is [a], the
    head of the seed list. *)
Lemma refresh_asks_seed_before_leader :
  ClusterManager.leader cm_known = node_b /\
  exists s',
    DiscoverLeader context_Background
      (mkSys cm_known
         (cluster (t2026 + 60 * time.Second) [node_a; node_b] [] []) [])
    = Done None s' /\
    log s' = [StatusRequest "http://a:4001/status"].
Proof.
  split; [reflexivity|]. eexists. split; vm_compute; reflexivity.
Qed.

(** C6, amended, where [a] does not answer and [b] does. *)
Lemma refresh_probes_seed_list_witness :
  let w := cluster (t2026 + 60 * time.Second) [node_b] [] [] in
  DiscoverLeader context_Background (mkSys cm_known w [])
  = Done None
      (mkSys
         (ClusterManager.set_view node_b [node_a; node_c]
            (t2026 + 60 * time.Second + 1) cm_known)
         (cluster (t2026 + 60 * time.Second + 2) [node_b] [] [])
         (probes [node_a; node_b])).
Proof.
  intros w. etransitivity.
  - apply (refresh_probes_seed_list context_Background (mkSys cm_known w [])
             (t2026 + 60 * time.Second)
             (cluster (t2026 + 60 * time.Second + 1) [node_b] [] [])
             [node_a] node_b []
             (cluster (t2026 + 60 * time.Second + 1) [node_b] [] [])
             (Some refused) node_b [node_a; node_c]).
    + reflexivity.
    + reflexivity.
    + vm_compute. discriminate.
    + reflexivity.
    + simpl. eexists. split; [reflexivity|]. split; reflexivity.
    + reflexivity.
  - vm_compute. reflexivity.
Defined.

(** C7 as stated fails when nothing is known: [GetAllNodes] on a new manager
    is empty, not the seed list. *)
Lemma GetAllNodes_of_new_manager_is_empty :
  ClusterManager.nodes (NewClusterManager [node_a; node_b]) = [node_a; node_b]
  /\ GetAllNodes (mkSys (NewClusterManager [node_a; node_b]) (silent t2026) [])
     = Done [] (mkSys (NewClusterManager [node_a; node_b]) (silent t2026) []).
Proof. split; vm_compute; reflexivity. Qed.

(** C7, amended, at a manager that knows a leader and at a new connection. *)
Lemma GetAllNodes_union_without_seeds_witness :
  (exists result w',
     GetAllNodes (mkSys cm_known (silent t2026) [])
     = Done result (mkSys cm_known w' []) /\
     NoDup result /\
     (forall x, x ∈ result <->
        (x = node_b /\ node_b <> EmptyString) \/ x ∈ [node_a; node_c]))
  /\
  (exists w',
     let c := new_Conn (mkConfig [node_a] EmptyString EmptyString
                          (30 * time.Second) "weak") in
     connectToAnyNode (mkSys c (silent t2026) [])
     = connectToAny [node_a] None (mkSys c w' [])).
Proof.
  destruct (@GetAllNodes_union_without_seeds Scripted unit _) as [H1 H2].
  split.
  - destruct (H1 (mkSys cm_known (silent t2026) []) eq_refl)
      as (result & w' & Heq & Hnd & Hin & _).
    exists result, w'. auto.
  - destruct (H2 (mkSys (new_Conn (mkConfig [node_a] EmptyString EmptyString
                                     (30 * time.Second) "weak"))
                    (silent t2026) []) eq_refl eq_refl eq_refl) as (w' & Heq).
    exists w'. exact Heq.
Defined.

(** ** Connection strings and row values *)

(** C8 (the scenario).  With [time.ParseDuration] reading [45s] as 45
    seconds, the connection string of the scenario parses to the two nodes
    with the [http://] scheme added, the user, the password, the level
    [strong] and a timeout of 45 seconds. *)
Theorem ParseDSN_scenario (ParseDuration : string -> option time.Duration) :
  ParseDuration "45s" = Some (45 * time.Second) ->
  ParseDSN ParseDuration
    "user:pass@host1:4001,host2:4002?consistency=strong&timeout=45s"
  = inr (mkConfig ["http://host1:4001"; "http://host2:4002"] "user" "pass"
           (45 * time.Second) "strong").
Proof.
  intros H. vm_compute in H. vm_compute. rewrite H. reflexivity.
Qed.

Lemma ParseDSN_scenario_witness :
  ParseDSN time.ParseDuration_whole
    "user:pass@host1:4001,host2:4002?consistency=strong&timeout=45s"
  = inr (mkConfig ["http://host1:4001"; "http://host2:4002"] "user" "pass"
           (45 * time.Second) "strong").
Proof. apply (ParseDSN_scenario time.ParseDuration_whole). reflexivity. Defined.

Lemma int64_small n : - 2 ^ 63 <= n < 2 ^ 63 -> int64 n = n.
Proof. intros H. unfold int64. rewrite Z.mod_small; lia. Qed.

Lemma int64_wraps n : 2 ^ 63 <= n < 2 ^ 64 -> int64 n = n - 2 ^ 64.
Proof.
  intros H. unfold int64.
  replace (n + 2 ^ 63) with ((n - 2 ^ 63) + 1 * 2 ^ 64) by lia.
  rewrite Z.mod_add by lia. rewrite Z.mod_small; lia.
Qed.

(** C10 (row values).  [convertValue] turns an integer of any of the ten
    integer types into the [int64] of the same value, except that an unsigned
    one above [2^63 - 1] comes out lowered by [2^64], hence negative; it turns
    a [float32] into a [float64]; whatever it returns has one of the types of
    a [driver.Value].  And when [Rows.Next] returns nil, the cells it hands to
    its caller are the very values that [Scan] read from the row that [Next]
    of the result moved to, each put through [convertValue]: a [uint64] cell
    above [2^63 - 1] reaches the caller lowered by [2^64]. *)
Theorem convertValue_normalizes :
  (forall v n, integer_value v = Some n -> in_range v = true ->
     convertValue v = VInt64 (if 2 ^ 63 <=? n then n - 2 ^ 64 else n))
  /\ (forall n, 2 ^ 63 <= n < 2 ^ 64 ->
        convertValue (VUint64 n) = VInt64 (n - 2 ^ 64) /\ n - 2 ^ 64 < 0)
  /\ (forall bits,
        convertValue (VFloat32 bits) = VFloat64 (float64_of_float32 bits))
  /\ (forall v, is_driver_Value (convertValue v) = true)
  /\ (forall (QueryResult : Type) qr_Next qr_Scan r dest r' dest',
        Rows_Next QueryResult qr_Next qr_Scan r dest = (None, r', dest') ->
        exists qr qr' scanned,
          result QueryResult r = Some qr /\
          closed QueryResult r = false /\
          qr_Next qr = (true, qr') /\
          qr_Scan qr' (replicate (length dest) VNil) = inr scanned /\
          r' = mkRows QueryResult (Some qr') false /\
          dest' = map convertValue (resize (length dest) VNil scanned) /\
          (forall i v,
             (i < length dest)%nat -> scanned !! i = Some v ->
             dest' !! i = Some (convertValue v)) /\
          (forall i n,
             (i < length dest)%nat -> scanned !! i = Some (VUint64 n) ->
             2 ^ 63 <= n < 2 ^ 64 ->
             dest' !! i = Some (VInt64 (n - 2 ^ 64))) /\
          Forall (fun v => is_driver_Value v = true) dest')
  /\ (forall (QueryResult : Type) qr_Next qr_Scan r dest qr qr' scanned,
        result QueryResult r = Some qr ->
        closed QueryResult r = false ->
        qr_Next qr = (true, qr') ->
        qr_Scan qr' (replicate (length dest) VNil) = inr scanned ->
        Rows_Next QueryResult qr_Next qr_Scan r dest
        = (None, mkRows QueryResult (Some qr') false,
           map convertValue (resize (length dest) VNil scanned))).
Proof.
  split; [|split; [|split; [|split; [|split]]]].
  - intros v n Hv Hr.
    destruct v; simpl in Hv; inversion Hv; subst; simpl in Hr;
      apply andb_true_iff in Hr as [Hlo Hhi];
      apply Z.leb_le in Hlo; apply Z.ltb_lt in Hhi; simpl convertValue;
      destruct (Z.leb_spec (2 ^ 63) n);
      try (rewrite int64_small by lia; reflexivity);
      try (rewrite int64_wraps by lia; reflexivity);
      try reflexivity; lia.
  - intros n Hn. simpl. rewrite int64_wraps by lia. split; [reflexivity|lia].
  - reflexivity.
  - intros v. destruct v; reflexivity.
  - intros QueryResult qr_Next qr_Scan r dest r' dest' H.
    unfold Rows_Next in H.
    destruct (result QueryResult r) as [qr|] eqn:Hr; [|discriminate].
    destruct (closed QueryResult r) eqn:Hc; [discriminate|].
    destruct (qr_Next qr) as [more qr'] eqn:Hn. destruct more; [|discriminate].
    simpl in H.
    destruct (qr_Scan qr' _) as [err|scanned] eqn:Hs; [discriminate|].
    inversion H; subst. exists qr, qr', scanned.
    assert (Hcell : forall i v,
              (i < length dest)%nat -> scanned !! i = Some v ->
              map convertValue (resize (length dest) VNil scanned) !! i
              = Some (convertValue v)).
    { intros i v Hi Hv.
      change (map convertValue (resize (length dest) VNil scanned))
        with (convertValue <$> resize (length dest) VNil scanned).
      rewrite list_lookup_fmap, lookup_resize;
        [now rewrite Hv|exact Hi|now apply lookup_lt_Some in Hv]. }
    do 6 (split; [first [assumption|reflexivity]|]).
    split; [exact Hcell|]. split.
    + intros i n Hi Hv Hn'. rewrite (Hcell i _ Hi Hv). simpl.
      now rewrite int64_wraps by lia.
    + apply Forall_forall. intros v Hv.
      apply list_elem_of_fmap in Hv as (x & -> & _). destruct x; reflexivity.
  - intros QueryResult qr_Next qr_Scan r dest qr qr' scanned Hr Hc Hn Hs.
    unfold Rows_Next. rewrite Hr, Hc, Hn. simpl. now rewrite Hs.
Qed.

(** C10 on a small unsigned integer, on [2^63], and on a cursor over lists
    of rows whose next row holds [2^64 - 1] as a [uint64] and one as a
    [float32]. *)
Lemma convertValue_normalizes_witness :
  convertValue (VUint8 200) = VInt64 200
  /\ convertValue (VUint64 (2 ^ 63)) = VInt64 (- 2 ^ 63)
  /\ (let next (qr : list (list GoValue)) := (true, tl qr) in
      let scan (qr : list (list GoValue)) (values : list GoValue) :=
        @inr error _ (hd [] qr) in
      let row := [VUint64 (2 ^ 64 - 1); VFloat32 1065353216] in
      Rows_Next _ next scan (mkRows _ (Some [[]; row]) false) [VNil; VNil]
      = (None, mkRows _ (Some [row]) false,
         [VInt64 (-1); VFloat64 4607182418800017408])
      /\ [VInt64 (-1); VFloat64 4607182418800017408] !! 0%nat
         = Some (VInt64 (2 ^ 64 - 1 - 2 ^ 64))).
Proof.
  destruct convertValue_normalizes as (H1 & H2 & H3 & H4 & H5 & H6).
  split; [|split].
  - apply (H1 (VUint8 200) 200); reflexivity.
  - apply (H2 (2 ^ 63)). lia.
  - intros next scan row.
    assert (Hnext : Rows_Next _ next scan (mkRows _ (Some [[]; row]) false)
                      [VNil; VNil]
                    = (None, mkRows _ (Some [row]) false,
                       [VInt64 (-1); VFloat64 4607182418800017408])).
    { etransitivity.
      - apply (H6 (list (list GoValue)) next scan
                 (mkRows _ (Some [[]; row]) false) [VNil; VNil]
                 [[]; row] [row] row); reflexivity.
      - vm_compute. reflexivity. }
    split; [exact Hnext|].
    destruct (H5 (list (list GoValue)) next scan _ _ _ _ Hnext)
      as (qr & qr' & scanned & Hr & _ & Hn & Hs & _ & _ & _ & Hwrap & _).
    apply (Hwrap 0%nat (2 ^ 64 - 1)); [simpl; lia| |lia].
    injection Hr as <-. injection Hn as <-. injection Hs as <-. reflexivity.
Defined.

(** ** The retry loop *)

Section KeepsFacts.

Context {W QR : Type} {R : Remote W QR}.

Variable P : event -> bool.

Lemma keeps_ret {X A} (a : A) : keeps P (@ret W X A a).
Proof. intros s. reflexivity. Qed.

Lemma keeps_get {X} : keeps P (@get W X).
Proof. intros s. reflexivity. Qed.

Lemma keeps_modify {X} (f : X -> X) : keeps P (@modify W X f).
Proof. intros s. reflexivity. Qed.

Lemma keeps_halt {X A} h : keeps P (@halt_with W X A h).
Proof. intros s. reflexivity. Qed.

Lemma keeps_ask {X A} (f : W -> A * W) : keeps P (@ask W X A f).
Proof. intros s. unfold ask. destruct (f (world s)). reflexivity. Qed.

Lemma keeps_call {X A} ev (f : W -> A * W) :
  P ev = false -> keeps P (@call W X A ev f).
Proof.
  intros H s. unfold call. destruct (f (world s)). simpl.
  rewrite List.filter_app. simpl. rewrite H. apply app_nil_r.
Qed.

Lemma keeps_on_mutex {X} (proj : X -> RWMutex) upd op :
  keeps P (@on_mutex W X proj upd op).
Proof. intros s. unfold on_mutex. destruct (op _); reflexivity. Qed.

Lemma keeps_bind {X A B} (m : M W X A) (k : A -> M W X B) :
  keeps P m -> (forall a, keeps P (k a)) -> keeps P (bind m k).
Proof.
  intros Hm Hk s. unfold bind. specialize (Hm s).
  destruct (m s) as [a s'|h s']; simpl in *; [|exact Hm].
  rewrite (Hk a s'). exact Hm.
Qed.

Lemma keeps_on_field {X Y A} (proj : X -> Y) upd (m : M W Y A) :
  keeps P m -> keeps P (on_field proj upd m).
Proof.
  intros Hm s. unfold on_field.
  specialize (Hm (mkSys (proj (this s)) (world s) (log s))).
  destruct (m _) as [a s'|h s']; exact Hm.
Qed.

End KeepsFacts.

Ltac keeps_step :=
  first
    [ apply keeps_ret | apply keeps_get | apply keeps_modify
    | apply keeps_halt | apply keeps_ask | apply keeps_on_mutex
    | apply keeps_call; reflexivity
    | apply keeps_on_field
    | apply keeps_bind; [|intros ?] ].

Section ExecuteFacts.

Context {W QR : Type} {R : Remote W QR}.

Implicit Types (s : Sys W Conn.t).

(** What is not a status request: any method of the connection and of its
    manager, apart from the probing of [DiscoverLeader]. *)
Lemma keeps_GetAllNodes P : keeps P (@GetAllNodes W QR R).
Proof. unfold GetAllNodes, cm_mu. repeat keeps_step. Qed.

Lemma keeps_SelectBestNode P level : keeps P (@SelectBestNode W level).
Proof. unfold SelectBestNode, cm_mu. repeat keeps_step. Qed.

Lemma keeps_createClient P node :
  (forall ev, P ev = true -> is_StatusRequest ev = true \/ is_attempt ev = true) ->
  keeps P (@createClient W QR R node).
Proof.
  intros HP.
  assert (Hno : forall ev, is_StatusRequest ev = false -> is_attempt ev = false ->
                      P ev = false).
  { intros ev H1 H2. destruct (P ev) eqn:E; [|reflexivity].
    destruct (HP ev E); congruence. }
  unfold createClient.
  apply keeps_bind; [apply keeps_call; apply Hno; reflexivity|].
  intros [err|client]; [apply keeps_ret|].
  apply keeps_bind; [apply keeps_get|]. intros c.
  apply keeps_bind; [apply keeps_call; apply Hno; reflexivity|].
  intros [err|]; [|apply keeps_ret].
  apply keeps_bind; [apply keeps_call; apply Hno; reflexivity|].
  intros _. apply keeps_ret.
Qed.

Lemma keeps_connectToAny P nodes :
  (forall ev, P ev = true -> is_StatusRequest ev = true \/ is_attempt ev = true) ->
  forall lastErr, keeps P (@connectToAny W QR R nodes lastErr).
Proof.
  intros HP. induction nodes as [|node nodes IH]; intros lastErr; simpl.
  - destruct lastErr; apply keeps_ret.
  - apply keeps_bind; [apply keeps_createClient, HP|].
    intros [err|client]; [apply IH|]. repeat keeps_step.
Qed.

Lemma keeps_connectToAnyNode P :
  (forall ev, P ev = true -> is_StatusRequest ev = true \/ is_attempt ev = true) ->
  keeps P (@connectToAnyNode W QR R).
Proof.
  intros HP. unfold connectToAnyNode, manager.
  apply keeps_bind; [apply keeps_on_field, keeps_GetAllNodes|]. intros nodes.
  apply keeps_bind; [apply keeps_get|]. intros c.
  apply keeps_connectToAny, HP.
Qed.

Lemma keeps_discover ctx nodes :
  forall lastErr, keeps is_attempt (@discover W QR R ctx nodes lastErr).
Proof.
  induction nodes as [|node nodes IH]; intros lastErr; simpl.
  - apply keeps_ret.
  - apply keeps_bind; [unfold queryNodeStatus; repeat keeps_step|].
    intros [err|[leader peers]]; [apply IH|]. repeat keeps_step.
Qed.

Lemma keeps_DiscoverLeader ctx : keeps is_attempt (@DiscoverLeader W QR R ctx).
Proof.
  unfold DiscoverLeader, cm_mu.
  do 3 (apply keeps_bind; [repeat keeps_step|]; intros ?).
  apply keeps_bind; [|intros; repeat keeps_step].
  destruct (_ <? _); [apply keeps_ret|apply keeps_discover].
Qed.

Lemma attempt_or_request ev :
  is_attempt ev = true -> is_StatusRequest ev = true \/ is_attempt ev = true.
Proof. auto. Qed.

Lemma request_or_attempt ev :
  is_StatusRequest ev = true ->
  is_StatusRequest ev = true \/ is_attempt ev = true.
Proof. auto. Qed.

(** [connect] and [reconnect] make no attempt of their own. *)
Lemma keeps_connect : keeps is_attempt (@connect W QR R).
Proof.
  unfold connect, c_mu, manager.
  do 2 (apply keeps_bind; [repeat keeps_step|]; intros ?).
  apply keeps_bind; [|intros; repeat keeps_step].
  destruct (Conn.closed _); [apply keeps_ret|].
  apply keeps_bind; [apply keeps_on_field, keeps_DiscoverLeader|].
  intros [err|]; [apply keeps_connectToAnyNode, attempt_or_request|].
  apply keeps_bind; [apply keeps_on_field, keeps_SelectBestNode|].
  intros leader. destruct (negb _);
    [|apply keeps_connectToAnyNode, attempt_or_request].
  apply keeps_bind; [apply keeps_createClient, attempt_or_request|].
  intros [err|client]; [apply keeps_connectToAnyNode, attempt_or_request|].
  repeat keeps_step.
Qed.

Lemma keeps_reconnect : keeps is_attempt (@reconnect W QR R).
Proof.
  unfold reconnect.
  apply keeps_bind; [apply keeps_get|]. intros c.
  apply keeps_bind; [|intros; apply keeps_connect].
  destruct (Conn.client c); repeat keeps_step.
Qed.

End ExecuteFacts.

Section RetryFacts.

Context {W QR : Type} {R : Remote W QR}.

Implicit Types (s : Sys W Conn.t) (rc : M W Conn.t (option error)).

Lemma c_Lock_free s :
  Conn.mu (this s) = unlocked -> c_mu RWMutex_Lock s = Done tt (locked s).
Proof.
  intros H. unfold c_mu, on_mutex, RWMutex_Lock. rewrite H. reflexivity.
Qed.

Lemma c_Unlock_held s :
  Conn.mu (this s) = held -> c_mu RWMutex_Unlock s = Done tt (released s).
Proof.
  intros H. unfold c_mu, on_mutex, RWMutex_Unlock. rewrite H. reflexivity.
Qed.

Lemma c_Lock_held s :
  Conn.mu (this s) = held -> c_mu RWMutex_Lock s = Stuck Blocked s.
Proof.
  intros H. unfold c_mu, on_mutex, RWMutex_Lock. rewrite H. reflexivity.
Qed.

(** One turn of the loop, by what the attempt and [rc] do. *)
Lemma retry_success {A} rc (attempt : Connection -> M W Conn.t (error + A))
    fuel n cl s (r : A) s1 :
  attempt cl s = Done (inr r) s1 ->
  retry rc attempt (S fuel) n (Some cl) s = Done (inr r) s1.
Proof. intros H. simpl. unfold bind. rewrite H. reflexivity. Qed.

(** With the [reconnect] of the source, a failed attempt that is not the
    last one ends the operation: [connect] asks for the mutex that the loop
    took just before, and waits. *)
Lemma reconnect_blocks s :
  Conn.mu (this s) = held ->
  reconnect s
  = Stuck Blocked
      (match Conn.client (this s) with
       | Some cl =>
           mkSys (Conn.set_client None (this s))
             (Connection_Close cl (world s)) (log s ++ [CloseConnection cl])
       | None => s
       end).
Proof.
  intros H.
  unfold reconnect, connect, bind, get, call, modify, ret, c_mu, on_mutex.
  simpl. destruct (Conn.client (this s)) as [cl|]; simpl;
    unfold RWMutex_Lock; rewrite H; reflexivity.
Qed.

Lemma retry_blocks {A} (attempt : Connection -> M W Conn.t (error + A))
    fuel n cl s err s1 :
  n < 2 ->
  attempt cl s = Done (inl err) s1 ->
  Conn.mu (this s1) = unlocked ->
  exists s', retry reconnect attempt (S fuel) n (Some cl) s = Stuck Blocked s'
             /\ List.filter is_attempt (log s') = List.filter is_attempt (log s1)
             /\ status_requests (log s') = status_requests (log s1).
Proof.
  intros Hn H Hmu. simpl. unfold bind at 1. rewrite H.
  apply Z.ltb_lt in Hn. rewrite Hn.
  unfold bind at 1. rewrite (c_Lock_free s1 Hmu).
  unfold bind at 1. rewrite (reconnect_blocks (locked s1)) by reflexivity.
  eexists. split; [reflexivity|].
  unfold status_requests. simpl. destruct (Conn.client (this s1)); simpl.
  - rewrite !List.filter_app. simpl. rewrite !app_nil_r. split; reflexivity.
  - split; reflexivity.
Qed.

Lemma with_client_enter {A} rc
    (attempt : ParameterizedStatement -> Connection -> M W Conn.t (error + A))
    query args s cl :
  Conn.mu (this s) = unlocked ->
  Conn.client (this s) = Some cl ->
  with_client rc attempt query args s
  = retry rc (attempt (mkStatement query (map Value args))) 3 0 (Some cl) s.
Proof.
  intros Hmu Hcl. unfold with_client, bind, c_mu, on_mutex, get.
  rewrite Hmu. simpl. rewrite Hcl.
  replace (mkSys _ _ _) with s; [reflexivity|].
  destruct s as [c w l]; destruct c; simpl in *; subst; reflexivity.
Qed.

Lemma write_attempt_failed stmt cl s e w :
  WriteOneParameterized cl stmt (world s) = (inl e, w) ->
  write_attempt stmt cl s = Done (inl e) (after s (WriteOne cl stmt) w).
Proof.
  intros H. unfold write_attempt, bind, call. rewrite H. reflexivity.
Qed.

Lemma query_attempt_failed stmt cl s e w :
  QueryOneParameterized cl stmt (world s) = (inl e, w) ->
  query_attempt stmt cl s = Done (inl e) (after s (QueryOne cl stmt) w).
Proof.
  intros H. unfold query_attempt, bind, call. rewrite H. reflexivity.
Qed.

End RetryFacts.

Section ExecuteClaims.

Context {W QR : Type} {R : Remote W QR}.

Implicit Types (s : Sys W Conn.t) (rc : M W Conn.t (option error)).

Lemma keeps_bind_at {X A B} P (m : M W X A) (k : A -> M W X B) (s : Sys W X) :
  List.filter P (log (final (m s))) = List.filter P (log s) ->
  (forall a, keeps P (k a)) ->
  List.filter P (log (final (bind m k s))) = List.filter P (log s).
Proof.
  intros Hm Hk. unfold bind.
  destruct (m s) as [a s'|h s']; simpl in *; [|exact Hm].
  rewrite (Hk a s'). exact Hm.
Qed.

(** A throttled [DiscoverLeader] sends nothing, whatever the state of the
    manager's mutex. *)
Lemma DiscoverLeader_fresh_quiet ctx (s : Sys W ClusterManager.t) :
  time.Sub (time_Now (world s)).1 (ClusterManager.lastUpdate (this s))
    < ClusterManager.updateInterval (this s) ->
  log (final (DiscoverLeader ctx s)) = log s.
Proof.
  intros Hfresh. apply Z.ltb_lt in Hfresh.
  unfold DiscoverLeader, bind, cm_mu, on_mutex, ask, get, ret.
  destruct (RWMutex_Lock _) as [h|m]; [reflexivity|]. simpl.
  destruct (time_Now (world s)) as [now w1]. simpl in *.
  rewrite Hfresh. simpl. destruct (RWMutex_Unlock m); reflexivity.
Qed.

Lemma connect_fresh_quiet s :
  time.Sub (time_Now (world s)).1
    (ClusterManager.lastUpdate (Conn.clusterManager (this s)))
    < ClusterManager.updateInterval (Conn.clusterManager (this s)) ->
  status_requests (log (final (connect s))) = status_requests (log s).
Proof.
  intros Hfresh. unfold status_requests, connect.
  unfold bind at 1. unfold c_mu at 1, on_mutex at 1.
  destruct (RWMutex_Lock _) as [h|m]; [reflexivity|].
  unfold bind at 1. unfold get at 1.
  transitivity (List.filter is_StatusRequest
                  (log (mkSys (Conn.set_mu m (this s)) (world s) (log s))));
    [|reflexivity].
  apply keeps_bind_at; [|intros r; unfold c_mu; repeat keeps_step].
  simpl this. destruct (Conn.closed _); [reflexivity|].
  apply keeps_bind_at.
  - unfold manager, on_field. simpl.
    pose proof (DiscoverLeader_fresh_quiet context_Background
                  (mkSys (Conn.clusterManager (this s)) (world s) (log s))
                  Hfresh) as Hq.
    replace (Conn.clusterManager (Conn.set_mu m (this s)))
      with (Conn.clusterManager (this s)) by (destruct (this s); reflexivity).
    destruct (DiscoverLeader _ _) as [a s'|h s']; simpl in *; now rewrite Hq.
  - intros [err|]; [apply keeps_connectToAnyNode, request_or_attempt|].
    apply keeps_bind;
      [apply keeps_on_field, keeps_SelectBestNode|]. intros leader.
    destruct (negb _); [|apply keeps_connectToAnyNode, request_or_attempt].
    apply keeps_bind; [apply keeps_createClient, request_or_attempt|].
    intros [err|client];
      [apply keeps_connectToAnyNode, request_or_attempt|].
    repeat keeps_step.
Qed.

Lemma write_attempt_one stmt cl s :
  (attempts (log (final (write_attempt stmt cl s))) <= attempts (log s) + 1)%nat.
Proof.
  unfold write_attempt, bind, call, ret, attempts.
  destruct (WriteOneParameterized _ _ _) as [[e|wr] w]; simpl;
    rewrite List.filter_app, length_app; simpl; lia.
Qed.

Lemma query_attempt_one stmt cl s :
  (attempts (log (final (query_attempt stmt cl s))) <= attempts (log s) + 1)%nat.
Proof.
  unfold query_attempt, bind, call, ret, attempts.
  destruct (QueryOneParameterized _ _ _) as [[e|qr] w]; simpl;
    rewrite List.filter_app, length_app; simpl; lia.
Qed.

(** As the source has it, a failed attempt that is not the last one is
    where the operation stays: it does not return, and neither a status
    request nor another attempt follows. *)
Lemma ExecContext_blocks_after_failure ctx query args s cl e w :
  Conn.mu (this s) = unlocked ->
  Conn.client (this s) = Some cl ->
  WriteOneParameterized cl (mkStatement query (map Value args)) (world s)
  = (inl e, w) ->
  exists s',
    ExecContext ctx query args s = Stuck Blocked s' /\
    attempts (log s') = (attempts (log s) + 1)%nat /\
    status_requests (log s') = status_requests (log s).
Proof.
  intros Hmu Hcl Hf. unfold ExecContext, ExecContext_with.
  rewrite (with_client_enter _ write_attempt query args s cl Hmu Hcl).
  destruct (retry_blocks (write_attempt (mkStatement query (map Value args)))
              2 0 cl s e _ ltac:(lia)
              (write_attempt_failed _ cl s e w Hf) Hmu)
    as (s' & Hs' & Ha & Hq).
  exists s'. split; [exact Hs'|]. unfold attempts, status_requests in *.
  rewrite Ha, Hq. simpl. rewrite !List.filter_app, length_app. simpl.
  split; [lia|apply app_nil_r].
Qed.

End ExecuteClaims.

(** *** The retry loop at the sample states *)

Example live_connection :
  this (live [] [])
  = Conn.mk cfg_ab (Some client_b) unlocked false
      (ClusterManager.set_view node_b [node_a; node_c] (t2026 + 1)
         (NewClusterManager [node_a; node_b]))
  /\ log (live [] [])
     = [StatusRequest "http://a:4001/status"; Open node_b; Select1 client_b].
Proof. split; vm_compute; reflexivity. Qed.

(** C2 (retries exhausted).  On the live connection the cluster fails
    three writes in a row.  [ExecContext] reports no failure for the
    exhausted retries, nor anything else: after the first failed attempt it
    takes [c.mu], closes and drops the client in [reconnect], and waits for
    [c.mu] in [connect].  One attempt has been made; the second and the third
    failure are never asked for.  [QueryContext] does the same with three
    failing queries. *)
Theorem three_failures_never_reported :
  let blocked (s : Sys Scripted Conn.t) (ev : event) ws qs :=
    mkSys (Conn.set_client None (Conn.set_mu held (this s)))
      (mkScripted (clock (world s)) (statuses (world s)) (up (world s)) ws qs)
      (log s ++ [ev; CloseConnection client_b]) in
  ExecContext context_Background (Query insert) [] (live failures [])
  = Stuck Blocked
      (blocked (live failures []) (WriteOne client_b insert)
         [inl err2; inl err3] [])
  /\ QueryContext context_Background (Query insert) [] (live [] failures)
     = Stuck Blocked
         (blocked (live [] failures) (QueryOne client_b insert)
            [] [inl err2; inl err3])
  /\ attempts
       (log (final (ExecContext context_Background (Query insert) []
                      (live failures [])))) = 1%nat
  /\ attempts
       (log (final (QueryContext context_Background (Query insert) []
                      (live [] failures)))) = 1%nat.
Proof.
  intros blocked. repeat split; vm_compute; reflexivity.
Qed.

(** C3 (bounded retry).  A minute after the connection was made, with a
    view older than [updateInterval], a write fails; the cluster would
    answer a status request and accept the write at the second attempt.
    [ExecContext] makes no second attempt, sends no status request and
    brings no reconnect to an end: it closes and drops the client and waits
    for [c.mu] in [connect], the accepted write left unasked.  With every
    node gone, the error of the reconnect is not returned either:
    [ExecContext] and [QueryContext] wait in the same place. *)
Theorem failed_attempt_is_not_retried :
  let later :=
    mkSys (this (live [] []))
      (cluster (t2026 + 60 * time.Second) [node_a; node_b]
         [inl err1; inr one_row] [])
      (log (live [] [])) in
  let blocked (s : Sys Scripted Conn.t) (ev : event) (w : Scripted) :=
    mkSys (Conn.set_client None (Conn.set_mu held (this s))) w
      (log s ++ [ev; CloseConnection client_b]) in
  ClusterManager.updateInterval (Conn.clusterManager (this later))
  <= time.Sub (time_Now (world later)).1
       (ClusterManager.lastUpdate (Conn.clusterManager (this later)))
  /\ ExecContext context_Background (Query insert) [] later
     = Stuck Blocked
         (blocked later (WriteOne client_b insert)
            (cluster (t2026 + 60 * time.Second) [node_a; node_b]
               [inr one_row] []))
  /\ status_requests
       (log (final (ExecContext context_Background (Query insert) [] later)))
     = status_requests (log later)
  /\ ExecContext context_Background (Query insert) [] orphaned
     = Stuck Blocked
         (blocked orphaned (WriteOne client_b insert) (world orphaned))
  /\ QueryContext context_Background (Query insert) [] orphaned
     = Stuck Blocked
         (blocked orphaned (QueryOne client_b insert) (world orphaned)).
Proof.
  intros later blocked. split; [vm_compute; discriminate|].
  repeat split; vm_compute; reflexivity.
Qed.

(** ** Connection strings: the parameter section *)

Section SplitFacts.

Lemma HasPrefix_nil s : strings.HasPrefix s EmptyString = true.
Proof. destruct s; reflexivity. Qed.

Lemma HasPrefix_one a s c :
  strings.HasPrefix (String a s) (String c EmptyString) = Ascii.eqb c a.
Proof. simpl. destruct (Ascii.eqb c a); [apply HasPrefix_nil|reflexivity]. Qed.

Lemma Contains_nil c : strings.Contains EmptyString (String c EmptyString) = false.
Proof. reflexivity. Qed.

Lemma Contains_cons c a s :
  strings.Contains (String a s) (String c EmptyString)
  = Ascii.eqb c a || strings.Contains s (String c EmptyString).
Proof.
  change (strings.Contains (String a s) (String c EmptyString))
    with (strings.HasPrefix (String a s) (String c EmptyString) || strings.Contains s (String c EmptyString)).
  now rewrite HasPrefix_one.
Qed.

Lemma Contains_app c s t :
  strings.Contains (s +:+ t) (String c EmptyString)
  = strings.Contains s (String c EmptyString) || strings.Contains t (String c EmptyString).
Proof.
  induction s as [|a s IH].
  - reflexivity.
  - change (String a s +:+ t) with (String a (s +:+ t)).
    rewrite !Contains_cons, IH. apply orb_assoc.
Qed.

Lemma append_end s a t : (s +:+ String a EmptyString) +:+ t = s +:+ String a t.
Proof.
  induction s as [|b s IH]; [reflexivity|].
  change (String b ((s +:+ String a EmptyString) +:+ t) = String b (s +:+ String a t)).
  now rewrite IH.
Qed.

Lemma append_empty s : s +:+ EmptyString = s.
Proof.
  induction s as [|b s IH]; [reflexivity|].
  change (String b (s +:+ EmptyString) = String b s). now rewrite IH.
Qed.

Lemma split_scan_lacks c s : forall cur,
  strings.Contains s (String c EmptyString) = false ->
  strings.split_scan (String c EmptyString) 0 cur s = [cur +:+ s].
Proof.
  induction s as [|a s IH]; intros cur H.
  - simpl. now rewrite append_empty.
  - rewrite Contains_cons in H. apply orb_false_iff in H as [Ha Hs].
    change (strings.split_scan (String c EmptyString) 0 cur (String a s))
      with (if strings.HasPrefix (String a s) (String c EmptyString)
            then cur :: strings.split_scan (String c EmptyString) 0 EmptyString s
            else strings.split_scan (String c EmptyString) 0 (cur +:+ String a EmptyString) s).
    rewrite HasPrefix_one, Ha, IH by exact Hs. now rewrite append_end.
Qed.

Lemma split_scan_sep c s : forall cur t,
  strings.Contains s (String c EmptyString) = false ->
  strings.split_scan (String c EmptyString) 0 cur (s +:+ String c t)
  = (cur +:+ s) :: strings.split_scan (String c EmptyString) 0 EmptyString t.
Proof.
  induction s as [|a s IH]; intros cur t H.
  - change (EmptyString +:+ String c t) with (String c t).
    change (strings.split_scan (String c EmptyString) 0 cur (String c t))
      with (if strings.HasPrefix (String c t) (String c EmptyString)
            then cur :: strings.split_scan (String c EmptyString) 0 EmptyString t
            else strings.split_scan (String c EmptyString) 0 (cur +:+ String c EmptyString) t).
    rewrite HasPrefix_one, Ascii.eqb_refl. now rewrite append_empty.
  - rewrite Contains_cons in H. apply orb_false_iff in H as [Ha Hs].
    change (String a s +:+ String c t) with (String a (s +:+ String c t)).
    change (strings.split_scan (String c EmptyString) 0 cur (String a (s +:+ String c t)))
      with (if strings.HasPrefix (String a (s +:+ String c t)) (String c EmptyString)
            then cur :: strings.split_scan (String c EmptyString) 0 EmptyString
                          (s +:+ String c t)
            else strings.split_scan (String c EmptyString) 0 (cur +:+ String a EmptyString)
                   (s +:+ String c t)).
    rewrite HasPrefix_one, Ha, IH by exact Hs. now rewrite append_end.
Qed.

Lemma Split_lacks c s :
  strings.Contains s (String c EmptyString) = false -> strings.Split s (String c EmptyString) = [s].
Proof. intros H. unfold strings.Split. now rewrite split_scan_lacks. Qed.

Lemma Split_sep c s t :
  strings.Contains s (String c EmptyString) = false ->
  strings.Split (s +:+ String c t) (String c EmptyString) = s :: strings.Split t (String c EmptyString).
Proof. intros H. unfold strings.Split. now rewrite split_scan_sep. Qed.

Lemma Split_Join c l :
  l <> [] ->
  Forall (fun x => strings.Contains x (String c EmptyString) = false) l ->
  strings.Split (Join l (String c EmptyString)) (String c EmptyString) = l.
Proof.
  intros Hne H. induction H as [|x l Hx Hl IH]; [congruence|].
  destruct l as [|y l].
  - simpl. now apply Split_lacks.
  - change (Join (x :: y :: l) (String c EmptyString))
      with (x +:+ String c (Join (y :: l) (String c EmptyString))).
    rewrite Split_sep by exact Hx. rewrite IH; [reflexivity|discriminate].
Qed.

Lemma Contains_Join c d l :
  Ascii.eqb c d = false ->
  Forall (fun x => strings.Contains x (String c EmptyString) = false) l ->
  strings.Contains (Join l (String d EmptyString)) (String c EmptyString) = false.
Proof.
  intros Hcd H. induction H as [|x l Hx Hl IH]; [reflexivity|].
  destruct l as [|y l]; [exact Hx|].
  change (Join (x :: y :: l) (String d EmptyString))
    with (x +:+ String d (Join (y :: l) (String d EmptyString))).
  rewrite Contains_app, Contains_cons, Hx, Hcd, IH. reflexivity.
Qed.

Lemma HasPrefix_before c p : forall s t,
  strings.Contains p (String c EmptyString) = false ->
  strings.HasPrefix (s +:+ String c t) p = strings.HasPrefix s p.
Proof.
  induction p as [|x p IH]; intros s t H.
  - now rewrite !HasPrefix_nil.
  - rewrite Contains_cons in H. apply orb_false_iff in H as [Hx Hp].
    destruct s as [|y s].
    + simpl. rewrite Ascii.eqb_sym, Hx. reflexivity.
    + change (String y s +:+ String c t) with (String y (s +:+ String c t)).
      simpl. destruct (Ascii.eqb x y); [now apply IH|reflexivity].
Qed.

Lemma drop_prefix p : forall s t,
  strings.HasPrefix s p = true ->
  strings.drop (String.length p) (s +:+ t)
  = strings.drop (String.length p) s +:+ t.
Proof.
  induction p as [|x p IH]; intros s t H; [reflexivity|].
  destruct s as [|y s]; [discriminate|]. simpl in H.
  destruct (Ascii.eqb x y); [|discriminate].
  change (String y s +:+ t) with (String y (s +:+ t)). simpl. now apply IH.
Qed.

Lemma TrimPrefix_before c p s t :
  strings.Contains p (String c EmptyString) = false ->
  strings.TrimPrefix (s +:+ String c t) p
  = strings.TrimPrefix s p +:+ String c t.
Proof.
  intros H. unfold strings.TrimPrefix. rewrite HasPrefix_before by exact H.
  destruct (strings.HasPrefix s p) eqn:E; [now apply drop_prefix|reflexivity].
Qed.

Lemma Contains_drop c n : forall s,
  strings.Contains s (String c EmptyString) = false ->
  strings.Contains (strings.drop n s) (String c EmptyString) = false.
Proof.
  induction n as [|n IH]; intros s H; [destruct s; exact H|].
  destruct s as [|a s]; [reflexivity|].
  rewrite Contains_cons in H. apply orb_false_iff in H as [_ Hs].
  simpl. now apply IH.
Qed.

Lemma Contains_TrimPrefix c p s :
  strings.Contains s (String c EmptyString) = false ->
  strings.Contains (strings.TrimPrefix s p) (String c EmptyString) = false.
Proof.
  intros H. unfold strings.TrimPrefix.
  destruct (strings.HasPrefix s p); [now apply Contains_drop|exact H].
Qed.

Lemma split_scan_nonempty sep s : forall skip cur,
  strings.split_scan sep skip cur s <> [].
Proof.
  induction s as [|a s IH]; intros skip cur; [discriminate|].
  destruct skip as [|k]; [|apply IH].
  change (strings.split_scan sep 0 cur (String a s))
    with (if strings.HasPrefix (String a s) sep
          then cur :: strings.split_scan sep (String.length sep - 1)
                        EmptyString s
          else strings.split_scan sep 0 (cur +:+ String a EmptyString) s).
  destruct (strings.HasPrefix (String a s) sep); [discriminate|apply IH].
Qed.

Lemma app_last_cons x l v : l <> [] -> app_last (x :: l) v = x :: app_last l v.
Proof. destruct l; [congruence|reflexivity]. Qed.

(** A tail without the separator goes to the last piece. *)
Lemma split_scan_tail c v :
  strings.Contains v (String c EmptyString) = false ->
  forall u cur,
    strings.split_scan (String c EmptyString) 0 cur (u +:+ v)
    = app_last (strings.split_scan (String c EmptyString) 0 cur u) v.
Proof.
  intros Hv. induction u as [|a u IH]; intros cur.
  - change (EmptyString +:+ v) with v. now rewrite split_scan_lacks.
  - change (String a u +:+ v) with (String a (u +:+ v)).
    change (strings.split_scan (String c EmptyString) 0 cur (String a (u +:+ v)))
      with (if strings.HasPrefix (String a (u +:+ v)) (String c EmptyString)
            then cur :: strings.split_scan (String c EmptyString) 0 EmptyString
                          (u +:+ v)
            else strings.split_scan (String c EmptyString) 0
                   (cur +:+ String a EmptyString) (u +:+ v)).
    change (strings.split_scan (String c EmptyString) 0 cur (String a u))
      with (if strings.HasPrefix (String a u) (String c EmptyString)
            then cur :: strings.split_scan (String c EmptyString) 0 EmptyString u
            else strings.split_scan (String c EmptyString) 0
                   (cur +:+ String a EmptyString) u).
    rewrite !HasPrefix_one. destruct (Ascii.eqb c a).
    + rewrite IH, app_last_cons; [reflexivity|apply split_scan_nonempty].
    + apply IH.
Qed.

(** A separator splits the scan in two. *)
Lemma split_scan_at c t : forall s cur,
  strings.split_scan (String c EmptyString) 0 cur (s +:+ String c t)
  = strings.split_scan (String c EmptyString) 0 cur s
    ++ strings.split_scan (String c EmptyString) 0 EmptyString t.
Proof.
  induction s as [|a s IH]; intros cur.
  - change (EmptyString +:+ String c t) with (String c t).
    change (strings.split_scan (String c EmptyString) 0 cur (String c t))
      with (if strings.HasPrefix (String c t) (String c EmptyString)
            then cur :: strings.split_scan (String c EmptyString) 0 EmptyString t
            else strings.split_scan (String c EmptyString) 0
                   (cur +:+ String c EmptyString) t).
    now rewrite HasPrefix_one, Ascii.eqb_refl.
  - change (String a s +:+ String c t) with (String a (s +:+ String c t)).
    change (strings.split_scan (String c EmptyString) 0 cur
              (String a (s +:+ String c t)))
      with (if strings.HasPrefix (String a (s +:+ String c t))
                 (String c EmptyString)
            then cur :: strings.split_scan (String c EmptyString) 0 EmptyString
                          (s +:+ String c t)
            else strings.split_scan (String c EmptyString) 0
                   (cur +:+ String a EmptyString) (s +:+ String c t)).
    change (strings.split_scan (String c EmptyString) 0 cur (String a s))
      with (if strings.HasPrefix (String a s) (String c EmptyString)
            then cur :: strings.split_scan (String c EmptyString) 0 EmptyString s
            else strings.split_scan (String c EmptyString) 0
                   (cur +:+ String a EmptyString) s).
    rewrite !HasPrefix_one. destruct (Ascii.eqb c a); now rewrite IH.
Qed.

Lemma Split_tail c u v :
  strings.Contains v (String c EmptyString) = false ->
  strings.Split (u +:+ v) (String c EmptyString)
  = app_last (strings.Split u (String c EmptyString)) v.
Proof. intros H. unfold strings.Split. now apply split_scan_tail. Qed.

Lemma Split_at c s t :
  strings.Split (s +:+ String c t) (String c EmptyString)
  = strings.Split s (String c EmptyString)
    ++ strings.Split t (String c EmptyString).
Proof. unfold strings.Split. apply split_scan_at. Qed.

Lemma append_assoc s t u : (s +:+ t) +:+ u = s +:+ (t +:+ u).
Proof.
  induction s as [|a s IH]; [reflexivity|].
  change (String a ((s +:+ t) +:+ u) = String a (s +:+ (t +:+ u))).
  now rewrite IH.
Qed.

End SplitFacts.

Section ParameterClaims.

Variable ParseDuration : string -> option time.Duration.

(** A pair that does not split in two leaves the configuration alone. *)
Lemma parseParam_malformed cfg pair :
  length (strings.Split pair "=") <> 2%nat ->
  parseParam ParseDuration cfg pair = cfg.
Proof.
  intros H. unfold parseParam.
  destruct (strings.Split pair "=") as [|key [|value [|x l]]]; try reflexivity.
  now contradiction H.
Qed.

Lemma parseParams_skip cfg before pair after :
  length (strings.Split pair "=") <> 2%nat ->
  parseParams ParseDuration cfg (before ++ pair :: after)
  = parseParams ParseDuration cfg (before ++ after).
Proof.
  intros H. unfold parseParams. rewrite !fold_left_app. simpl.
  now rewrite parseParam_malformed.
Qed.

(** The parameters, once the credentials are off: [dsn?params] goes to the
    nodes section with the configuration that the loop over the pairs makes,
    or fails for the number of [?] in [dsn]. *)
Lemma parameters_stage cfg dsn :
  exists finish : Config -> error + Config,
    forall params,
      strings.Contains params "?" = false ->
      (let dsn := dsn +:+ String "?" params in
       match
         (if strings.Contains dsn "?" then
            match strings.Split dsn "?" with
            | [dsn'; params] =>
                inr (parseParams ParseDuration cfg (strings.Split params "&"),
                     dsn')
            | _ => inl (errors_New "invalid dsn format")
            end
          else inr (cfg, dsn))
       with
       | inl e => inl e
       | inr (cfg, dsn) => nodes_section cfg dsn
       end)
      = finish (parseParams ParseDuration cfg (strings.Split params "&")).
Proof.
  destruct (strings.Split dsn "?") as [|dsn' [|x l]] eqn:E.
  - exists (fun _ => inl (errors_New "invalid dsn format")).
    intros params Hq. cbv zeta.
    rewrite (Contains_app "?"), (Contains_cons "?"), Ascii.eqb_refl, orb_true_r.
    rewrite (Split_at "?"), E, (Split_lacks "?") by exact Hq. reflexivity.
  - exists (fun cfg' => nodes_section cfg' dsn').
    intros params Hq. cbv zeta.
    rewrite (Contains_app "?"), (Contains_cons "?"), Ascii.eqb_refl, orb_true_r.
    rewrite (Split_at "?"), E, (Split_lacks "?") by exact Hq. reflexivity.
  - exists (fun _ => inl (errors_New "invalid dsn format")).
    intros params Hq. cbv zeta.
    rewrite (Contains_app "?"), (Contains_cons "?"), Ascii.eqb_refl, orb_true_r.
    rewrite (Split_at "?"), E, (Split_lacks "?") by exact Hq.
    destruct l; reflexivity.
Qed.

(** What the parameter section contributes: whatever stands before the last
    [?], the connection string [front?params] parses to a function of the
    configuration that the loop over the pairs produces from the one the
    credentials left. *)
Lemma ParseDSN_parameter_section front :
  exists (cfg0 : Config) (finish : Config -> error + Config),
    forall params,
      strings.Contains params "@" = false ->
      strings.Contains params "?" = false ->
      ParseDSN ParseDuration (front +:+ "?" +:+ params)
      = finish (parseParams ParseDuration cfg0 (strings.Split params "&")).
Proof.
  set (front' := strings.TrimPrefix (strings.TrimPrefix front "sqlite://")
                   "rqlite://").
  set (cfg := mkConfig [] EmptyString EmptyString (30 * time.Second) "weak").
  assert (Hhead : forall params,
            ParseDSN ParseDuration (front +:+ "?" +:+ params)
            = let dsn := front' +:+ String "?" params in
              match
                (if strings.Contains dsn "@" then
                   match strings.Split dsn "@" with
                   | [authPart; dsn'] =>
                       if strings.Contains authPart ":" then
                         let authParts := strings.Split authPart ":" in
                         inr (mkConfig (Nodes cfg) (nth 0 authParts EmptyString)
                                (nth 1 authParts EmptyString) (Timeout cfg)
                                (ConsistencyLevel cfg), dsn')
                       else
                         inr (mkConfig (Nodes cfg) authPart (Password cfg)
                                (Timeout cfg) (ConsistencyLevel cfg), dsn')
                   | _ => inl (errors_New "invalid dsn format")
                   end
                 else inr (cfg, dsn))
              with
              | inl e => inl e
              | inr (cfg, dsn) =>
                  match
                    (if strings.Contains dsn "?" then
                       match strings.Split dsn "?" with
                       | [dsn'; params] =>
                           inr (parseParams ParseDuration cfg
                                  (strings.Split params "&"), dsn')
                       | _ => inl (errors_New "invalid dsn format")
                       end
                     else inr (cfg, dsn))
                  with
                  | inl e => inl e
                  | inr (cfg, dsn) => nodes_section cfg dsn
                  end
              end).
  { intros params. unfold ParseDSN.
    change (front +:+ "?" +:+ params) with (front +:+ String "?" params).
    replace (String.eqb (front +:+ String "?" params) EmptyString) with false
      by (destruct front; reflexivity).
    rewrite !TrimPrefix_before by reflexivity. reflexivity. }
  destruct (strings.Contains front' "@") eqn:Hat.
  - destruct (strings.Split front' "@") as [|authPart [|host [|x l]]] eqn:E.
    + exists cfg, (fun _ => inl (errors_New "invalid dsn format")).
      intros params Hpat Hpq. rewrite Hhead. cbv zeta.
      rewrite (Contains_app "@"), Hat. simpl orb. cbv iota.
      rewrite (Split_tail "@"), E; [reflexivity|].
      now rewrite (Contains_cons "@"), Hpat.
    + exists cfg, (fun _ => inl (errors_New "invalid dsn format")).
      intros params Hpat Hpq. rewrite Hhead. cbv zeta.
      rewrite (Contains_app "@"), Hat. simpl orb. cbv iota.
      rewrite (Split_tail "@"), E; [reflexivity|].
      now rewrite (Contains_cons "@"), Hpat.
    + set (cfgA :=
             if strings.Contains authPart ":" then
               mkConfig (Nodes cfg)
                 (nth 0 (strings.Split authPart ":") EmptyString)
                 (nth 1 (strings.Split authPart ":") EmptyString)
                 (Timeout cfg) (ConsistencyLevel cfg)
             else
               mkConfig (Nodes cfg) authPart (Password cfg) (Timeout cfg)
                 (ConsistencyLevel cfg)).
      destruct (parameters_stage cfgA host) as [finish Hfinish].
      exists cfgA, finish.
      intros params Hpat Hpq. rewrite Hhead. cbv zeta.
      rewrite (Contains_app "@"), Hat. simpl orb. cbv iota.
      rewrite (Split_tail "@"), E by now rewrite (Contains_cons "@"), Hpat.
      simpl app_last. rewrite <- (Hfinish params Hpq). cbv zeta.
      subst cfgA. destruct (strings.Contains authPart ":"); reflexivity.
    + exists cfg, (fun _ => inl (errors_New "invalid dsn format")).
      intros params Hpat Hpq. rewrite Hhead. cbv zeta.
      rewrite (Contains_app "@"), Hat. simpl orb. cbv iota.
      rewrite (Split_tail "@"), E by now rewrite (Contains_cons "@"), Hpat.
      rewrite !app_last_cons by discriminate. destruct l; reflexivity.
  - destruct (parameters_stage cfg front') as [finish Hfinish].
    exists cfg, finish.
    intros params Hpat Hpq. rewrite Hhead. cbv zeta.
    rewrite (Contains_app "@"), Hat, (Contains_cons "@"), Hpat. simpl orb.
    cbv iota. rewrite <- (Hfinish params Hpq). reflexivity.
Qed.

(** C9 (malformed pairs), as amended.  A pair of the parameter section that
    does not split into exactly two parts on [=] is passed over: it leaves
    the configuration as the pairs before it made it, and the connection
    string, whatever stands before its parameter section, parses to the very
    result, success or failure, of the same string without that pair. *)
Theorem malformed_pair_is_skipped front before pair after :
  Forall plain (before ++ pair :: after) ->
  length (strings.Split pair "=") <> 2%nat ->
  (forall cfg,
     parseParams ParseDuration cfg (before ++ pair :: after)
     = parseParams ParseDuration cfg (before ++ after))
  /\ ParseDSN ParseDuration
       (front +:+ "?" +:+ Join (before ++ pair :: after) "&")
     = ParseDSN ParseDuration (front +:+ "?" +:+ Join (before ++ after) "&").
Proof.
  intros Hplain Hbad.
  split; [intros cfg; now apply parseParams_skip|].
  assert (Hrest : Forall plain (before ++ after)).
  { apply Forall_app in Hplain as [Hb Ha]. apply Forall_app. split; [exact Hb|].
    now inversion Ha. }
  assert (Hpart : forall c l, Forall plain l ->
            (c = "@"%char \/ c = "?"%char) ->
            strings.Contains (Join l "&") (String c EmptyString) = false).
  { intros c l Hl Hc. apply Contains_Join.
    - destruct Hc as [-> | ->]; reflexivity.
    - eapply Forall_impl; [exact Hl|]. intros x (H1 & H2 & H3).
      destruct Hc as [-> | ->]; assumption. }
  assert (Hamp : forall l, Forall plain l ->
            Forall (fun x => strings.Contains x "&" = false) l).
  { intros l Hl. eapply Forall_impl; [exact Hl|]. now intros x (_ & _ & H3). }
  destruct (ParseDSN_parameter_section front) as (cfg0 & finish & Hfinish).
  rewrite !Hfinish by (apply Hpart; auto).
  f_equal.
  rewrite (Split_Join "&") by (try apply Hamp; auto using app_cons_not_nil).
  rewrite parseParams_skip by exact Hbad.
  pose proof (Hamp _ Hrest) as Hrest'.
  destruct (before ++ after) as [|x l].
  - reflexivity.
  - rewrite (Split_Join "&"); [reflexivity|discriminate|exact Hrest'].
Qed.

End ParameterClaims.

(** C9 as stated fails: a name without [=], an empty pair and a pair with
    two [=] are each passed over, and the connection string parses. *)
Lemma ParseDSN_accepts_malformed_pairs :
  length (strings.Split "consistency" "=") <> 2%nat
  /\ length (strings.Split "" "=") <> 2%nat
  /\ length (strings.Split "a=b=c" "=") <> 2%nat
  /\ ParseDSN time.ParseDuration_whole "host1:4001?consistency"
     = inr (mkConfig ["http://host1:4001"] EmptyString EmptyString
              (30 * time.Second) "weak")
  /\ ParseDSN time.ParseDuration_whole "host1:4001?"
     = inr (mkConfig ["http://host1:4001"] EmptyString EmptyString
              (30 * time.Second) "weak")
  /\ ParseDSN time.ParseDuration_whole
       "host1:4001?timeout=5s&a=b=c&&consistency=none"
     = inr (mkConfig ["http://host1:4001"] EmptyString EmptyString
              (5 * time.Second) "none").
Proof. repeat split; vm_compute; (discriminate || reflexivity). Qed.

(** C9, amended, at a connection string with a pair that has no [=]. *)
Lemma malformed_pair_is_skipped_witness :
  ParseDSN time.ParseDuration_whole
    ("user:pass@host1:4001" +:+ "?"
     +:+ Join ["timeout=5s"; "consistency"; "x=1"] "&")
  = ParseDSN time.ParseDuration_whole
      ("user:pass@host1:4001" +:+ "?" +:+ Join ["timeout=5s"; "x=1"] "&").
Proof.
  apply (malformed_pair_is_skipped time.ParseDuration_whole
           "user:pass@host1:4001" ["timeout=5s"] "consistency" ["x=1"]).
  - repeat constructor.
  - vm_compute. discriminate.
Defined.

(** * Further properties of the code *)

(** ** leader.go *)

Section LeaderMore.

Context {W QR : Type} {R : Remote W QR}.

Implicit Types (s : Sys W ClusterManager.t) (cm : ClusterManager.t).

Lemma read_status_success answer l p :
  read_status answer = inr (l, p) ->
  l <> EmptyString /\
  exists resp status cluster,
    answer = inr resp /\ StatusCode resp = 200 /\ Body resp = inr status /\
    member "cluster" status = Some (JObject cluster) /\
    member "leader" cluster = Some (JString l) /\
    p = match member "peers" cluster with
        | Some (JArray items) => string_items items
        | _ => []
        end.
Proof.
  unfold read_status. destruct answer as [err|resp]; [discriminate|].
  destruct (StatusCode resp =? 200) eqn:Hcode; [|discriminate]. simpl.
  destruct (Body resp) as [err|status] eqn:Hbody; [discriminate|].
  destruct (member "cluster" status) as [[| | | | |cluster]|] eqn:Hcl;
    try discriminate.
  destruct (member "leader" cluster) as [[| | |ld| |]|] eqn:Hld;
    try discriminate.
  destruct (String.eqb_spec ld EmptyString) as [|Hne]; [discriminate|].
  intros H. inversion H; subst. split; [exact Hne|].
  exists resp, status, cluster. apply Z.eqb_eq in Hcode. auto 10.
Qed.

(** X1.  A probe that succeeds has sent exactly one request, left the
    manager alone, and read its answer off a response with status 200 whose
    [cluster] member is an object with a non-empty string [leader]; the
    peers are the strings of its [peers] array, none when that member is
    missing or no array. *)
Theorem queryNodeStatus_success ctx node s l p s' :
  queryNodeStatus ctx node s = Done (inr (l, p)) s' ->
  l <> EmptyString /\ this s' = this s /\
  log s' = log s ++ [StatusRequest (node +:+ "/status")%string] /\
  exists resp status cluster,
    (http_Do (ClusterManager.client (this s)) ctx
       (node +:+ "/status")%string (world s)).1 = inr resp /\
    StatusCode resp = 200 /\ Body resp = inr status /\
    member "cluster" status = Some (JObject cluster) /\
    member "leader" cluster = Some (JString l) /\
    p = match member "peers" cluster with
        | Some (JArray items) => string_items items
        | _ => []
        end.
Proof.
  rewrite queryNodeStatus_probe. intros H. inversion H as [[Hr Hs]].
  unfold probe in Hr.
  destruct (http_Do _ _ _ _) as [answer w'] eqn:Hdo. simpl in Hr.
  apply read_status_success in Hr as (Hne & resp & status & cluster & Ha & Hrest).
  split; [exact Hne|]. split; [reflexivity|]. split; [reflexivity|].
  exists resp, status, cluster. simpl. subst answer. exact (conj eq_refl Hrest).
Qed.

(** The loop returns, and either fails with the manager as it was or
    installs a view with a leader. *)
Lemma discover_outcome ctx nodes : forall lastErr s,
  exists r s',
    discover ctx nodes lastErr s = Done r s' /\
    ((exists e, r = Some e) /\ this s' = this s
     \/ r = None /\ exists l p t,
          l <> EmptyString /\ this s' = ClusterManager.set_view l p t (this s)).
Proof.
  induction nodes as [|node nodes IH]; intros lastErr s; simpl.
  - eexists _, _. split; [reflexivity|]. left. eauto.
  - unfold bind. rewrite queryNodeStatus_probe.
    destruct (probe _ _ _ _).1 as [err|[l p]] eqn:Hp.
    + destruct (IH (Some err) (after s (StatusRequest (node +:+ "/status")%string)
                                  (probe (ClusterManager.client (this s)) ctx
                                     node (world s)).2))
        as (r & s' & Heq & Hcases).
      exists r, s'. split; [exact Heq|exact Hcases].
    + unfold probe in Hp.
      destruct (http_Do _ _ _ _) as [answer w'] eqn:Hdo. simpl in Hp.
      apply read_status_success in Hp as [Hne _].
      unfold ask, modify, ret, after. simpl.
      destruct (time_Now _) as [now w'']. simpl.
      eexists _, _. split; [reflexivity|]. right. split; [reflexivity|].
      exists l, p, now. split; [exact Hne|reflexivity].
Qed.

(** What [DiscoverLeader] leaves of the manager. *)
Lemma DiscoverLeader_returns ctx s :
  ClusterManager.mu (this s) = unlocked ->
  exists r s',
    DiscoverLeader ctx s = Done r s' /\
    ClusterManager.mu (this s') = unlocked /\
    ClusterManager.nodes (this s') = ClusterManager.nodes (this s) /\
    ClusterManager.updateInterval (this s')
    = ClusterManager.updateInterval (this s) /\
    ClusterManager.client (this s') = ClusterManager.client (this s) /\
    (r <> None -> this s' = this s) /\
    (ClusterManager.leader (this s) <> EmptyString ->
     ClusterManager.leader (this s') <> EmptyString).
Proof.
  intros Hmu. rewrite (DiscoverLeader_unfold ctx s Hmu). simpl.
  destruct (time_Now (world s)) as [now w1].
  assert (Hback : ClusterManager.set_mu unlocked
                    (ClusterManager.set_mu held (this s)) = this s).
  { destruct (this s); simpl in *; subst; reflexivity. }
  destruct (_ <? _).
  - unfold ret. simpl. eexists _, _. split; [reflexivity|]. simpl.
    change (mkRWMutex false 0) with unlocked. rewrite Hback. auto 10.
  - destruct (discover_outcome ctx (ClusterManager.nodes (this s)) None
                (mkSys (ClusterManager.set_mu held (this s)) w1 (log s)))
      as (r & s' & Heq & Hcases).
    rewrite Heq. simpl in Hcases.
    destruct Hcases as [[[e ->] Hsame] | [-> (l & p & t & Hne & Hview)]].
    + rewrite Hsame. simpl. eexists _, _. split; [reflexivity|]. simpl.
      change (mkRWMutex false 0) with unlocked. rewrite Hback. auto 10.
    + rewrite Hview. simpl. eexists _, _. split; [reflexivity|]. simpl.
      repeat split; try reflexivity; [congruence|auto].
Qed.

(** X2.  From a free mutex [DiscoverLeader] returns with the mutex free
    again; it never changes the seed list, the interval or the HTTP client;
    when it returns an error the manager is exactly as it was; and a leader
    that was known is never replaced by an empty one. *)
Theorem DiscoverLeader_outcome ctx s :
  ClusterManager.mu (this s) = unlocked ->
  exists r s',
    DiscoverLeader ctx s = Done r s' /\
    ClusterManager.mu (this s') = unlocked /\
    ClusterManager.nodes (this s') = ClusterManager.nodes (this s) /\
    ClusterManager.updateInterval (this s')
    = ClusterManager.updateInterval (this s) /\
    ClusterManager.client (this s') = ClusterManager.client (this s) /\
    (r <> None -> this s' = this s) /\
    (ClusterManager.leader (this s) <> EmptyString ->
     ClusterManager.leader (this s') <> EmptyString).
Proof. apply DiscoverLeader_returns. Qed.

(** X3.  [ForceRefresh] is not held back by the throttle: whatever
    [lastUpdate] is, it probes the seed list and installs the view of the
    first node that answers (the clock only has to read at least one
    interval past the zero time, to which [lastUpdate] is reset). *)
Theorem ForceRefresh_bypasses_throttle ctx s now w1 pre node post w2 last l p :
  ClusterManager.mu (this s) = unlocked ->
  time_Now (world s) = (now, w1) ->
  ClusterManager.updateInterval (this s) <= time.Sub now time.zeroTime ->
  ClusterManager.nodes (this s) = pre ++ node :: post ->
  all_fail (ClusterManager.client (this s)) ctx pre w1 None w2 last ->
  (probe (ClusterManager.client (this s)) ctx node w2).1 = inr (l, p) ->
  let w3 := (probe (ClusterManager.client (this s)) ctx node w2).2 in
  ForceRefresh ctx s
  = Done None
      (mkSys (ClusterManager.set_view l p (time_Now w3).1 (this s))
         (time_Now w3).2 (log s ++ probes (pre ++ [node]))).
Proof.
  intros Hmu Hnow Hstale Hnodes Hfail Hok w3.
  unfold ForceRefresh. unfold bind at 1. rewrite (cm_Lock_free s Hmu).
  unfold bind, modify, cm_mu, on_mutex. simpl.
  rewrite DiscoverLeader_unfold; [|reflexivity]. simpl. rewrite Hnow.
  apply Z.ltb_ge in Hstale. rewrite Hstale, Hnodes.
  rewrite (discover_first_success ctx pre node post (mkSys _ w1 (log s))
             None w2 last l p); [|exact Hfail|exact Hok].
  simpl. fold w3. destruct (this s); simpl in *; subst; reflexivity.
Qed.

Lemma GetLeader_reads s :
  writer (ClusterManager.mu (this s)) = false ->
  GetLeader s = Done (ClusterManager.leader (this s)) s.
Proof.
  intros Hw. unfold GetLeader, bind, cm_mu, on_mutex, RWMutex_RLock, get, ret.
  rewrite Hw. simpl.
  destruct s as [cm w l]; destruct cm as [? ? ? [wr rd] ? ? ?];
    simpl in *; subst; reflexivity.
Qed.

(** X4.  [IsLeaderHealthy] answers false without any remote call when no
    leader is known; otherwise it opens a connection to the leader, and a
    connection it has opened is closed again whatever the liveness query
    returned; the manager is never changed. *)
Theorem IsLeaderHealthy_closes ctx s :
  writer (ClusterManager.mu (this s)) = false ->
  (ClusterManager.leader (this s) = EmptyString ->
   IsLeaderHealthy ctx s = Done false s)
  /\
  (ClusterManager.leader (this s) <> EmptyString ->
   let leader := ClusterManager.leader (this s) in
   match gorqlite_Open leader (world s) with
   | (inl _, w1) =>
       IsLeaderHealthy ctx s
       = Done false (mkSys (this s) w1 (log s ++ [Open leader]))
   | (inr client, w1) =>
       let '(err, w2) := QueryOneContext client ctx "SELECT 1" w1 in
       IsLeaderHealthy ctx s
       = Done (match err with None => true | Some _ => false end)
           (mkSys (this s) (Connection_Close client w2)
              (log s ++ [Open leader; Select1 client; CloseConnection client]))
   end).
Proof.
  intros Hw. split.
  - intros Hl. unfold IsLeaderHealthy. unfold bind at 1.
    rewrite (GetLeader_reads s Hw), Hl. reflexivity.
  - intros Hl leader.
    assert (Hunfold : IsLeaderHealthy ctx s
              = bind (call (Open leader) (gorqlite_Open leader))
                  (fun opened =>
                     match opened with
                     | inl _ => ret false
                     | inr client =>
                         bind (call (Select1 client)
                                 (QueryOneContext client ctx "SELECT 1"))
                           (fun err =>
                              bind (call (CloseConnection client)
                                      (fun w => (tt, Connection_Close client w)))
                                (fun _ =>
                                   ret (match err with
                                        | None => true
                                        | Some _ => false
                                        end)))
                     end) s).
    { unfold IsLeaderHealthy. unfold bind at 1.
      rewrite (GetLeader_reads s Hw). fold leader.
      destruct (String.eqb_spec leader EmptyString) as [E|_]; [contradiction|].
      reflexivity. }
    rewrite Hunfold. unfold bind, call, ret. simpl.
    destruct (gorqlite_Open leader (world s)) as [[err|client] w1]; simpl.
    + reflexivity.
    + destruct (QueryOneContext client ctx "SELECT 1" w1) as [err w2]. simpl.
      rewrite <- !app_assoc. reflexivity.
Qed.

End LeaderMore.

(** ** connection.go: connecting *)

Section ConnectMore.

Context {W QR : Type} {R : Remote W QR}.

Implicit Types (s : Sys W Conn.t).

Lemma count_app P l l' : count P (l ++ l') = (count P l + count P l')%nat.
Proof. unfold count. now rewrite List.filter_app, length_app. Qed.

Lemma count_keeps {X A} P (m : M W X A) (s : Sys W X) :
  keeps P m -> count P (log (final (m s))) = count P (log s).
Proof. intros H. unfold count. now rewrite H. Qed.

Lemma keeps_discover_any P ctx nodes :
  (forall url, P (StatusRequest url) = false) ->
  forall lastErr, keeps P (@discover W QR R ctx nodes lastErr).
Proof.
  intros HP. induction nodes as [|node nodes IH]; intros lastErr; simpl.
  - apply keeps_ret.
  - apply keeps_bind.
    + unfold queryNodeStatus. apply keeps_bind; [apply keeps_get|]. intros cm.
      apply keeps_bind; [apply keeps_call, HP|]. intros a. apply keeps_ret.
    + intros [err|[leader peers]]; [apply IH|]. repeat keeps_step.
Qed.

Lemma keeps_DiscoverLeader_any P ctx :
  (forall url, P (StatusRequest url) = false) ->
  keeps P (@DiscoverLeader W QR R ctx).
Proof.
  intros HP. unfold DiscoverLeader, cm_mu.
  do 3 (apply keeps_bind; [repeat keeps_step|]; intros ?).
  apply keeps_bind; [|intros; repeat keeps_step].
  destruct (_ <? _); [apply keeps_ret|now apply keeps_discover_any].
Qed.

Lemma connect_frame_refl s :
  ClusterManager.mu (Conn.clusterManager (this s)) = unlocked ->
  connect_frame s s 0.
Proof. intros H. unfold connect_frame. repeat split; auto. Qed.

Lemma connect_frame_same s s1 :
  this s1 = this s -> log s1 = log s ->
  ClusterManager.mu (Conn.clusterManager (this s)) = unlocked ->
  connect_frame s s1 0.
Proof.
  intros Ht Hl H. unfold connect_frame. rewrite Ht, Hl. repeat split; auto.
Qed.

Lemma connected_after s s1 r s' :
  connect_frame s s1 0 ->
  Conn.client (this s1) = Conn.client (this s) ->
  connected s1 r s' ->
  connected s r s'.
Proof.
  intros (H1 & H2 & H3 & H4 & H5) Hcl Hc. unfold connected, connect_frame in *.
  destruct r as [e|].
  - destruct Hc as [(G1 & G2 & G3 & G4 & G5) Gcl].
    split; [repeat split; try congruence; lia|congruence].
  - destruct Hc as [(G1 & G2 & G3 & G4 & G5) Gb].
    split; [repeat split; try congruence; lia|exact Gb].
Qed.

Lemma createClient_outcome node s :
  exists r s',
    createClient node s = Done r s' /\ this s' = this s /\
    match r with
    | inr client =>
        log s' = log s ++ [Open node; Select1 client] /\
        forall level,
          gorqlite_level (ConsistencyLevel (Conn.cfg (this s))) = Some level ->
          conn_level client = level
    | inl _ =>
        (count is_Select1 (log s') + count is_Close (log s)
         = count is_Select1 (log s) + count is_Close (log s'))%nat
    end.
Proof.
  unfold createClient, bind, call, get, ret. simpl.
  destruct (gorqlite_Open node (world s)) as [[err|client] w1]; simpl.
  - eexists _, _. split; [reflexivity|]. split; [reflexivity|].
    simpl. rewrite !count_app. unfold count. simpl. lia.
  - destruct (QueryOneContext _ _ _ w1) as [[err|] w2]; simpl.
    + eexists _, _. split; [reflexivity|]. split; [reflexivity|].
      simpl. rewrite !count_app. unfold count. simpl. lia.
    + eexists _, _. split; [reflexivity|]. split; [reflexivity|].
      simpl. split; [now rewrite <- app_assoc|].
      intros level. unfold gorqlite_level.
      destruct (String.eqb _ "strong"); [intros [= <-]; reflexivity|].
      destruct (String.eqb _ "weak"); [intros [= <-]; reflexivity|].
      destruct (String.eqb _ "none"); [intros [= <-]; reflexivity|].
      discriminate.
Qed.

Lemma connectToAny_outcome nodes : forall lastErr s,
  ClusterManager.mu (Conn.clusterManager (this s)) = unlocked ->
  exists r s', connectToAny nodes lastErr s = Done r s' /\ connected s r s'.
Proof.
  induction nodes as [|node nodes IH]; intros lastErr s Hcm; simpl.
  - destruct lastErr; eexists _, _; (split; [reflexivity|]);
      (split; [now apply connect_frame_refl|reflexivity]).
  - unfold bind at 1.
    destruct (createClient_outcome node s) as (r & s1 & Heq & Hthis & Hr).
    rewrite Heq. destruct r as [err|client].
    + destruct (IH (Some err) s1) as (r' & s' & Heq' & Hc);
        [now rewrite Hthis|].
      exists r', s'. split; [exact Heq'|].
      apply (connected_after s s1); [|now rewrite Hthis|exact Hc].
      unfold connect_frame. rewrite Hthis. repeat split; auto. lia.
    + destruct Hr as [Hlog Hlevel]. unfold bind, modify, ret. simpl.
      eexists _, _. split; [reflexivity|]. split.
      * unfold connect_frame. simpl. rewrite Hthis, Hlog, !count_app.
        unfold count. destruct (this s); simpl in *. repeat split; auto. lia.
      * exists client. simpl. rewrite Hthis, Hlog.
        split; [destruct (this s); reflexivity|].
        split; [|destruct (this s); exact Hlevel].
        change [Open node; Select1 client]
          with ([Open node] ++ [Select1 client]).
        rewrite app_assoc. apply last_snoc.
Qed.

Lemma manager_GetAllNodes s :
  ClusterManager.mu (Conn.clusterManager (this s)) = unlocked ->
  exists nodes w', manager GetAllNodes s = Done nodes (mkSys (this s) w' (log s)).
Proof.
  intros Hcm. unfold manager, on_field.
  rewrite GetAllNodes_range by (simpl; now rewrite Hcm). simpl.
  eexists _, _.
  replace (Conn.set_clusterManager (Conn.clusterManager (this s)) (this s))
    with (this s) by (destruct (this s); reflexivity).
  reflexivity.
Qed.

Lemma connectToAnyNode_outcome s :
  ClusterManager.mu (Conn.clusterManager (this s)) = unlocked ->
  exists r s', connectToAnyNode s = Done r s' /\ connected s r s'.
Proof.
  intros Hcm. unfold connectToAnyNode. unfold bind at 1.
  destruct (manager_GetAllNodes s Hcm) as (nodes & w' & Heq). rewrite Heq.
  unfold bind at 1. unfold get at 1. simpl this.
  destruct (connectToAny_outcome
              (if (length nodes =? 0)%nat then Nodes (Conn.cfg (this s))
               else nodes) None (mkSys (this s) w' (log s)) Hcm)
    as (r & s' & Heq' & Hc).
  exists r, s'. split; [exact Heq'|].
  apply (connected_after s (mkSys (this s) w' (log s)));
    [now apply connect_frame_same|reflexivity|exact Hc].
Qed.

Lemma manager_SelectBestNode level s :
  ClusterManager.mu (Conn.clusterManager (this s)) = unlocked ->
  exists node, manager (SelectBestNode level) s = Done node s.
Proof.
  intros Hcm. unfold manager, on_field, SelectBestNode, bind, cm_mu, on_mutex,
    RWMutex_RLock, get, ret. simpl. rewrite Hcm. simpl.
  eexists. f_equal.
  destruct s as [c w l]; destruct c as [? ? ? ? cm]; destruct cm; simpl in *;
    subst; reflexivity.
Qed.

Lemma manager_DiscoverLeader ctx s :
  ClusterManager.mu (Conn.clusterManager (this s)) = unlocked ->
  exists r s1,
    manager (DiscoverLeader ctx) s = Done r s1 /\
    connect_frame s s1 0 /\ Conn.client (this s1) = Conn.client (this s).
Proof.
  intros Hcm. unfold manager, on_field.
  pose (scm := mkSys (Conn.clusterManager (this s)) (world s) (log s)).
  destruct (DiscoverLeader_returns ctx scm Hcm)
    as (r & s' & Heq & Hmu & _).
  pose proof (count_keeps is_Select1 (DiscoverLeader ctx) scm
                (keeps_DiscoverLeader_any _ ctx (fun _ => eq_refl))) as HS.
  pose proof (count_keeps is_Close (DiscoverLeader ctx) scm
                (keeps_DiscoverLeader_any _ ctx (fun _ => eq_refl))) as HC.
  fold scm. rewrite Heq in *. simpl in HS, HC.
  eexists _, _. split; [reflexivity|]. unfold connect_frame. simpl.
  destruct (this s); simpl in *. repeat split; auto. lia.
Qed.

(** [connect] returns, whatever the environment answers. *)
Lemma connect_returns s :
  Conn.mu (this s) = unlocked ->
  ClusterManager.mu (Conn.clusterManager (this s)) = unlocked ->
  exists r s', connect s = Done r s' /\ connected s r s'.
Proof.
  intros Hmu Hcm. unfold connect. unfold bind at 1.
  rewrite (c_Lock_free s Hmu). unfold bind at 1. unfold get at 1.
  assert (Hend : forall r s1,
            Conn.mu (this s1) = held ->
            connected (locked s) r s1 ->
            exists s', bind (c_mu RWMutex_Unlock) (fun _ => ret r) s1
                       = Done r s' /\ connected s r s').
  { intros r s1 Hheld Hc. unfold bind. rewrite (c_Unlock_held s1 Hheld).
    eexists. split; [reflexivity|].
    unfold connected, connect_frame, bound, released, locked in *. simpl in *.
    destruct r as [e|].
    - destruct Hc as [(G1 & G2 & G3 & G4 & G5) Gcl].
      destruct (this s1), (this s); simpl in *. repeat split; auto.
    - destruct Hc as [(G1 & G2 & G3 & G4 & G5) (cl & B1 & B2 & B3)].
      destruct (this s1), (this s); simpl in *.
      repeat split; auto. exists cl. auto. }
  assert (Hrun : exists r s1,
            (if Conn.closed (this (locked s))
             then ret (Some (errors_New "connection is closed"))
             else
               bind (manager (DiscoverLeader context_Background))
                 (fun err =>
                    match err with
                    | Some _ => connectToAnyNode
                    | None =>
                        bind (manager
                                (SelectBestNode
                                   (ConsistencyLevel (Conn.cfg (this (locked s))))))
                          (fun leader =>
                             if negb (String.eqb leader "") then
                               bind (createClient leader)
                                 (fun r =>
                                    match r with
                                    | inr client =>
                                        bind (modify
                                                (Conn.set_client (Some client)))
                                          (fun _ => ret None)
                                    | inl _ => connectToAnyNode
                                    end)
                             else connectToAnyNode)
                    end)) (locked s) = Done r s1 /\
            connected (locked s) r s1).
  { assert (Hcm' : ClusterManager.mu (Conn.clusterManager (this (locked s)))
                   = unlocked) by (simpl; destruct (this s); exact Hcm).
    destruct (Conn.closed (this (locked s))).
    - eexists _, _. split; [reflexivity|].
      split; [now apply connect_frame_refl|reflexivity].
    - unfold bind at 1.
      destruct (manager_DiscoverLeader context_Background (locked s) Hcm')
        as (err & s1 & Heq & Hf & Hcl). rewrite Heq.
      assert (Hcm1 : ClusterManager.mu (Conn.clusterManager (this s1))
                     = unlocked) by apply Hf.
      destruct err as [e|].
      + destruct (connectToAnyNode_outcome s1 Hcm1) as (r & s2 & Heq2 & Hc).
        exists r, s2. split; [exact Heq2|].
        now apply (connected_after (locked s) s1).
      + unfold bind at 1.
        destruct (manager_SelectBestNode
                    (ConsistencyLevel (Conn.cfg (this (locked s)))) s1 Hcm1)
          as (leader & Hsel). rewrite Hsel.
        destruct (negb (String.eqb leader "")).
        * unfold bind at 1.
          destruct (createClient_outcome leader s1)
            as (r & s2 & Heq2 & Hthis & Hr). rewrite Heq2.
          destruct r as [e|client].
          -- destruct (connectToAnyNode_outcome s2) as (r & s3 & Heq3 & Hc);
               [now rewrite Hthis|].
             exists r, s3. split; [exact Heq3|].
             apply (connected_after (locked s) s1); [exact Hf|exact Hcl|].
             apply (connected_after s1 s2); [|now rewrite Hthis|exact Hc].
             unfold connect_frame. rewrite Hthis. repeat split; auto. lia.
          -- destruct Hr as [Hlog Hlevel]. unfold bind, modify, ret. simpl.
             eexists _, _. split; [reflexivity|].
             apply (connected_after (locked s) s1); [exact Hf|exact Hcl|].
             split.
             ++ unfold connect_frame. simpl. rewrite Hthis, Hlog, !count_app.
                unfold count. destruct (this s1); simpl in *.
                repeat split; auto. lia.
             ++ exists client. simpl. rewrite Hthis, Hlog.
                split; [destruct (this s1); reflexivity|].
                split; [|destruct (this s1); exact Hlevel].
                change [Open leader; Select1 client]
                  with ([Open leader] ++ [Select1 client]).
                rewrite app_assoc. apply last_snoc.
        * destruct (connectToAnyNode_outcome s1 Hcm1) as (r & s2 & Heq2 & Hc).
          exists r, s2. split; [exact Heq2|].
          now apply (connected_after (locked s) s1). }
  destruct Hrun as (r & s1 & Heq & Hc).
  change (this (locked s)) with (Conn.set_mu held (this s)) in Heq.
  simpl this. unfold bind at 1.
  replace (Conn.closed (Conn.set_mu held (this s)))
    with (Conn.closed (this (locked s))) by reflexivity.
  replace (Conn.cfg (Conn.set_mu held (this s)))
    with (Conn.cfg (this (locked s))) by reflexivity.
  change (Conn.set_mu held (this s)) with (this (locked s)) in Heq.
  rewrite Heq.
  assert (Hheld : Conn.mu (this s1) = held).
  { destruct r; destruct Hc as [(_ & _ & G3 & _) _]; rewrite G3; reflexivity. }
  destruct (Hend r s1 Hheld Hc) as (s' & Heq' & Hc').
  exists r, s'. split; [exact Heq'|exact Hc'].
Qed.


End ConnectMore.

(** ** connection.go and statement.go: the operations *)

Section OperationsMore.

Context {W QR : Type} {R : Remote W QR}.

Implicit Types (s : Sys W Conn.t).

(** X6.  [Close] on an open connection closes the client, if there is
    one, exactly once, marks the connection closed and gives the mutex back;
    a second [Close] returns nil and changes nothing. *)
Theorem Close_idempotent s :
  Conn.mu (this s) = unlocked ->
  Conn.closed (this s) = false ->
  exists s',
    Close s = Done None s' /\
    this s' = Conn.set_client None (Conn.set_closed true (this s)) /\
    log s' = log s ++ match Conn.client (this s) with
                      | Some client => [CloseConnection client]
                      | None => []
                      end /\
    Close s' = Done None s'.
Proof.
  intros Hmu Hopen.
  unfold Close, bind, c_mu, on_mutex, get, modify, call, ret. simpl.
  rewrite Hmu. simpl. rewrite Hopen.
  destruct (this s) as [cfg cl mu closed cm] eqn:E; simpl in *; subst.
  destruct cl as [client|]; simpl.
  - eexists. split; [reflexivity|]. simpl. repeat split.
  - eexists. split; [reflexivity|]. simpl. rewrite app_nil_r. repeat split.
Qed.

(** X7.  On a connection that [Close] has left, every operation fails with
    the error [connection is closed], without a remote call and without any
    change. *)
Theorem closed_connection_refuses ctx query args s :
  Conn.mu (this s) = unlocked ->
  Conn.closed (this s) = true ->
  Conn.client (this s) = None ->
  let closed_error := errors_New "connection is closed" in
  ExecContext ctx query args s = Done (inl closed_error) s /\
  QueryContext ctx query args s = Done (inl closed_error) s /\
  Ping ctx s = Done (Some closed_error) s /\
  PrepareContext ctx query s = Done (inl closed_error) s /\
  connect s = Done (Some closed_error) s /\
  reconnect s = Done (Some closed_error) s.
Proof.
  intros Hmu Hclosed Hclient closed_error.
  assert (Hs : mkSys (Conn.set_mu unlocked (Conn.set_mu held (this s)))
                 (world s) (log s) = s).
  { destruct s as [c w l]; destruct c; simpl in *; subst; reflexivity. }
  assert (Hr : mkSys (Conn.set_mu (mkRWMutex false 0)
                        (Conn.set_mu (mkRWMutex false 1) (this s)))
                 (world s) (log s) = s).
  { destruct s as [c w l]; destruct c; simpl in *; subst; reflexivity. }
  assert (Hconnect : connect s = Done (Some closed_error) s).
  { unfold connect, bind, c_mu, on_mutex, get, ret. rewrite Hmu. simpl.
    rewrite Hclosed. simpl. change (mkRWMutex false 0) with unlocked.
    change (mkRWMutex true 0) with held. now rewrite Hs. }
  repeat split.
  - unfold ExecContext, ExecContext_with, with_client, bind, c_mu, on_mutex,
      get, ret. rewrite Hmu. simpl. rewrite Hclient. now rewrite Hr.
  - unfold QueryContext, QueryContext_with, with_client, bind, c_mu, on_mutex,
      get, ret. rewrite Hmu. simpl. rewrite Hclient. now rewrite Hr.
  - unfold Ping, bind, c_mu, on_mutex, get, ret. rewrite Hmu. simpl.
    rewrite Hclient. now rewrite Hr.
  - unfold PrepareContext, bind, c_mu, on_mutex, get, ret. rewrite Hmu. simpl.
    rewrite Hclosed. now rewrite Hr.
  - exact Hconnect.
  - unfold reconnect. unfold bind at 1. unfold get at 1. rewrite Hclient.
    unfold bind, ret. exact Hconnect.
Qed.

Lemma with_client_first {A} rc
    (attempt : ParameterizedStatement -> Connection -> M W Conn.t (error + A))
    query args s cl (r : A) s1 :
  Conn.mu (this s) = unlocked ->
  Conn.client (this s) = Some cl ->
  attempt (mkStatement query (map Value args)) cl s = Done (inr r) s1 ->
  with_client rc attempt query args s = Done (inr r) s1.
Proof.
  intros Hmu Hcl H. rewrite (with_client_enter rc attempt query args s cl Hmu Hcl).
  now apply retry_success.
Qed.

Lemma Ping_enter ctx s cl :
  Conn.mu (this s) = unlocked ->
  Conn.client (this s) = Some cl ->
  Ping ctx s
  = bind (call (Select1 cl) (QueryOneContext cl ctx "SELECT 1"))
      (fun err =>
         match err with
         | Some _ =>
             bind (c_mu RWMutex_Lock) (fun _ =>
             bind reconnect (fun reconnectErr =>
             bind (c_mu RWMutex_Unlock) (fun _ => ret reconnectErr)))
         | None => ret None
         end) s.
Proof.
  intros Hmu Hcl.
  destruct s as [c w l]; destruct c; simpl in *; subst; reflexivity.
Qed.

(** X8.  When the first call succeeds an execute operation makes that one
    remote call and nothing else: [ExecContext] returns the counters of the
    write, [QueryContext] an open cursor on the result, [Ping] nil; the
    connection is as it was. *)
Theorem first_call_succeeds ctx query args s cl :
  Conn.mu (this s) = unlocked ->
  Conn.client (this s) = Some cl ->
  let stmt := mkStatement query (map Value args) in
  (forall wr w,
     WriteOneParameterized cl stmt (world s) = (inr wr, w) ->
     ExecContext ctx query args s
     = Done (inr (mkResult (LastInsertID wr) (RowsAffected wr)))
         (after s (WriteOne cl stmt) w))
  /\
  (forall qr w,
     QueryOneParameterized cl stmt (world s) = (inr qr, w) ->
     QueryContext ctx query args s
     = Done (inr (mkRows QR (Some qr) false)) (after s (QueryOne cl stmt) w))
  /\
  (forall w,
     QueryOneContext cl ctx "SELECT 1" (world s) = (None, w) ->
     Ping ctx s = Done None (after s (Select1 cl) w)).
Proof.
  intros Hmu Hcl stmt. repeat split.
  - intros wr w H. apply (with_client_first _ _ _ _ s cl); auto.
    unfold write_attempt, bind, call, ret. fold stmt. now rewrite H.
  - intros qr w H. apply (with_client_first _ _ _ _ s cl); auto.
    unfold query_attempt, bind, call, ret. fold stmt. now rewrite H.
  - intros w H. rewrite (Ping_enter ctx s cl Hmu Hcl).
    unfold bind, call. now rewrite H.
Qed.

(** X9.  When the first call fails, the operation does not return: it
    takes [c.mu], closes and drops the client in [reconnect], and stays at
    the [Lock] of [connect]. *)
Theorem failed_call_blocks ctx query args s cl :
  Conn.mu (this s) = unlocked ->
  Conn.client (this s) = Some cl ->
  let stmt := mkStatement query (map Value args) in
  let blocked ev w :=
    mkSys (Conn.set_client None (Conn.set_mu held (this s)))
      (Connection_Close cl w) (log s ++ [ev; CloseConnection cl]) in
  (forall e w,
     WriteOneParameterized cl stmt (world s) = (inl e, w) ->
     ExecContext ctx query args s = Stuck Blocked (blocked (WriteOne cl stmt) w))
  /\
  (forall e w,
     QueryOneParameterized cl stmt (world s) = (inl e, w) ->
     QueryContext ctx query args s
     = Stuck Blocked (blocked (QueryOne cl stmt) w))
  /\
  (forall e w,
     QueryOneContext cl ctx "SELECT 1" (world s) = (Some e, w) ->
     Ping ctx s = Stuck Blocked (blocked (Select1 cl) w)).
Proof.
  intros Hmu Hcl stmt blocked.
  assert (Hblock : forall ev w,
            reconnect (locked (after s ev w)) = Stuck Blocked (blocked ev w)).
  { intros ev w. rewrite reconnect_blocks by reflexivity. simpl.
    rewrite Hcl. subst blocked. simpl. now rewrite <- app_assoc. }
  repeat split.
  - intros e w H. unfold ExecContext, ExecContext_with.
    rewrite (with_client_enter _ write_attempt query args s cl Hmu Hcl).
    fold stmt. simpl. unfold bind at 1.
    rewrite (write_attempt_failed stmt cl s e w H). simpl.
    unfold bind at 1. rewrite c_Lock_free by exact Hmu.
    unfold bind at 1. now rewrite Hblock.
  - intros e w H. unfold QueryContext, QueryContext_with.
    rewrite (with_client_enter _ query_attempt query args s cl Hmu Hcl).
    fold stmt. simpl. unfold bind at 1.
    rewrite (query_attempt_failed stmt cl s e w H). simpl.
    unfold bind at 1. rewrite c_Lock_free by exact Hmu.
    unfold bind at 1. now rewrite Hblock.
  - intros e w H. rewrite (Ping_enter ctx s cl Hmu Hcl).
    unfold bind at 1. unfold call at 1. rewrite H.
    change (mkSys (this s) w (log s ++ [Select1 cl]))
      with (after s (Select1 cl) w).
    unfold bind at 1. rewrite c_Lock_free by exact Hmu.
    unfold bind at 1. now rewrite Hblock.
Qed.

Lemma retry_single_attempt {A}
    (attempt : Connection -> M W Conn.t (error + A)) fuel client s :
  (forall cl s, attempts (log (final (attempt cl s))) <= attempts (log s) + 1)%nat ->
  (attempts (log (final (retry reconnect attempt fuel 0 client s)))
   <= attempts (log s) + 1)%nat.
Proof.
  intros Hatt. destruct fuel as [|fuel]; [simpl; lia|]. simpl.
  destruct client as [cl|]; [|simpl; lia].
  unfold bind at 1. specialize (Hatt cl s).
  destruct (attempt cl s) as [[err|r] s1|h s1]; simpl in Hatt |- *; try lia.
  unfold bind at 1. unfold c_mu at 1, on_mutex at 1, RWMutex_Lock.
  destruct (writer (Conn.mu (this s1))) eqn:Hw; simpl; [lia|].
  destruct (readers (Conn.mu (this s1))) as [|n] eqn:Hr; simpl; [|lia].
  unfold bind at 1. rewrite reconnect_blocks by reflexivity. simpl.
  destruct (Conn.client (this s1)); simpl; [|lia].
  unfold attempts in *. rewrite List.filter_app. simpl. rewrite app_nil_r. lia.
Qed.

(** X10.  As the source stands, no execute operation ever makes a second
    attempt, from any state of the connection. *)
Theorem never_a_second_attempt ctx query args s :
  (attempts (log (final (ExecContext ctx query args s)))
   <= attempts (log s) + 1)%nat
  /\ (attempts (log (final (QueryContext ctx query args s)))
      <= attempts (log s) + 1)%nat.
Proof.
  assert (H : forall A
                (attempt : ParameterizedStatement -> Connection
                           -> M W Conn.t (error + A)),
            (forall stmt cl s,
               attempts (log (final (attempt stmt cl s)))
               <= attempts (log s) + 1)%nat ->
            (attempts (log (final (with_client reconnect attempt query args s)))
             <= attempts (log s) + 1)%nat).
  { intros A attempt Hatt. unfold with_client.
    unfold bind at 1. unfold c_mu at 1, on_mutex at 1.
    destruct (RWMutex_RLock _) as [h|m]; [simpl; lia|].
    unfold bind at 1. unfold get at 1.
    unfold bind at 1. unfold c_mu at 1, on_mutex at 1.
    destruct (RWMutex_RUnlock _) as [h|m']; [simpl; lia|].
    destruct (Conn.client _); [|simpl; lia].
    etransitivity; [apply retry_single_attempt, Hatt|]. simpl. lia. }
  split.
  - apply H. apply write_attempt_one.
  - apply H. apply query_attempt_one.
Qed.

Lemma named_from_values values : forall i,
  map Value (named_from i values) = values.
Proof. induction values as [|v values IH]; intros i; simpl; [|rewrite IH]; auto. Qed.

Lemma named_from_ordinals values : forall i,
  map Ordinal (named_from i values)
  = map (fun k => i + Z.of_nat k) (seq 1 (length values)).
Proof.
  induction values as [|v values IH]; intros i; [reflexivity|].
  simpl. rewrite IH. f_equal.
  rewrite <- (seq_shift (length values) 1), map_map.
  apply map_ext. intros k. lia.
Qed.

(** X11.  [convertToNamedValues] numbers the values from 1 and keeps them
    in order, so that a prepared statement run through [Stmt.Exec] or
    [Stmt.Query] sends its own query text with exactly the values it was
    given. *)
Theorem prepared_statement_sends_its_values ctx query values s cl :
  Conn.mu (this s) = unlocked ->
  Conn.closed (this s) = false ->
  Conn.client (this s) = Some cl ->
  let stmt := mkStatement query values in
  map Value (convertToNamedValues values) = values /\
  map Ordinal (convertToNamedValues values)
  = map Z.of_nat (seq 1 (length values)) /\
  PrepareContext ctx query s = Done (inr (Stmt.mk query)) s /\
  (forall wr w,
     WriteOneParameterized cl stmt (world s) = (inr wr, w) ->
     Stmt_Exec (Stmt.mk query) values s
     = Done (inr (mkResult (LastInsertID wr) (RowsAffected wr)))
         (after s (WriteOne cl stmt) w))
  /\
  (forall qr w,
     QueryOneParameterized cl stmt (world s) = (inr qr, w) ->
     Stmt_Query (Stmt.mk query) values s
     = Done (inr (mkRows QR (Some qr) false)) (after s (QueryOne cl stmt) w)).
Proof.
  intros Hmu Hopen Hcl stmt.
  pose proof (named_from_values values 0) as Hv.
  split; [exact Hv|]. split; [apply named_from_ordinals|]. split.
  - unfold PrepareContext, bind, c_mu, on_mutex, get, ret. rewrite Hmu. simpl.
    rewrite Hopen. f_equal.
    destruct s as [c w l]; destruct c; simpl in *; subst; reflexivity.
  - unfold Stmt_Exec, Stmt_Query, Stmt_ExecContext, Stmt_QueryContext.
    unfold convertToNamedValues. simpl Stmt.query. split.
    + intros wr w H. apply (with_client_first _ _ _ _ s cl); auto.
      rewrite Hv. fold stmt. unfold write_attempt, bind, call, ret.
      now rewrite H.
    + intros qr w H. apply (with_client_first _ _ _ _ s cl); auto.
      rewrite Hv. fold stmt. unfold query_attempt, bind, call, ret.
      now rewrite H.
Qed.

(** X12.  [Open] does not touch the network for a connection string that
    does not parse; for one that parses it returns, and a connection it
    returns is open, has the parsed configuration, free mutexes and a bound
    client. *)
Theorem Open_outcome ParseDuration dsn (w : W) (l : list event) :
  (forall err, ParseDSN ParseDuration dsn = inl err ->
     driver_Open ParseDuration dsn w l = Done (inl err) (w, l))
  /\
  (forall cfg, ParseDSN ParseDuration dsn = inr cfg ->
     exists r w' l',
       driver_Open ParseDuration dsn w l = Done r (w', l') /\
       forall c, r = inr c ->
         Conn.cfg c = cfg /\ Conn.closed c = false /\
         Conn.mu c = unlocked /\
         ClusterManager.mu (Conn.clusterManager c) = unlocked /\
         bound (mkSys c w' l')).
Proof.
  split.
  - intros err H. unfold driver_Open. now rewrite H.
  - intros cfg H. unfold driver_Open. rewrite H. unfold NewConn.
    destruct (connect_returns (mkSys (new_Conn cfg) w l) eq_refl eq_refl)
      as (r & s' & Heq & Hc).
    rewrite Heq. destruct r as [e|].
    + eexists _, _, _. split; [reflexivity|]. discriminate.
    + eexists _, _, _. split; [reflexivity|]. intros c [= <-].
      destruct Hc as [(G1 & G2 & G3 & G4 & _) Hb]. simpl in *.
      split; [exact G1|]. split; [exact G2|]. split; [exact G3|].
      split; [exact G4|]. now rewrite sys_eta.
Qed.

End OperationsMore.

(** ** driver.go: the connection string *)

Section ParseMore.

Variable ParseDuration : string -> option time.Duration.

Lemma split_scan_pieces c x s : forall cur,
  strings.Contains cur (String x EmptyString) = false ->
  strings.Contains s (String x EmptyString) = false ->
  Forall (fun piece => strings.Contains piece (String x EmptyString) = false)
    (strings.split_scan (String c EmptyString) 0 cur s).
Proof.
  induction s as [|a s IH]; intros cur Hcur Hs.
  - simpl. constructor; [exact Hcur|constructor].
  - rewrite Contains_cons in Hs. apply orb_false_iff in Hs as [Ha Hs].
    change (strings.split_scan (String c EmptyString) 0 cur (String a s))
      with (if strings.HasPrefix (String a s) (String c EmptyString)
            then cur :: strings.split_scan (String c EmptyString) 0 EmptyString s
            else strings.split_scan (String c EmptyString) 0
                   (cur +:+ String a EmptyString) s).
    destruct (strings.HasPrefix _ _).
    + constructor; [exact Hcur|]. apply IH; [reflexivity|exact Hs].
    + apply IH; [|exact Hs].
      rewrite Contains_app, Hcur, Contains_cons, Ha. reflexivity.
Qed.

Lemma Split_pieces c x s :
  strings.Contains s (String x EmptyString) = false ->
  Forall (fun piece => strings.Contains piece (String x EmptyString) = false)
    (strings.Split s (String c EmptyString)).
Proof. intros H. unfold strings.Split. now apply split_scan_pieces. Qed.

Lemma parseParam_keeps cfg param :
  Nodes (parseParam ParseDuration cfg param) = Nodes cfg /\
  Username (parseParam ParseDuration cfg param) = Username cfg /\
  Password (parseParam ParseDuration cfg param) = Password cfg.
Proof.
  unfold parseParam.
  destruct (strings.Split param "=") as [|key [|value [|x l]]]; auto.
  destruct (String.eqb key "consistency"); auto.
  destruct (String.eqb key "timeout"); auto.
  destruct (ParseDuration value); auto.
Qed.

Lemma parseParams_keeps params : forall cfg,
  Nodes (parseParams ParseDuration cfg params) = Nodes cfg /\
  Username (parseParams ParseDuration cfg params) = Username cfg /\
  Password (parseParams ParseDuration cfg params) = Password cfg.
Proof.
  unfold parseParams. induction params as [|p params IH]; intros cfg; [auto|].
  simpl. destruct (IH (parseParam ParseDuration cfg p)) as (H1 & H2 & H3).
  destruct (parseParam_keeps cfg p) as (K1 & K2 & K3).
  rewrite H1, H2, H3. auto.
Qed.

Lemma HasPrefix_append p s : strings.HasPrefix (p +:+ s) p = true.
Proof.
  induction p as [|a p IH]; [apply HasPrefix_nil|].
  change (strings.HasPrefix (String a (p +:+ s)) (String a p) = true).
  simpl. now rewrite Ascii.eqb_refl.
Qed.

Lemma parseNode_scheme nodes node :
  Forall (fun n => has_scheme n = true) nodes ->
  Forall (fun n => has_scheme n = true) (parseNode nodes node).
Proof.
  intros H. unfold parseNode.
  destruct (negb (String.eqb (strings.TrimSpace node) "")); [|exact H].
  apply Forall_app. split; [exact H|]. constructor; [|constructor].
  unfold has_scheme.
  destruct (strings.HasPrefix (strings.TrimSpace node) "http://") eqn:E1;
    [simpl; now rewrite E1|].
  destruct (strings.HasPrefix (strings.TrimSpace node) "https://") eqn:E2;
    simpl; [rewrite E2; apply orb_true_r|].
  now rewrite HasPrefix_append.
Qed.

Lemma parseNodes_scheme parts : forall nodes,
  Forall (fun n => has_scheme n = true) nodes ->
  Forall (fun n => has_scheme n = true) (fold_left parseNode parts nodes).
Proof.
  induction parts as [|x parts IH]; intros nodes H; [exact H|].
  simpl. apply IH. now apply parseNode_scheme.
Qed.

Lemma nodes_section_result cfg dsn :
  Nodes cfg = [] ->
  match nodes_section cfg dsn with
  | inl err => In err parse_errors
  | inr cfg' =>
      Nodes cfg' <> [] /\
      Forall (fun n => has_scheme n = true) (Nodes cfg') /\
      Username cfg' = Username cfg /\ Password cfg' = Password cfg /\
      Timeout cfg' = Timeout cfg /\
      ConsistencyLevel cfg' = ConsistencyLevel cfg
  end.
Proof.
  intros Hn. unfold nodes_section.
  destruct (String.eqb dsn ""); [simpl; auto|]. cbv zeta.
  assert (H : Forall (fun n => has_scheme n = true)
                (fold_left parseNode (strings.Split dsn ",") (Nodes cfg))).
  { apply parseNodes_scheme. rewrite Hn. constructor. }
  destruct (fold_left parseNode (strings.Split dsn ",") (Nodes cfg))
    as [|n nodes]; [simpl; auto|].
  simpl. split; [discriminate|]. split; [exact H|auto].
Qed.

(** What [ParseDSN] returns. *)
Lemma ParseDSN_cases dsn :
  match ParseDSN ParseDuration dsn with
  | inl err => In err parse_errors
  | inr cfg =>
      Nodes cfg <> [] /\
      Forall (fun n => has_scheme n = true) (Nodes cfg) /\
      (strings.Contains dsn "@" = false ->
       Username cfg = EmptyString /\ Password cfg = EmptyString) /\
      (strings.Contains dsn "?" = false ->
       Timeout cfg = 30 * time.Second /\ ConsistencyLevel cfg = "weak"%string)
  end.
Proof.
  unfold ParseDSN. destruct (String.eqb dsn ""); [simpl; auto|]. cbv zeta.
  set (d := strings.TrimPrefix (strings.TrimPrefix dsn "sqlite://") "rqlite://").
  assert (Hat : strings.Contains dsn "@" = false ->
                strings.Contains d "@" = false).
  { intros H. now apply Contains_TrimPrefix, Contains_TrimPrefix. }
  assert (Hq : strings.Contains dsn "?" = false ->
               strings.Contains d "?" = false).
  { intros H. now apply Contains_TrimPrefix, Contains_TrimPrefix. }
  assert (Hparams : forall cfg rest,
            Nodes cfg = [] ->
            (strings.Contains dsn "@" = false ->
             Username cfg = EmptyString /\ Password cfg = EmptyString) ->
            (strings.Contains dsn "?" = false ->
             strings.Contains rest "?" = false /\
             Timeout cfg = 30 * time.Second /\
             ConsistencyLevel cfg = "weak"%string) ->
            match
              match
                (if strings.Contains rest "?"
                 then
                   match strings.Split rest "?" with
                   | [dsn'; params] =>
                       inr (parseParams ParseDuration cfg
                              (strings.Split params "&"), dsn')
                   | _ => inl (errors_New "invalid dsn format")
                   end
                 else inr (cfg, rest))
              with
              | inl e => inl e
              | inr (cfg0, dsn0) => nodes_section cfg0 dsn0
              end
            with
            | inl err => In err parse_errors
            | inr cfg' =>
                Nodes cfg' <> [] /\
                Forall (fun n => has_scheme n = true) (Nodes cfg') /\
                (strings.Contains dsn "@" = false ->
                 Username cfg' = EmptyString /\ Password cfg' = EmptyString) /\
                (strings.Contains dsn "?" = false ->
                 Timeout cfg' = 30 * time.Second /\
                 ConsistencyLevel cfg' = "weak"%string)
            end).
  { intros cfg rest Hn Hcred Hdef.
    destruct (strings.Contains rest "?") eqn:Hc.
    - destruct (strings.Split rest "?") as [|dsn' [|params [|x l]]];
        try (simpl; now auto).
      destruct (parseParams_keeps (strings.Split params "&") cfg)
        as (K1 & K2 & K3).
      pose proof (nodes_section_result
                    (parseParams ParseDuration cfg (strings.Split params "&"))
                    dsn' (eq_trans K1 Hn)) as H.
      destruct (nodes_section _ dsn') as [err|cfg']; [exact H|].
      destruct H as (H1 & H2 & H3 & H4 & H5 & H6).
      split; [exact H1|]. split; [exact H2|]. split.
      + intros Hno. destruct (Hcred Hno) as [U P].
        rewrite H3, H4, K2, K3. auto.
      + intros Hno. destruct (Hdef Hno) as [Hf _]. congruence.
    - pose proof (nodes_section_result cfg rest Hn) as H.
      destruct (nodes_section cfg rest) as [err|cfg']; [exact H|].
      destruct H as (H1 & H2 & H3 & H4 & H5 & H6).
      split; [exact H1|]. split; [exact H2|]. split.
      + intros Hno. destruct (Hcred Hno) as [U P]. rewrite H3, H4. auto.
      + intros Hno. destruct (Hdef Hno) as (_ & T & L). rewrite H5, H6. auto. }
  destruct (strings.Contains d "@") eqn:Hc.
  - pose proof (Split_pieces "@" "?" d) as Hpieces.
    destruct (strings.Split d "@") as [|authPart [|rest [|x l]]];
      try (simpl; now auto).
    assert (Hrest : strings.Contains dsn "?" = false ->
                    strings.Contains rest "?" = false).
    { intros Hno. specialize (Hpieces (Hq Hno)).
      inversion Hpieces as [|? ? _ Htl]; subst.
      now inversion Htl. }
    destruct (strings.Contains authPart ":").
    + apply Hparams; [reflexivity| |].
      * intros Hno. pose proof (Hat Hno). congruence.
      * intros Hno. simpl. auto.
    + apply Hparams; [reflexivity| |].
      * intros Hno. pose proof (Hat Hno). congruence.
      * intros Hno. simpl. auto.
  - apply Hparams; [reflexivity| |].
    + intros _. simpl. auto.
    + intros Hno. simpl. auto.
Qed.

(** X13.  Whatever [ParseDSN] accepts has at least one node, and every
    node starts with [http://] or [https://]; without an [@] the
    credentials are empty, without a [?] the timeout is 30 seconds and
    the level [weak]; and what it rejects, it rejects with one of its four
    errors. *)
Theorem ParseDSN_result dsn :
  match ParseDSN ParseDuration dsn with
  | inl err => In err parse_errors
  | inr cfg =>
      Nodes cfg <> [] /\
      Forall (fun n => has_scheme n = true) (Nodes cfg) /\
      (strings.Contains dsn "@" = false ->
       Username cfg = EmptyString /\ Password cfg = EmptyString) /\
      (strings.Contains dsn "?" = false ->
       Timeout cfg = 30 * time.Second /\ ConsistencyLevel cfg = "weak"%string)
  end.
Proof. apply ParseDSN_cases. Qed.

(** X14.  The scheme of a connection string is optional, and [sqlite://]
    and [rqlite://] are the same to [ParseDSN]. *)
Theorem ParseDSN_scheme_optional dsn :
  dsn <> EmptyString ->
  strings.HasPrefix dsn "sqlite://" = false ->
  strings.HasPrefix dsn "rqlite://" = false ->
  ParseDSN ParseDuration ("sqlite://" +:+ dsn) = ParseDSN ParseDuration dsn /\
  ParseDSN ParseDuration ("rqlite://" +:+ dsn) = ParseDSN ParseDuration dsn.
Proof.
  intros Hne Hs Hr.
  assert (He : String.eqb dsn "" = false).
  { destruct dsn; [congruence|reflexivity]. }
  assert (Hd : strings.TrimPrefix (strings.TrimPrefix dsn "sqlite://")
                 "rqlite://" = dsn).
  { unfold strings.TrimPrefix. rewrite Hs, Hr. reflexivity. }
  assert (H1 : strings.TrimPrefix
                 (strings.TrimPrefix ("sqlite://" +:+ dsn) "sqlite://")
                 "rqlite://" = dsn).
  { replace (strings.TrimPrefix ("sqlite://" +:+ dsn) "sqlite://") with dsn.
    - unfold strings.TrimPrefix. now rewrite Hr.
    - unfold strings.TrimPrefix. rewrite HasPrefix_append. reflexivity. }
  assert (H2 : strings.TrimPrefix
                 (strings.TrimPrefix ("rqlite://" +:+ dsn) "sqlite://")
                 "rqlite://" = dsn).
  { replace (strings.TrimPrefix ("rqlite://" +:+ dsn) "sqlite://")
      with ("rqlite://" +:+ dsn)%string by reflexivity.
    unfold strings.TrimPrefix. rewrite HasPrefix_append. reflexivity. }
  unfold ParseDSN. cbv zeta. rewrite He, Hd, H1, H2. split; reflexivity.
Qed.

End ParseMore.

(** ** driver.go: the parameters of a connection string *)

Section ParametersMore.

Variable ParseDuration : string -> option time.Duration.

Lemma parseParam_on_nodes nodes cfg param :
  parseParam ParseDuration
    (mkConfig nodes (Username cfg) (Password cfg) (Timeout cfg)
       (ConsistencyLevel cfg)) param
  = mkConfig nodes (Username cfg) (Password cfg)
      (Timeout (parseParam ParseDuration cfg param))
      (ConsistencyLevel (parseParam ParseDuration cfg param)).
Proof.
  unfold parseParam.
  destruct (strings.Split param "=") as [|key [|value [|x l]]]; try reflexivity.
  destruct (String.eqb key "consistency"); [reflexivity|].
  destruct (String.eqb key "timeout"); [|reflexivity].
  destruct (ParseDuration value); reflexivity.
Qed.

Lemma parseParams_on_nodes nodes params : forall cfg,
  parseParams ParseDuration
    (mkConfig nodes (Username cfg) (Password cfg) (Timeout cfg)
       (ConsistencyLevel cfg)) params
  = mkConfig nodes (Username cfg) (Password cfg)
      (Timeout (parseParams ParseDuration cfg params))
      (ConsistencyLevel (parseParams ParseDuration cfg params)).
Proof.
  unfold parseParams.
  induction params as [|param params IH]; intros cfg; [reflexivity|].
  simpl. rewrite parseParam_on_nodes.
  destruct (parseParam_keeps ParseDuration cfg param) as (_ & K2 & K3).
  rewrite <- K2, <- K3. apply IH.
Qed.

Lemma nodes_section_parseParams cfg params dsn :
  nodes_section (parseParams ParseDuration cfg params) dsn
  = match nodes_section cfg dsn with
    | inl err => inl err
    | inr cfg' => inr (parseParams ParseDuration cfg' params)
    end.
Proof.
  destruct (parseParams_keeps ParseDuration params cfg) as (K1 & K2 & K3).
  unfold nodes_section. destruct (String.eqb dsn ""); [reflexivity|].
  cbv zeta. rewrite K1. destruct (_ =? _)%nat; [reflexivity|].
  rewrite parseParams_on_nodes, K2, K3. reflexivity.
Qed.

(** The second stage of [ParseDSN] on [dsn?params], against the same stage
    on [dsn]. *)
Lemma parameters_on_top cfg dsn params :
  strings.Contains dsn "?" = false ->
  strings.Contains params "?" = false ->
  (let dsn := dsn +:+ String "?" params in
   match
     (if strings.Contains dsn "?" then
        match strings.Split dsn "?" with
        | [dsn'; params] =>
            inr (parseParams ParseDuration cfg (strings.Split params "&"),
                 dsn')
        | _ => inl (errors_New "invalid dsn format")
        end
      else inr (cfg, dsn))
   with
   | inl e => inl e
   | inr (cfg, dsn) => nodes_section cfg dsn
   end)
  = match
      match
        (if strings.Contains dsn "?" then
           match strings.Split dsn "?" with
           | [dsn'; params] =>
               inr (parseParams ParseDuration cfg (strings.Split params "&"),
                    dsn')
           | _ => inl (errors_New "invalid dsn format")
           end
         else inr (cfg, dsn))
      with
      | inl e => inl e
      | inr (cfg, dsn) => nodes_section cfg dsn
      end
    with
    | inl err => inl err
    | inr cfg' =>
        inr (parseParams ParseDuration cfg' (strings.Split params "&"))
    end.
Proof.
  intros Hd Hp. cbv zeta. rewrite Hd.
  rewrite (Contains_app "?"), (Contains_cons "?"), Ascii.eqb_refl, orb_true_r.
  rewrite (Split_at "?"), !(Split_lacks "?") by assumption.
  simpl app. apply nodes_section_parseParams.
Qed.

Lemma parseParam_pair cfg key value :
  strings.Contains key "=" = false ->
  strings.Contains value "=" = false ->
  parseParam ParseDuration cfg (key +:+ String "=" value)
  = if String.eqb key "consistency" then
      mkConfig (Nodes cfg) (Username cfg) (Password cfg) (Timeout cfg) value
    else if String.eqb key "timeout" then
      match ParseDuration value with
      | Some timeout =>
          mkConfig (Nodes cfg) (Username cfg) (Password cfg) timeout
            (ConsistencyLevel cfg)
      | None => cfg
      end
    else cfg.
Proof.
  intros Hk Hv. unfold parseParam.
  rewrite (Split_sep "=") by exact Hk. rewrite (Split_lacks "=") by exact Hv.
  reflexivity.
Qed.

(** X21.  Parameters are applied on top of what the rest of the
    connection string parses to: [front?params] fails as [front] does, or
    gives the configuration of [front] changed by the pairs.  The value of
    [consistency] is taken as it is, whatever it is; a [timeout] that
    [time.ParseDuration] rejects is passed over without an error. *)
Theorem ParseDSN_parameters_on_top front params :
  front <> EmptyString ->
  strings.Contains front "?" = false ->
  strings.Contains params "@" = false ->
  strings.Contains params "?" = false ->
  ParseDSN ParseDuration (front +:+ "?" +:+ params)
  = match ParseDSN ParseDuration front with
    | inl err => inl err
    | inr cfg => inr (parseParams ParseDuration cfg (strings.Split params "&"))
    end
  /\
  (forall cfg value,
     strings.Contains value "&" = false ->
     strings.Contains value "=" = false ->
     parseParams ParseDuration cfg
       (strings.Split ("consistency=" +:+ value) "&")
     = mkConfig (Nodes cfg) (Username cfg) (Password cfg) (Timeout cfg) value
     /\
     parseParams ParseDuration cfg (strings.Split ("timeout=" +:+ value) "&")
     = match ParseDuration value with
       | Some timeout =>
           mkConfig (Nodes cfg) (Username cfg) (Password cfg) timeout
             (ConsistencyLevel cfg)
       | None => cfg
       end).
Proof.
  intros Hne Hfq Hpat Hpq. split.
  - set (front' := strings.TrimPrefix (strings.TrimPrefix front "sqlite://")
                     "rqlite://").
    assert (Hq' : strings.Contains front' "?" = false)
      by now apply Contains_TrimPrefix, Contains_TrimPrefix.
    unfold ParseDSN.
    change (front +:+ "?" +:+ params) with (front +:+ String "?" params).
    replace (String.eqb (front +:+ String "?" params) EmptyString) with false
      by (destruct front; reflexivity).
    replace (String.eqb front EmptyString) with false
      by (destruct front; [congruence|reflexivity]).
    rewrite !TrimPrefix_before by reflexivity. fold front'. cbv zeta.
    rewrite (Contains_app "@"), (Contains_cons "@"), Hpat.
    change (Ascii.eqb "@" "?") with false. simpl orb. rewrite orb_false_r.
    destruct (strings.Contains front' "@") eqn:Hat.
    + rewrite (Split_tail "@") by now rewrite (Contains_cons "@"), Hpat.
      pose proof (Split_pieces "@" "?" front' Hq') as Hpieces.
      destruct (strings.Split front' "@") as [|authPart [|host [|x l]]].
      * reflexivity.
      * reflexivity.
      * simpl app_last.
        assert (Hh : strings.Contains host "?" = false).
        { inversion Hpieces as [|? ? _ Htl]; subst. now inversion Htl. }
        destruct (strings.Contains authPart ":") eqn:Hc;
          try match goal with
              | |- context [if ?c then _ else _] => destruct c
              end;
          try discriminate Hc;
          apply (parameters_on_top _ host params Hh Hpq).
      * rewrite !app_last_cons by discriminate. destruct l; reflexivity.
    + apply (parameters_on_top _ front' params Hq' Hpq).
  - intros cfg value Hamp Heq. split.
    + rewrite (Split_lacks "&").
      * unfold parseParams. simpl fold_left.
        change ("consistency=" +:+ value)
          with ("consistency" +:+ String "=" value).
        rewrite parseParam_pair by (reflexivity || exact Heq). reflexivity.
      * change ("consistency=" +:+ value)
          with ("consistency" +:+ String "=" value).
        rewrite (Contains_app "&"), (Contains_cons "&" "=" value), Hamp.
        reflexivity.
    + rewrite (Split_lacks "&").
      * unfold parseParams. simpl fold_left.
        change ("timeout=" +:+ value) with ("timeout" +:+ String "=" value).
        rewrite parseParam_pair by (reflexivity || exact Heq). reflexivity.
      * change ("timeout=" +:+ value) with ("timeout" +:+ String "=" value).
        rewrite (Contains_app "&"), (Contains_cons "&" "=" value), Hamp.
        reflexivity.
Qed.

End ParametersMore.

(** ** driver.go and connection.go: the errors of [Open] *)

Section OpenMore.

Context {W QR : Type} {R : Remote W QR}.

Implicit Types (s : Sys W Conn.t).






End OpenMore.

(** ** result.go *)

Section RowsMore.

Variable QueryResult : Type.
Variable qr_Next : QueryResult -> bool * QueryResult.
Variable qr_Scan : QueryResult -> list GoValue -> error + list GoValue.

(** X16.  [Rows.Next] never changes the length of [dest] nor the closed
    flag, and when it returns an error, [io.EOF] included, [dest] is as it
    was; once [Rows.Close] has run, [Next] returns [io.EOF] without moving
    the cursor. *)
Theorem Rows_Next_frame (r : Rows QueryResult) (dest : list GoValue) :
  (forall err r' dest',
     Rows_Next QueryResult qr_Next qr_Scan r dest = (err, r', dest') ->
     length dest' = length dest /\
     closed QueryResult r' = closed QueryResult r /\
     (err <> None -> dest' = dest))
  /\
  (let r0 := snd (Rows_Close QueryResult r) in
   Rows_Next QueryResult qr_Next qr_Scan r0 dest = (Some io_EOF, r0, dest)).
Proof.
  split.
  - intros err r' dest' H. unfold Rows_Next in H.
    destruct (result QueryResult r) as [qr|]; [|now inversion H].
    destruct (closed QueryResult r) eqn:Hc; [inversion H; subst; auto|].
    destruct (qr_Next qr) as [more qr']. destruct more; simpl in H.
    + destruct (qr_Scan qr' _) as [e|values]; inversion H; subst; simpl.
      * auto.
      * rewrite length_map, length_resize. repeat split. congruence.
    + inversion H; subst; simpl. auto.
  - simpl. unfold Rows_Next. simpl. destruct (result QueryResult r); reflexivity.
Qed.

End RowsMore.

(** X17.  [convertValue] leaves a value of a [driver.Value] type as it
    is, so converting twice is converting once. *)
Theorem convertValue_idempotent (v : GoValue) :
  (is_driver_Value v = true -> convertValue v = v) /\
  convertValue (convertValue v) = convertValue v.
Proof. split; destruct v; simpl; congruence. Qed.

(** ** leader.go: the choice of a node *)

(** X18.  [SelectBestNode] returns the leader when one is known, else the
    first peer, else the first configured node, else the empty string,
    whatever the level asked for; it sends nothing and changes nothing. *)
Theorem SelectBestNode_preference {W QR : Type} {R : Remote W QR}
    (level : string) (s : Sys W ClusterManager.t) :
  writer (ClusterManager.mu (this s)) = false ->
  SelectBestNode level s
  = Done (if String.eqb (ClusterManager.leader (this s)) ""
          then first_of (ClusterManager.peers (this s))
                 (ClusterManager.nodes (this s))
          else ClusterManager.leader (this s)) s.
Proof.
  intros Hw. destruct s as [cm w l]. destruct cm as [nodes leader peers mu lu hc iv].
  destruct mu as [wr rd]. simpl in Hw. subst wr.
  unfold SelectBestNode, bind, get, ret, cm_mu, on_mutex, RWMutex_RLock,
    RWMutex_RUnlock. simpl.
  destruct (String.eqb level "strong"), (String.eqb leader ""); simpl;
    try reflexivity; destruct peers, nodes; reflexivity.
Qed.

(** ** connection.go: transactions and credentials *)

Section TransactionsMore.

Context {W QR : Type} {R : Remote W QR}.

Local Open Scope go_scope.

(** X19.  A transaction is a no-op: [Begin] succeeds on any connection,
    closed ones included, without a remote call; a write made between
    [Begin] and [Rollback] (or [Commit]) is sent as it would be without
    them, and [Rollback] sends nothing that would undo it. *)
Theorem transaction_is_no_op ctx query args (s : Sys W Conn.t) :
  Begin s = Done (inr mkTx) s /\
  (opened <- Begin ;;
   r <- ExecContext ctx query args ;;
   err <- Tx_Rollback mkTx ;;
   ret (r, err)) s
  = (r <- ExecContext ctx query args ;; ret (r, None)) s /\
  (opened <- Begin ;;
   r <- ExecContext ctx query args ;;
   err <- Tx_Commit mkTx ;;
   ret (r, err)) s
  = (r <- ExecContext ctx query args ;; ret (r, None)) s.
Proof.
  unfold Begin, BeginTx, Tx_Rollback, Tx_Commit, bind, ret.
  repeat split; destruct (ExecContext ctx query args s); reflexivity.
Qed.

Variables username password : string.

Lemma commutes_ret {X A} (f : X -> X) (a : A) : commutes (W := W) f (ret a).
Proof. intros s. reflexivity. Qed.

Lemma commutes_bind {X A B} (f : X -> X) (m : M W X A) (k : A -> M W X B) :
  commutes f m -> (forall a, commutes f (k a)) -> commutes f (bind m k).
Proof.
  intros Hm Hk s. unfold bind. rewrite Hm.
  destruct (m s) as [a s1|h s1]; simpl; [apply Hk|reflexivity].
Qed.

Lemma commutes_call {X A} (f : X -> X) ev (g : W -> A * W) :
  commutes f (call ev g).
Proof. intros s. unfold call, on_this. simpl. destruct (g (world s)); reflexivity. Qed.

Lemma commutes_halt {X A} (f : X -> X) h :
  commutes f (halt_with (W := W) (X := X) (A := A) h).
Proof. intros s. reflexivity. Qed.

Lemma commutes_c_mu op :
  commutes (W := W) (set_credentials username password) (c_mu op).
Proof.
  intros s. unfold c_mu, on_mutex, on_this. simpl.
  destruct (op (Conn.mu (this s))); reflexivity.
Qed.

Lemma commutes_manager {A} (m : M W ClusterManager.t A) :
  commutes (set_credentials username password) (manager m).
Proof.
  intros s. unfold manager, on_field, on_this. simpl.
  destruct (m _); reflexivity.
Qed.

Lemma commutes_modify (g : Conn.t -> Conn.t) :
  (forall c, g (set_credentials username password c)
             = set_credentials username password (g c)) ->
  commutes (W := W) (set_credentials username password) (modify g).
Proof. intros H s. unfold modify, on_this. simpl. now rewrite H. Qed.

Lemma commutes_get_bind {A} (k : Conn.t -> M W Conn.t A) :
  (forall c, commutes (set_credentials username password) (k c)) ->
  (forall c, k (set_credentials username password c) = k c) ->
  commutes (set_credentials username password) (bind get k).
Proof.
  intros Hk Heq s. unfold bind, get. simpl. rewrite Heq. apply Hk.
Qed.

Ltac commute :=
  repeat first
    [ assumption
    | apply commutes_ret
    | apply commutes_call
    | apply commutes_halt
    | apply commutes_c_mu
    | apply commutes_manager
    | apply commutes_modify; intros ?; reflexivity
    | apply commutes_get_bind; [intros ?|intros ?; reflexivity]
    | apply commutes_bind; [|intros ?]
    | match goal with
      | |- commutes _ (match ?x with _ => _ end) => destruct x
      end ].

Lemma commutes_createClient node :
  commutes (set_credentials username password) (createClient node).
Proof. unfold createClient. commute. Qed.

Lemma commutes_connectToAny nodes : forall lastErr,
  commutes (set_credentials username password) (connectToAny nodes lastErr).
Proof.
  induction nodes as [|node nodes IH]; intros lastErr; simpl.
  - commute.
  - apply commutes_bind; [apply commutes_createClient|].
    intros [err|client]; [apply IH|commute].
Qed.

Lemma commutes_connectToAnyNode :
  commutes (set_credentials username password) connectToAnyNode.
Proof.
  unfold connectToAnyNode.
  commute; apply commutes_connectToAny.
Qed.

Lemma commutes_connect :
  commutes (set_credentials username password) connect.
Proof.
  pose proof commutes_connectToAnyNode. pose proof commutes_createClient.
  unfold connect. commute.
Qed.

Lemma commutes_reconnect :
  commutes (set_credentials username password) reconnect.
Proof. pose proof commutes_connect. unfold reconnect. commute. Qed.

Lemma commutes_retry {A} (attempt : Connection -> M W Conn.t (error + A)) :
  (forall cl, commutes (set_credentials username password) (attempt cl)) ->
  forall fuel attempts client,
    commutes (set_credentials username password)
      (retry reconnect attempt fuel attempts client).
Proof.
  intros Hatt. pose proof commutes_reconnect.
  induction fuel as [|fuel IH]; intros attempts client; simpl; [commute|].
  destruct client as [cl|]; [|commute].
  apply commutes_bind; [apply Hatt|]. intros [err|r]; [|commute].
  destruct (attempts <? 2); [|commute].
  apply commutes_bind; [commute|]. intros _.
  apply commutes_bind; [assumption|]. intros reconnectErr.
  apply commutes_get_bind; [|intros c; reflexivity]. intros c.
  apply commutes_bind; [commute|]. intros _.
  destruct reconnectErr; [commute|apply IH].
Qed.

Lemma commutes_with_client {A}
    (attempt : ParameterizedStatement -> Connection -> M W Conn.t (error + A))
    query args :
  (forall stmt cl,
     commutes (set_credentials username password) (attempt stmt cl)) ->
  commutes (set_credentials username password)
    (with_client reconnect attempt query args).
Proof.
  intros Hatt. unfold with_client.
  apply commutes_bind; [commute|]. intros _.
  apply commutes_get_bind; [|intros c; reflexivity]. intros c.
  apply commutes_bind; [commute|]. intros _.
  destruct (Conn.client c); [|commute].
  apply commutes_retry. intros cl. apply Hatt.
Qed.

(** X20.  The user name and the password of the configuration are never
    used: every operation of a connection makes the same remote calls, with
    the same results, whatever they are. *)
Theorem credentials_are_never_used ctx query args :
  let other := set_credentials username password in
  commutes other connect /\
  commutes other (ExecContext ctx query args) /\
  commutes other (QueryContext ctx query args) /\
  commutes other (Ping ctx) /\
  commutes other Close.
Proof.
  intros other. subst other. split; [apply commutes_connect|].
  split; [|split; [|split]].
  - apply commutes_with_client. intros stmt cl. unfold write_attempt. commute.
  - apply commutes_with_client. intros stmt cl. unfold query_attempt. commute.
  - pose proof commutes_reconnect. unfold Ping. commute.
  - unfold Close. commute.
Qed.

End TransactionsMore.

(** ** result.go: the conversion of a [float32] *)

Lemma land_disjoint a b n :
  0 <= n -> 0 <= b < 2 ^ n -> Z.land (a * 2 ^ n) b = 0.
Proof.
  intros Hn Hb. apply Z.bits_inj'. intros i Hi.
  rewrite Z.land_spec, Z.bits_0.
  destruct (Z.lt_ge_cases i n) as [Hlt|Hge].
  - rewrite Z.mul_pow2_bits_low by lia. reflexivity.
  - destruct (Z.eq_dec b 0) as [->|Hb0].
    + rewrite Z.bits_0. apply andb_false_r.
    + rewrite (Z.bits_above_log2 b i); [apply andb_false_r|lia|].
      apply Z.log2_lt_pow2; [lia|].
      apply Z.lt_le_trans with (2 ^ n); [lia|].
      apply Z.pow_le_mono_r; lia.
Qed.

Lemma lor_disjoint a b n :
  0 <= n -> 0 <= b < 2 ^ n -> Z.lor (a * 2 ^ n) b = a * 2 ^ n + b.
Proof.
  intros Hn Hb. pose proof (land_disjoint a b n Hn Hb) as H.
  rewrite <- Z.lxor_lor by exact H. symmetry. now apply Z.add_nocarry_lxor.
Qed.

Lemma ieee_pack s e x :
  0 <= e < 2048 -> 0 <= x < 2 ^ 52 ->
  Z.lor (Z.shiftl s 63) (Z.lor (Z.shiftl e 52) x) = s * 2 ^ 63 + e * 2 ^ 52 + x.
Proof.
  intros He Hx. rewrite !Z.shiftl_mul_pow2 by lia.
  rewrite (lor_disjoint e x 52) by lia.
  rewrite (lor_disjoint s _ 63) by lia. lia.
Qed.

Lemma ieee_fields s e m (es ms : Z) :
  0 <= ms -> 0 < es ->
  0 <= s <= 1 -> 0 <= e < 2 ^ es -> 0 <= m < 2 ^ ms ->
  let bits := s * 2 ^ (es + ms) + e * 2 ^ ms + m in
  Z.land (Z.shiftr bits (es + ms)) 1 = s /\
  Z.land (Z.shiftr bits ms) (2 ^ es - 1) = e /\
  Z.land bits (2 ^ ms - 1) = m.
Proof.
  intros Hms Hes Hs He Hm bits.
  assert (P1 : 0 < 2 ^ ms) by (apply Z.pow_pos_nonneg; lia).
  assert (P2 : 0 < 2 ^ es) by (apply Z.pow_pos_nonneg; lia).
  change 1 with (Z.ones 1) at 1.
  replace (2 ^ es - 1) with (Z.ones es) by (rewrite Z.ones_equiv; lia).
  replace (2 ^ ms - 1) with (Z.ones ms) by (rewrite Z.ones_equiv; lia).
  rewrite !Z.land_ones by lia. rewrite !Z.shiftr_div_pow2 by lia.
  subst bits. rewrite Z.pow_add_r by lia.
  split; [|split].
  - replace (s * (2 ^ es * 2 ^ ms) + e * 2 ^ ms + m)
      with (e * 2 ^ ms + m + s * (2 ^ es * 2 ^ ms)) by lia.
    rewrite Z.div_add by nia.
    rewrite (Z.div_small (e * 2 ^ ms + m)) by nia.
    apply Z.mod_small. simpl. lia.
  - replace (s * (2 ^ es * 2 ^ ms) + e * 2 ^ ms + m)
      with (m + (s * 2 ^ es + e) * 2 ^ ms) by lia.
    rewrite Z.div_add by lia. rewrite (Z.div_small m) by lia.
    replace (0 + (s * 2 ^ es + e)) with (e + s * 2 ^ es) by lia.
    rewrite Z.mod_add by lia. apply Z.mod_small. lia.
  - replace (s * (2 ^ es * 2 ^ ms) + e * 2 ^ ms + m)
      with (m + (s * 2 ^ es + e) * 2 ^ ms) by lia.
    rewrite Z.mod_add by lia. apply Z.mod_small. lia.
Qed.

Lemma float32_fields bits :
  0 <= bits < 2 ^ 32 ->
  exists s e m,
    0 <= s <= 1 /\ 0 <= e < 2 ^ 8 /\ 0 <= m < 2 ^ 23 /\
    bits = s * 2 ^ (8 + 23) + e * 2 ^ 23 + m.
Proof.
  intros H. exists (bits / 2 ^ 31), ((bits / 2 ^ 23) mod 2 ^ 8), (bits mod 2 ^ 23).
  change (2 ^ (8 + 23)) with 2147483648. change (2 ^ 31) with 2147483648.
  change (2 ^ 23) with 8388608. change (2 ^ 8) with 256.
  change (2 ^ 32) with 4294967296 in H.
  Z.div_mod_to_equations. lia.
Qed.

Lemma lor_bound a b n :
  0 < n -> 0 <= a < 2 ^ n -> 0 <= b < 2 ^ n -> 0 <= Z.lor a b < 2 ^ n.
Proof.
  intros Hn Ha Hb. split; [apply Z.lor_nonneg; lia|].
  destruct (Z.eq_dec (Z.lor a b) 0) as [->|Hne]; [apply Z.pow_pos_nonneg; lia|].
  assert (Hpos : 0 < Z.lor a b).
  { assert (0 <= Z.lor a b) by (apply Z.lor_nonneg; lia). lia. }
  apply Z.log2_lt_pow2; [exact Hpos|].
  rewrite Z.log2_lor by lia.
  assert (La : Z.log2 a < n).
  { destruct (Z.eq_dec a 0) as [->|]; [simpl; lia|].
    apply Z.log2_lt_pow2; lia. }
  assert (Lb : Z.log2 b < n).
  { destruct (Z.eq_dec b 0) as [->|]; [simpl; lia|].
    apply Z.log2_lt_pow2; lia. }
  lia.
Qed.

Lemma decode32_pack s e m :
  0 <= s <= 1 -> 0 <= e < 2 ^ 8 -> 0 <= m < 2 ^ 23 ->
  ieee_decode 8 23 (s * 2 ^ (8 + 23) + e * 2 ^ 23 + m)
  = if e =? 255 then (if m =? 0 then IeeeInfinite (s =? 1) else IeeeNaN)
    else if e =? 0 then IeeeFinite (s =? 1) m (-149)
    else IeeeFinite (s =? 1) (2 ^ 23 + m) (e - 150).
Proof.
  intros Hs He Hm.
  destruct (ieee_fields s e m 8 23) as (F1 & F2 & F3); try lia.
  unfold ieee_decode. rewrite F1, F2, F3.
  change (2 ^ 8 - 1) with 255. change (1 - (2 ^ (8 - 1) - 1) - 23) with (-149).
  replace (e - (2 ^ (8 - 1) - 1) - 23) with (e - 150)
    by (change (2 ^ (8 - 1)) with 128; lia).
  reflexivity.
Qed.

Lemma decode64_pack s e m :
  0 <= s <= 1 -> 0 <= e < 2 ^ 11 -> 0 <= m < 2 ^ 52 ->
  ieee_decode 11 52 (s * 2 ^ 63 + e * 2 ^ 52 + m)
  = if e =? 2047 then (if m =? 0 then IeeeInfinite (s =? 1) else IeeeNaN)
    else if e =? 0 then IeeeFinite (s =? 1) m (-1074)
    else IeeeFinite (s =? 1) (2 ^ 52 + m) (e - 1075).
Proof.
  intros Hs He Hm.
  destruct (ieee_fields s e m 11 52) as (F1 & F2 & F3); try lia.
  change (11 + 52) with 63 in F1, F2, F3.
  unfold ieee_decode. change (11 + 52) with 63. rewrite F1, F2, F3.
  change (2 ^ 11 - 1) with 2047.
  change (1 - (2 ^ (11 - 1) - 1) - 52) with (-1074).
  replace (e - (2 ^ (11 - 1) - 1) - 52) with (e - 1075)
    by (change (2 ^ (11 - 1)) with 1024; lia).
  reflexivity.
Qed.

Lemma float64_of_float32_exact bits :
  0 <= bits < 2 ^ 32 ->
  0 <= float64_of_float32 bits < 2 ^ 64 /\
  match ieee_decode 8 23 bits with
  | IeeeFinite negative M E =>
      exists M' E',
        ieee_decode 11 52 (float64_of_float32 bits) = IeeeFinite negative M' E' /\
        E' <= E /\ M' = M * 2 ^ (E - E')
  | IeeeInfinite negative =>
      ieee_decode 11 52 (float64_of_float32 bits) = IeeeInfinite negative
  | IeeeNaN => ieee_decode 11 52 (float64_of_float32 bits) = IeeeNaN
  end.
Proof.
  intros Hbits.
  destruct (float32_fields bits Hbits) as (s & e & m & Hs & He & Hm & ->).
  rewrite (decode32_pack s e m Hs He Hm).
  destruct (ieee_fields s e m 8 23) as (F1 & F2 & F3); try lia.
  change (8 + 23) with 31 in F1. change (2 ^ 8 - 1) with 255 in F2.
  unfold float64_of_float32. change (2 ^ (8 + 23)) with (2 ^ 31).
  change (2 ^ (8 + 23)) with (2 ^ 31) in F1, F2, F3.
  rewrite F1, F2, F3.
  change (2 ^ 8) with 256 in He. change (2 ^ 23) with 8388608 in Hm.
  destruct (Z.eqb_spec e 255) as [E255|N255].
  - (* infinities and NaNs *)
    destruct (Z.eqb_spec m 0) as [M0|MN].
    + rewrite (ieee_pack s 2047 0) by lia.
      rewrite (decode64_pack s 2047 0) by lia. simpl Z.eqb.
      split; [lia|reflexivity].
    + assert (Hx : 0 <= Z.lor (Z.shiftl m 29) (2 ^ 51) < 2 ^ 52).
      { apply lor_bound; [lia| |lia]. rewrite Z.shiftl_mul_pow2 by lia. lia. }
      assert (Hx0 : Z.lor (Z.shiftl m 29) (2 ^ 51) <> 0).
      { rewrite Z.lor_eq_0_iff. intros [_ H]. discriminate H. }
      rewrite (ieee_pack s 2047 _) by lia.
      rewrite (decode64_pack s 2047 _) by lia. simpl (2047 =? 2047).
      destruct (Z.eqb_spec (Z.lor (Z.shiftl m 29) (2 ^ 51)) 0); [contradiction|].
      split; [lia|reflexivity].
  - destruct (Z.eqb_spec e 0) as [E0|EN].
    + destruct (Z.eqb_spec m 0) as [M0|MN].
      * (* zeros *)
        replace (Z.shiftl s 63) with (s * 2 ^ 63 + 0 * 2 ^ 52 + 0)
          by (rewrite Z.shiftl_mul_pow2; lia).
        rewrite (decode64_pack s 0 0) by lia. simpl Z.eqb.
        split; [lia|]. exists 0, (-1074). subst m.
        split; [reflexivity|]. split; lia.
      * (* subnormal numbers *)
        set (k := Z.log2 m).
        assert (Hk : 2 ^ k <= m < 2 ^ Z.succ k) by (apply Z.log2_spec; lia).
        assert (Hk0 : 0 <= k) by apply Z.log2_nonneg.
        assert (Hk23 : k < 23) by (apply Z.log2_lt_pow2; lia).
        rewrite Z.pow_succ_r in Hk by lia.
        assert (HP : 0 < 2 ^ k) by (apply Z.pow_pos_nonneg; lia).
        assert (HQ : 0 < 2 ^ (52 - k)) by (apply Z.pow_pos_nonneg; lia).
        assert (HPQ : 2 ^ k * 2 ^ (52 - k) = 2 ^ 52).
        { rewrite <- Z.pow_add_r by lia. f_equal. lia. }
        assert (Hx : 0 <= (m - 2 ^ k) * 2 ^ (52 - k) < 2 ^ 52).
        { split; [nia|]. rewrite <- HPQ.
          apply Z.mul_lt_mono_pos_r; lia. }
        rewrite (Z.shiftl_mul_pow2 (m - 2 ^ k)) by lia.
        rewrite (ieee_pack s (k - 149 + 1023) _) by lia.
        rewrite (decode64_pack s (k - 149 + 1023) _) by lia.
        destruct (Z.eqb_spec (k - 149 + 1023) 2047); [lia|].
        destruct (Z.eqb_spec (k - 149 + 1023) 0); [lia|].
        split; [lia|]. eexists _, _. split; [reflexivity|].
        split; [lia|].
        replace (-149 - (k - 149 + 1023 - 1075)) with (52 - k) by lia.
        lia.
    + (* normal numbers *)
      assert (Hx : 0 <= m * 2 ^ 29 < 2 ^ 52) by lia.
      rewrite (Z.shiftl_mul_pow2 m) by lia.
      rewrite (ieee_pack s (e - 127 + 1023) _) by lia.
      rewrite (decode64_pack s (e - 127 + 1023) _) by lia.
      destruct (Z.eqb_spec (e - 127 + 1023) 2047); [lia|].
      destruct (Z.eqb_spec (e - 127 + 1023) 0); [lia|].
      split; [lia|]. eexists _, _. split; [reflexivity|].
      split; [lia|].
      replace (e - 150 - (e - 127 + 1023 - 1075)) with 29 by lia.
      lia.
Qed.

(** X22.  [convertValue] turns a [float32] into the [float64] of the very
    same number: a finite number keeps its sign and its value, zeros and
    subnormal numbers included, an infinity stays the infinity of its sign
    and a NaN stays a NaN. *)
Theorem convertValue_float32_exact bits :
  0 <= bits < 2 ^ 32 ->
  exists bits',
    convertValue (VFloat32 bits) = VFloat64 bits' /\
    0 <= bits' < 2 ^ 64 /\
    match ieee_decode 8 23 bits with
    | IeeeFinite negative M E =>
        exists M' E',
          ieee_decode 11 52 bits' = IeeeFinite negative M' E' /\
          E' <= E /\ M' = M * 2 ^ (E - E')
    | IeeeInfinite negative => ieee_decode 11 52 bits' = IeeeInfinite negative
    | IeeeNaN => ieee_decode 11 52 bits' = IeeeNaN
    end.
Proof.
  intros H. exists (float64_of_float32 bits). split; [reflexivity|].
  apply float64_of_float32_exact, H.
Qed.

(** ** The further properties at sample states *)

(** X1 where [a] answers that [b] leads. *)
Lemma queryNodeStatus_success_witness :
  let s := mkSys cm_known (cluster t2026 [node_a] [] []) [] in
  let s' := after s (StatusRequest "http://a:4001/status") (world s) in
  queryNodeStatus context_Background node_a s
  = Done (inr (node_b, [node_a; node_c])) s'
  /\ this s' = this s
  /\ log s' = log s ++ [StatusRequest (node_a +:+ "/status")%string].
Proof.
  intros s s'.
  assert (H : queryNodeStatus context_Background node_a s
              = Done (inr (node_b, [node_a; node_c])) s')
    by (vm_compute; reflexivity).
  destruct (queryNodeStatus_success context_Background node_a s node_b
              [node_a; node_c] s' H) as (_ & Hthis & Hlog & _).
  split; [exact H|]. split; [exact Hthis|exact Hlog].
Defined.

(** X2 a minute after the last refresh, where only [a] answers. *)
Lemma DiscoverLeader_outcome_witness :
  let s := mkSys cm_known (cluster (t2026 + 60 * time.Second) [node_a] [] [])
             [] in
  ClusterManager.mu (this s) = unlocked /\
  exists r s',
    DiscoverLeader context_Background s = Done r s' /\
    ClusterManager.mu (this s') = unlocked /\
    ClusterManager.nodes (this s') = [node_a; node_b].
Proof.
  intros s. split; [reflexivity|].
  destruct (DiscoverLeader_outcome context_Background s eq_refl)
    as (r & s' & H1 & H2 & H3 & _).
  exists r, s'. split; [exact H1|]. split; [exact H2|exact H3].
Defined.

(** X3 at the very instant of the last refresh, where [a] does not answer
    and [b] does. *)
Lemma ForceRefresh_bypasses_throttle_witness :
  let w := cluster t2026 [node_b] [] [] in
  ForceRefresh context_Background (mkSys cm_known w [])
  = Done None
      (mkSys (ClusterManager.set_view node_b [node_a; node_c] (t2026 + 1)
                cm_known)
         (cluster (t2026 + 2) [node_b] [] [])
         (probes [node_a; node_b])).
Proof.
  intros w. etransitivity.
  - apply (ForceRefresh_bypasses_throttle context_Background
             (mkSys cm_known w []) t2026
             (cluster (t2026 + 1) [node_b] [] [])
             [node_a] node_b []
             (cluster (t2026 + 1) [node_b] [] [])
             (Some refused) node_b [node_a; node_c]).
    + reflexivity.
    + reflexivity.
    + vm_compute. discriminate.
    + reflexivity.
    + simpl. eexists. split; [reflexivity|]. split; reflexivity.
    + reflexivity.
  - vm_compute. reflexivity.
Defined.

(** X4 where the leader [b] is up. *)
Lemma IsLeaderHealthy_closes_witness :
  let s := mkSys cm_known (cluster t2026 [] [] []) [] in
  IsLeaderHealthy context_Background s
  = Done true
      (mkSys cm_known (world s)
         [Open node_b; Select1 client_b; CloseConnection client_b]).
Proof.
  intros s.
  assert (Hl : ClusterManager.leader (this s) <> EmptyString)
    by (vm_compute; discriminate).
  exact (proj2 (IsLeaderHealthy_closes context_Background s eq_refl) Hl).
Defined.


(** X6 for the live connection. *)
Lemma Close_idempotent_witness :
  let s := live [] [] in
  exists s',
    Close s = Done None s' /\
    this s' = Conn.set_client None (Conn.set_closed true (this s)) /\
    log s' = log s ++ [CloseConnection client_b] /\
    Close s' = Done None s'.
Proof.
  intros s.
  assert (H1 : Conn.mu (this s) = unlocked) by (vm_compute; reflexivity).
  assert (H2 : Conn.closed (this s) = false) by (vm_compute; reflexivity).
  destruct (Close_idempotent s H1 H2) as (s' & G1 & G2 & G3 & G4).
  exists s'. split; [exact G1|]. split; [exact G2|]. split; [|exact G4].
  rewrite G3. vm_compute. reflexivity.
Defined.

(** X7 for the live connection after [Close]. *)
Lemma closed_connection_refuses_witness :
  let s := final (Close (live [] [])) in
  ExecContext context_Background (Query insert) [] s
  = Done (inl (errors_New "connection is closed")) s
  /\ Ping context_Background s
     = Done (Some (errors_New "connection is closed")) s.
Proof.
  intros s.
  assert (H1 : Conn.mu (this s) = unlocked) by (vm_compute; reflexivity).
  assert (H2 : Conn.closed (this s) = true) by (vm_compute; reflexivity).
  assert (H3 : Conn.client (this s) = None) by (vm_compute; reflexivity).
  destruct (closed_connection_refuses context_Background (Query insert) [] s
              H1 H2 H3) as (G1 & _ & G3 & _).
  split; [exact G1|exact G3].
Defined.

(** X8 for a write that the leader accepts. *)
Lemma first_call_succeeds_witness :
  let s := live [inr one_row] [] in
  ExecContext context_Background (Query insert) [] s
  = Done (inr (mkResult 7 1))
      (after s (WriteOne client_b insert)
         (WriteOneParameterized client_b insert (world s)).2).
Proof.
  intros s.
  assert (H1 : Conn.mu (this s) = unlocked) by (vm_compute; reflexivity).
  assert (H2 : Conn.client (this s) = Some client_b)
    by (vm_compute; reflexivity).
  destruct (first_call_succeeds context_Background (Query insert) [] s
              client_b H1 H2) as (G & _ & _).
  apply (G one_row). vm_compute. reflexivity.
Defined.

(** X9 for a write that the node refuses. *)
Lemma failed_call_blocks_witness :
  let s := live [inl err1] [] in
  exists s',
    ExecContext context_Background (Query insert) [] s = Stuck Blocked s' /\
    Conn.client (this s') = None /\ Conn.mu (this s') = held.
Proof.
  intros s.
  assert (H1 : Conn.mu (this s) = unlocked) by (vm_compute; reflexivity).
  assert (H2 : Conn.client (this s) = Some client_b)
    by (vm_compute; reflexivity).
  destruct (failed_call_blocks context_Background (Query insert) [] s
              client_b H1 H2) as (G & _ & _).
  eexists. split.
  - apply (G err1 (WriteOneParameterized client_b insert (world s)).2).
    vm_compute. reflexivity.
  - split; reflexivity.
Defined.

(** X11 for one value on the live connection. *)
Lemma prepared_statement_sends_its_values_witness :
  let s := live [inr one_row] [] in
  map Ordinal (convertToNamedValues [VString "x"; VInt64 2]) = [1; 2] /\
  PrepareContext context_Background "INSERT INTO t(x, y) VALUES (?, ?)" s
  = Done (inr (Stmt.mk "INSERT INTO t(x, y) VALUES (?, ?)")) s.
Proof.
  intros s.
  assert (H1 : Conn.mu (this s) = unlocked) by (vm_compute; reflexivity).
  assert (H2 : Conn.closed (this s) = false) by (vm_compute; reflexivity).
  assert (H3 : Conn.client (this s) = Some client_b)
    by (vm_compute; reflexivity).
  destruct (prepared_statement_sends_its_values context_Background
              "INSERT INTO t(x, y) VALUES (?, ?)" [VString "x"; VInt64 2] s
              client_b H1 H2 H3) as (_ & G2 & G3 & _).
  split; [exact G2|exact G3].
Defined.

(** X12 for the empty connection string. *)
Lemma Open_outcome_witness :
  driver_Open time.ParseDuration_whole EmptyString (silent t2026) []
  = Done (inl (errors_New "dsn cannot be empty")) (silent t2026, []).
Proof.
  apply (proj1 (Open_outcome time.ParseDuration_whole EmptyString
                  (silent t2026) [])).
  reflexivity.
Defined.

(** X13 for a connection string with two nodes. *)
Lemma ParseDSN_result_witness :
  exists cfg,
    ParseDSN time.ParseDuration_whole "host1:4001, https://host2:4002"
    = inr cfg /\
    Forall (fun n => has_scheme n = true) (Nodes cfg) /\
    Timeout cfg = 30 * time.Second.
Proof.
  pose proof (ParseDSN_result time.ParseDuration_whole
                "host1:4001, https://host2:4002") as H.
  destruct (ParseDSN time.ParseDuration_whole
              "host1:4001, https://host2:4002") as [err|cfg] eqn:E.
  - exfalso. vm_compute in E. discriminate E.
  - exists cfg. split; [reflexivity|].
    destruct H as (_ & Hs & _ & Hd). split; [exact Hs|].
    exact (proj1 (Hd eq_refl)).
Defined.

(** X14 for one node. *)
Lemma ParseDSN_scheme_optional_witness :
  ParseDSN time.ParseDuration_whole "sqlite://host1:4001"
  = ParseDSN time.ParseDuration_whole "host1:4001"
  /\ ParseDSN time.ParseDuration_whole "rqlite://host1:4001"
     = ParseDSN time.ParseDuration_whole "host1:4001".
Proof.
  apply (ParseDSN_scheme_optional time.ParseDuration_whole "host1:4001").
  - discriminate.
  - reflexivity.
  - reflexivity.
Defined.

(** X16 for a cursor over lists of rows. *)
Lemma Rows_Next_frame_witness :
  let next (qr : list (list GoValue)) := (true, tl qr) in
  let scan (qr : list (list GoValue)) (values : list GoValue) :=
    @inr error _ (hd [] qr) in
  let r := mkRows (list (list GoValue)) (Some [[]; [VInt32 1]]) false in
  let r0 := snd (Rows_Close _ r) in
  Rows_Next _ next scan r0 [VNil] = (Some io_EOF, r0, [VNil]).
Proof.
  intros next scan r r0.
  exact (proj2 (Rows_Next_frame _ next scan r [VNil])).
Defined.

(** X17 for a string. *)
Lemma convertValue_idempotent_witness :
  convertValue (VString "x") = VString "x".
Proof. apply (proj1 (convertValue_idempotent (VString "x"))). reflexivity. Defined.

(** X18 for the manager that knows a peer and no leader. *)
Lemma SelectBestNode_preference_witness :
  let s := mkSys cm_leaderless (silent t2026) [] in
  SelectBestNode "strong" s = Done node_c s.
Proof. intros s. exact (SelectBestNode_preference "strong" s eq_refl). Defined.


(** X22 for the number one. *)
Lemma convertValue_float32_exact_witness :
  exists bits',
    convertValue (VFloat32 1065353216) = VFloat64 bits' /\
    ieee_decode 8 23 1065353216 = IeeeFinite false (2 ^ 23) (-23) /\
    exists M' E',
      ieee_decode 11 52 bits' = IeeeFinite false M' E' /\
      E' <= -23 /\ M' = 2 ^ 23 * 2 ^ (-23 - E').
Proof.
  assert (H : 0 <= 1065353216 < 2 ^ 32) by lia.
  destruct (convertValue_float32_exact 1065353216 H) as (bits' & H1 & _ & H3).
  exists bits'. split; [exact H1|]. split; [reflexivity|]. exact H3.
Defined.

(** X21 for a user name, a level that is none of the three and a timeout
    that is no duration. *)
Lemma ParseDSN_parameters_on_top_witness :
  ParseDSN time.ParseDuration_whole
    "user@host1:4001?consistency=bogus&timeout=soon"
  = inr (mkConfig ["http://host1:4001"] "user" EmptyString
           (30 * time.Second) "bogus").
Proof.
  etransitivity.
  - apply (proj1 (ParseDSN_parameters_on_top time.ParseDuration_whole
                    "user@host1:4001" "consistency=bogus&timeout=soon"
                    ltac:(discriminate) eq_refl eq_refl eq_refl)).
  - vm_compute. reflexivity.
Defined.
